(** * VoiceOwl transcription service: workflow engine and producers

    A shallow embedding of the TypeScript services
    ([workflow.service.ts], [azure.service.ts], [transcription.service.ts]),
    of the handlers of [workflow.controller.ts], of the error middleware and
    of the schema of [Transcription.model.ts], followed by the properties of
    the workflow state machine.

    Conventions of the embedding.
    - A document is a record with the fields of the [ITranscription]
      interface; optional fields are [option]s.  Statuses are strings, as in
      the source, and the transition table is the association list the
      source writes as an object literal.
    - The schema acts where mongoose makes it act: its setters and defaults
      when a document is constructed, its defaults when one is read with
      [findById], its validators when a new document is saved.  Queries that
      are [lean], counts and aggregations see the stored documents.
    - Strings are sequences of code units below 128 wherever white space,
      letter case or a regular expression is concerned.
    - [async] functions are computations in the monad [Async]: a state
      monad over [World] with exceptions ([throw], [tryCatch]).  The world
      holds the collection, the ObjectId generator, the clock, the pending
      [setTimeout] callbacks, a trace of observable events, and the behaviour
      of the environment: whether each store operation fails and what each
      call of [Math.random] returns.
    - Every store operation is atomic and happens at its [await]. *)

From Stdlib Require Import List String Ascii Bool Arith ZArith QArith Qround Lia.
From Stdlib Require Import Sorting.Sorted Sorting.Permutation DecimalString.
Import ListNotations.

Set Warnings "-notation-for-abbreviation".

Open Scope string_scope.
Open Scope Z_scope.

(** ** JavaScript helpers *)

Module JS.

(** [value || fallback] on an optional string: [undefined] and the empty
    string are falsy. *)
Definition truthy (v : option string) : bool :=
  match v with
  | Some s => negb (String.eqb s "")
  | None => false
  end.

Definition orElse (v : option string) (fallback : string) : string :=
  match v with
  | Some s => if String.eqb s "" then fallback else s
  | None => fallback
  end.

(** [array.includes(x)] *)
Definition includes (l : list string) (x : string) : bool :=
  existsb (String.eqb x) l.

(** [array.join(sep)] *)
Fixpoint join (sep : string) (l : list string) : string :=
  match l with
  | [] => ""
  | x :: rest =>
      match rest with
      | [] => x
      | _ :: _ => x ++ sep ++ join sep rest
      end
  end.

(** [text.includes(fragment)] *)
Definition contains (text fragment : string) : bool :=
  match String.index 0 fragment text with
  | Some _ => true
  | None => false
  end.

(** [object[key]] on an object literal. *)
Fixpoint prop {A : Type} (obj : list (string * A)) (key : string) : option A :=
  match obj with
  | [] => None
  | (k, v) :: rest => if String.eqb k key then Some v else prop rest key
  end.

End JS.

(** A number in a template literal or a path: its decimal digits. *)
Definition decimal (n : Z) : string := NilEmpty.string_of_int (Z.to_int n).

(** ** Documents ([Transcription.model.ts]) *)

Record HistoryEntry := mkEntry {
  status : string;
  timestamp : Z;
  comment : option string;
  reviewedBy : option string
}.

Notation ObjectId := nat.

(** An id as a caller writes it, a string: one that mongoose casts to an
    ObjectId, or one that it refuses, throwing a [CastError] with the given
    message before any command is sent to the store. *)
Inductive IdString :=
| Hex (oid : ObjectId)
| NotHex (castError : string).

Coercion Hex : nat >-> IdString.

Record ITranscription := mkDoc {
  _id : ObjectId;
  audioUrl : string;
  transcription : string;
  source : string;
  language : string;
  workflowStatus : option string;
  workflowHistory : option (list HistoryEntry);
  createdAt : Z;
  updatedAt : option Z
}.

(** The [enum] of the schema's [workflowStatus] path. *)
Definition workflowStatusEnum : list string :=
  ["transcription"; "review"; "approval"; "completed"; "rejected"].

(** ** The schema ([transcriptionSchema]) *)

Module Schema.

(** The two regular expressions of the validators, as their [test].

    [/^(https?|ftp):\/\/[^\s/$.?#].[^\s]*$/i]: one of the three schemes in
    either case, [://], a character that is neither white space nor one of
    [/ $ . ? #], any character but a line terminator, then no white space up
    to the end. *)
Definition isWhiteSpace (c : ascii) : bool :=
  let n := nat_of_ascii c in
  ((9 <=? n)%nat && (n <=? 13)%nat) || (n =? 32)%nat.

Definition isLineTerminator (c : ascii) : bool :=
  let n := nat_of_ascii c in (n =? 10)%nat || (n =? 13)%nat.

Definition toLowerCase (c : ascii) : ascii :=
  let n := nat_of_ascii c in
  if ((65 <=? n)%nat && (n <=? 90)%nat)%bool then ascii_of_nat (n + 32) else c.

(** The rest of [s] after [prefix], letters compared without case. *)
Fixpoint afterPrefix (prefix s : string) : option string :=
  match prefix, s with
  | EmptyString, _ => Some s
  | String p prefix', String c s' =>
      if Ascii.eqb (toLowerCase c) p then afterPrefix prefix' s' else None
  | String _ _, EmptyString => None
  end.

Fixpoint noWhiteSpace (s : string) : bool :=
  match s with
  | EmptyString => true
  | String c s' => negb (isWhiteSpace c) && noWhiteSpace s'
  end.

Definition afterScheme (rest : string) : bool :=
  match rest with
  | String c1 (String c2 tail) =>
      negb (isWhiteSpace c1)
      && negb (JS.includes ["/"; "$"; "."; "?"; "#"] (String c1 EmptyString))
      && negb (isLineTerminator c2)
      && noWhiteSpace tail
  | _ => false
  end.

Definition urlRegex (s : string) : bool :=
  match afterPrefix "https://" s with
  | Some rest => afterScheme rest
  | None =>
      match afterPrefix "http://" s with
      | Some rest => afterScheme rest
      | None =>
          match afterPrefix "ftp://" s with
          | Some rest => afterScheme rest
          | None => false
          end
      end
  end.

Definition isLower (c : ascii) : bool :=
  let n := nat_of_ascii c in ((97 <=? n)%nat && (n <=? 122)%nat)%bool.

Definition isUpper (c : ascii) : bool :=
  let n := nat_of_ascii c in ((65 <=? n)%nat && (n <=? 90)%nat)%bool.

(** [/^[a-z]{2}-[A-Z]{2}$/] *)
Definition langRegex (s : string) : bool :=
  match s with
  | String a (String b (String dash (String c (String d EmptyString)))) =>
      isLower a && isLower b && Ascii.eqb dash "-" && isUpper c && isUpper d
  | _ => false
  end.

(** [trim: true], the setter [v.trim()]: white space and line terminators
    leave both ends. *)
Fixpoint trimStart (s : string) : string :=
  match s with
  | EmptyString => EmptyString
  | String c s' => if isWhiteSpace c then trimStart s' else s
  end.

Fixpoint trimEnd (s : string) : string :=
  match s with
  | EmptyString => EmptyString
  | String c s' =>
      match trimEnd s' with
      | EmptyString => if isWhiteSpace c then EmptyString else String c EmptyString
      | kept => String c kept
      end
  end.

Definition trim (s : string) : string := trimEnd (trimStart s).

(** The defaults of the schema, for the paths the services may leave out:
    [workflowStatus] ('transcription') and the array [workflowHistory]
    (empty).  [source], [language] and [createdAt] have defaults too, but
    every service passes them. *)
Definition applyDefaults (d : ITranscription) : ITranscription :=
  mkDoc (_id d) (audioUrl d) (transcription d) (source d) (language d)
    (match workflowStatus d with
     | Some s => Some s
     | None => Some "transcription"
     end)
    (match workflowHistory d with
     | Some h => Some h
     | None => Some []
     end)
    (createdAt d) (updatedAt d).

(** [new Transcription(fields)]: the setters of [audioUrl] and
    [transcription], then the defaults. *)
Definition construct (fields : ITranscription) : ITranscription :=
  applyDefaults
    (mkDoc (_id fields) (trim (audioUrl fields)) (trim (transcription fields))
       (source fields) (language fields) (workflowStatus fields)
       (workflowHistory fields) (createdAt fields) (updatedAt fields)).

(** A document read from the store with [findById]: paths it lacks get their
    defaults; setters do not run. *)
Definition hydrate (stored : ITranscription) : ITranscription :=
  applyDefaults stored.

Definition sourceEnum : list string := ["mock"; "azure"].

(** The entries of the history, from index [k] on: [status] is required. *)
Fixpoint historyErrors (k : nat) (h : list HistoryEntry) : list string :=
  match h with
  | [] => []
  | e :: rest =>
      ((if String.eqb (status e) ""
        then [("workflowHistory." ++ decimal (Z.of_nat k)
               ++ ".status: Path `status` is required.")%string]
        else [])
       ++ historyErrors (S k) rest)%list
  end.

(** The validators that [save()] runs on a new document, path by path in
    the order of the schema; each failing path contributes its name and the
    message of its first failing validator. *)
Definition pathErrors (d : ITranscription) : list string :=
  ((if String.eqb (audioUrl d) ""
    then ["audioUrl: Path `audioUrl` is required."]
    else if negb (urlRegex (audioUrl d)) then ["audioUrl: Invalid URL format"]
    else [])
   ++ (if String.eqb (transcription d) ""
       then ["transcription: Path `transcription` is required."]
       else [])
   ++ (if negb (JS.includes sourceEnum (source d))
       then [("source: `" ++ source d
              ++ "` is not a valid enum value for path `source`.")%string]
       else [])
   ++ (if negb (langRegex (language d))
       then ["language: Language must be in format xx-XX (e.g., en-US, fr-FR)"]
       else [])
   ++ (match workflowStatus d with
       | Some s =>
           if negb (JS.includes workflowStatusEnum s)
           then [("workflowStatus: `" ++ s
                  ++ "` is not a valid enum value for path `workflowStatus`.")%string]
           else []
       | None => []
       end)
   ++ historyErrors 0
        (match workflowHistory d with Some h => h | None => [] end))%list.

(** The message of the [ValidationError]. *)
Definition validationMessage (errors : list string) : string :=
  "Transcription validation failed: " ++ JS.join ", " errors.

End Schema.

(** ** The world an [async] function runs in *)

Inductive Event :=
| Slept (ms : Z)            (* await new Promise(r => setTimeout(r, ms)) *)
| AzureCall                 (* one invocation of callAzureSpeechService *)
| Scheduled (ms : Z) (id : IdString).  (* setTimeout(() => autoProgressWorkflow(id), ms) *)

Record Timer := mkTimer { due : Z; target : IdString }.

Record Config := mkConfig {
  AZURE_SPEECH_KEY : string;
  AZURE_REGION : string
}.

Record World := mkWorld {
  collection : list ITranscription;   (* the transcriptions collection *)
  nextObjectId : ObjectId;            (* ObjectId generator *)
  clock : Z;                          (* Date.now(), milliseconds *)
  timers : list Timer;                (* pending auto-progression callbacks *)
  trace : list Event;                 (* most recent event first *)
  storeOps : nat;                     (* store operations issued so far *)
  storeFault : nat -> option string;  (* [Some m]: that operation rejects with message m *)
  draws : nat;                        (* calls of Math.random so far *)
  entropy : nat -> N;                 (* raw bits behind each call of Math.random *)
  config : Config
}.

Definition withCollection (c : list ITranscription) (w : World) : World :=
  mkWorld c (nextObjectId w) (clock w) (timers w) (trace w)
          (storeOps w) (storeFault w) (draws w) (entropy w) (config w).

Definition withNextObjectId (n : ObjectId) (w : World) : World :=
  mkWorld (collection w) n (clock w) (timers w) (trace w)
          (storeOps w) (storeFault w) (draws w) (entropy w) (config w).

Definition withClock (t : Z) (w : World) : World :=
  mkWorld (collection w) (nextObjectId w) t (timers w) (trace w)
          (storeOps w) (storeFault w) (draws w) (entropy w) (config w).

Definition withTimers (ts : list Timer) (w : World) : World :=
  mkWorld (collection w) (nextObjectId w) (clock w) ts (trace w)
          (storeOps w) (storeFault w) (draws w) (entropy w) (config w).

Definition withTrace (tr : list Event) (w : World) : World :=
  mkWorld (collection w) (nextObjectId w) (clock w) (timers w) tr
          (storeOps w) (storeFault w) (draws w) (entropy w) (config w).

Definition withStoreOps (n : nat) (w : World) : World :=
  mkWorld (collection w) (nextObjectId w) (clock w) (timers w) (trace w)
          n (storeFault w) (draws w) (entropy w) (config w).

Definition withDraws (n : nat) (w : World) : World :=
  mkWorld (collection w) (nextObjectId w) (clock w) (timers w) (trace w)
          (storeOps w) (storeFault w) n (entropy w) (config w).

(** ** The [Async] monad *)

Inductive Outcome (A : Type) :=
| Returned (a : A)
| Thrown (message : string).
Arguments Returned {A} a.
Arguments Thrown {A} message.

Definition Async (A : Type) : Type := World -> Outcome A * World.

Definition ret {A} (a : A) : Async A := fun w => (Returned a, w).

Definition throw {A} (message : string) : Async A := fun w => (Thrown message, w).

Definition bind {A B} (m : Async A) (k : A -> Async B) : Async B :=
  fun w =>
    match m w with
    | (Returned a, w') => k a w'
    | (Thrown e, w') => (Thrown e, w')
    end.

(** [try { body } catch (error) { handler }]: what the body did to the world
    before it threw stays done. *)
Definition tryCatch {A} (body : Async A) (handler : string -> Async A) : Async A :=
  fun w =>
    match body w with
    | (Returned a, w') => (Returned a, w')
    | (Thrown e, w') => handler e w'
    end.

Notation "x <- m ;; k" := (bind m (fun x => k))
  (at level 61, m at next level, right associativity).
Notation "m ;;; k" := (bind m (fun _ => k))
  (at level 61, right associativity).

Definition returned {A} (o : Outcome A) : bool :=
  match o with
  | Returned _ => true
  | Thrown _ => false
  end.

(** ** Primitive effects *)

(** [new Date()] *)
Definition now : Async Z := fun w => (Returned (clock w), w).

Definition emit (e : Event) : Async unit :=
  fun w => (Returned tt, withTrace (e :: trace w) w).

(** [await new Promise(resolve => setTimeout(resolve, ms))] *)
Definition sleep (ms : Z) : Async unit :=
  fun w => (Returned tt, withTrace (Slept ms :: trace w) (withClock (clock w + ms) w)).

(** The value of the [k]-th call of [Math.random()]: a double in [0, 1), an
    integer multiple of 2^-53. *)
Definition randomAt (bits : nat -> N) (k : nat) : Q :=
  Z.of_N (N.modulo (bits k) (2 ^ 53)) # (2 ^ 53).

(** [Math.random()] *)
Definition Math_random : Async Q :=
  fun w => (Returned (randomAt (entropy w) (draws w)), withDraws (S (draws w)) w).

(** [Math.floor(Math.random() * n)] as an index. *)
Definition randomIndex (n : nat) : Async nat :=
  r <- Math_random ;;
  ret (Z.to_nat (Qfloor (r * inject_Z (Z.of_nat n)))).

(** [x < y] on numbers. *)
Definition lessThan (x y : Q) : bool := negb (Qle_bool y x).

(** One round trip to the store: the environment decides whether it rejects. *)
Definition storeOp : Async unit :=
  fun w =>
    let w' := withStoreOps (S (storeOps w)) w in
    match storeFault w (storeOps w) with
    | Some m => (Thrown m, w')
    | None => (Returned tt, w')
    end.

(** The stored document is the one the id names. *)
Definition hasId (id : IdString) (d : ITranscription) : bool :=
  match id with
  | Hex oid => Nat.eqb (_id d) oid
  | NotHex _ => false
  end.

(** [Transcription.findById(id)]: the id is cast, the store is asked, and
    the document found is hydrated. *)
Definition findById (id : IdString) : Async (option ITranscription) :=
  match id with
  | NotHex castError => throw castError
  | Hex _ =>
      storeOp ;;;
      fun w =>
        (Returned (option_map Schema.hydrate (find (hasId id) (collection w))), w)
  end.

(** [new Transcription({...})]: the document gets its [_id] at construction,
    and the schema's setters and defaults are applied to the fields the
    caller passes. *)
Definition newTranscription (fields : ObjectId -> ITranscription) : Async ITranscription :=
  fun w =>
    (Returned (Schema.construct (fields (nextObjectId w))),
     withNextObjectId (S (nextObjectId w)) w).

(** [doc.save()] on a document just constructed: validation, then an
    insert.  A document that fails validation is refused before any command
    is sent to the store. *)
Definition saveNew (d : ITranscription) : Async ITranscription :=
  match Schema.pathErrors d with
  | [] =>
      storeOp ;;;
      fun w =>
        match find (hasId (_id d)) (collection w) with
        | Some _ => (Thrown "E11000 duplicate key error", w)
        | None => (Returned d, withCollection (collection w ++ [d])%list w)
        end
  | errors => throw (Schema.validationMessage errors)
  end.

Definition replaceDoc (d : ITranscription) (c : list ITranscription) : list ITranscription :=
  map (fun x => if hasId (_id d) x then d else x) c.

(** [doc.save()] on a document read from the store and modified since.
    mongoose sends the modifications, not the document: [delta] is what the
    caller did to the document ([$set] of the paths it assigned, [$push] of
    the entries it pushed), and the store applies it to the document stored
    under that [_id] at the time of the write.  No condition on the stored
    contents is part of the write.  [d] is the caller's in-memory document.
    The validation that [save] runs first is left out: the only caller is
    [transitionWorkflow], and the documents of a process started on an empty
    collection pass it, before and after an allowed transition. *)
Definition saveExisting (d : ITranscription) (delta : ITranscription -> ITranscription)
  : Async ITranscription :=
  storeOp ;;;
  fun w =>
    match find (hasId (_id d)) (collection w) with
    | Some stored =>
        (Returned d, withCollection (replaceDoc (delta stored) (collection w)) w)
    | None => (Thrown "No document found for query", w)
    end.

(** [setTimeout(() => this.autoProgressWorkflow(id), ms)] *)
Definition scheduleAutoProgress (ms : Z) (id : IdString) : Async unit :=
  fun w =>
    (Returned tt,
     withTrace (Scheduled ms id :: trace w)
       (withTimers (timers w ++ [mkTimer (clock w + ms) id])%list w)).

(** [Promise.all([a, b])]: both are started; the first rejection wins. *)
Definition promiseAll2 {A B} (a : Async A) (b : Async B) : Async (A * B) :=
  fun w =>
    match a w with
    | (ra, w1) =>
        match b w1 with
        | (rb, w2) =>
            match ra, rb with
            | Returned x, Returned y => (Returned (x, y), w2)
            | Thrown e, _ => (Thrown e, w2)
            | _, Thrown e => (Thrown e, w2)
            end
        end
    end.

(** ** [workflow.service.ts] *)

Record WorkflowTransitionRequest := mkTransition {
  transcriptionId : IdString;
  newStatus : string;
  requestComment : option string;
  requestReviewedBy : option string
}.

Record WorkflowCreateRequest := mkCreate {
  requestAudioUrl : string;
  requestLanguage : option string
}.

Record WorkflowStatusResponse := mkStatusView {
  id : ObjectId;
  currentStatus : string;
  viewHistory : list HistoryEntry;
  canTransition : list string
}.

Record WorkflowListResponse := mkList {
  workflows : list ITranscription;
  total : nat;
  page : Z;
  limit : Z
}.

Module WorkflowService.

Definition validTransitions : list (string * list string) :=
  [ ("transcription", ["review"; "rejected"]);
    ("review", ["approval"; "rejected"; "transcription"]);
    ("approval", ["completed"; "rejected"]);
    ("completed", []);
    ("rejected", ["transcription"]) ].

Definition formatWorkflowResponse (t : ITranscription) : WorkflowStatusResponse :=
  let currentStatus := JS.orElse (workflowStatus t) "transcription" in
  let canTransition :=
    match JS.prop validTransitions currentStatus with
    | Some next => next
    | None => []
    end in
  mkStatusView (_id t) currentStatus
    (match workflowHistory t with Some h => h | None => [] end)
    canTransition.

Definition mockAudioDownload (url : string) : Async unit :=
  sleep 300 ;;;
  r <- Math_random ;;
  if lessThan r (2 # 100)
  then throw "Audio download failed - network timeout"
  else ret tt.

Definition mockTranscriptions : list (string * list string) :=
  [ ("en-US",
     [ "This workflow demonstrates transcription processing with review and approval stages.";
       "Audio content processed through automated workflow system for quality assurance.";
       "Transcription workflow includes multiple validation steps for accuracy.";
       "Sample audio processed through comprehensive review pipeline." ]);
    ("fr-FR",
     [ "Ce flux de travail démontre le traitement de transcription avec des étapes de révision et d'approbation.";
       "Contenu audio traité via un système de flux de travail automatisé pour l'assurance qualité." ]);
    ("es-ES",
     [ "Este flujo de trabajo demuestra el procesamiento de transcripción con etapas de revisión y aprobación.";
       "Contenido de audio procesado a través de un sistema de flujo de trabajo automatizado para control de calidad." ]) ].

Definition generateMockTranscription (lang : string) : Async string :=
  let transcriptions :=
    match JS.prop mockTranscriptions lang with
    | Some l => l
    | None => match JS.prop mockTranscriptions "en-US" with Some l => l | None => [] end
    end in
  i <- randomIndex (List.length transcriptions) ;;
  ret (nth i transcriptions "").

(** The update of [transitionWorkflow]: the new status, [updatedAt], and
    one entry pushed on the history (an absent history starts empty).  The
    call applies it to its in-memory document, and [save] sends it to the
    store. *)
Definition recordTransition (request : WorkflowTransitionRequest)
    (updated stamp : Z) (t : ITranscription) : ITranscription :=
  let history := match workflowHistory t with Some h => h | None => [] end in
  mkDoc (_id t) (audioUrl t) (transcription t) (source t) (language t)
    (Some (newStatus request))
    (Some (history ++ [mkEntry (newStatus request) stamp
                         (requestComment request)
                         (requestReviewedBy request)])%list)
    (createdAt t) (Some updated).

(** The part of [transitionWorkflow] after [await findById]: validation, the
    in-memory update, [save], the follow-up timer, the response. *)
Definition applyTransition (request : WorkflowTransitionRequest)
    (found : option ITranscription) : Async WorkflowStatusResponse :=
  match found with
  | None => throw "Transcription not found"
  | Some t =>
      if negb (JS.truthy (workflowStatus t))
      then throw "No workflow status found for this transcription"
      else
        let current := JS.orElse (workflowStatus t) "" in
        match JS.prop validTransitions current with
        | None => throw "Cannot read properties of undefined (reading 'includes')"
        | Some validNextStates =>
            if negb (JS.includes validNextStates (newStatus request))
            then throw ("Invalid transition from " ++ current ++ " to "
                        ++ newStatus request ++ ". "
                        ++ "Valid transitions: " ++ JS.join ", " validNextStates)
            else
              updated <- now ;;
              stamp <- now ;;
              let t' := recordTransition request updated stamp t in
              saveExisting t' (recordTransition request updated stamp) ;;;
              (if String.eqb (newStatus request) "review"
               then scheduleAutoProgress 3000 (transcriptionId request)
               else if String.eqb (newStatus request) "approval"
               then scheduleAutoProgress 5000 (transcriptionId request)
               else ret tt) ;;;
              ret (formatWorkflowResponse t')
        end
  end.

Definition transitionWorkflow (request : WorkflowTransitionRequest)
  : Async WorkflowStatusResponse :=
  tryCatch
    (found <- findById (transcriptionId request) ;;
     applyTransition request found)
    (fun error => throw error).

Definition autoProgressWorkflow (transcriptionId : IdString) : Async unit :=
  tryCatch
    (found <- findById transcriptionId ;;
     match found with
     | None => ret tt
     | Some t =>
         if negb (JS.truthy (workflowStatus t)) then ret tt
         else
           let current := JS.orElse (workflowStatus t) "" in
           if String.eqb current "transcription" then
             transitionWorkflow
               (mkTransition transcriptionId "review"
                  (Some "Auto-progressed to review phase") (Some "system")) ;;;
             ret tt
           else if String.eqb current "review" then
             transitionWorkflow
               (mkTransition transcriptionId "approval"
                  (Some "Auto-progressed to approval phase") (Some "system")) ;;;
             ret tt
           else if String.eqb current "approval" then
             transitionWorkflow
               (mkTransition transcriptionId "completed"
                  (Some "Auto-completed workflow") (Some "system")) ;;;
             ret tt
           else ret tt
     end)
    (fun _ => ret tt).

Definition createWorkflow (request : WorkflowCreateRequest)
  : Async WorkflowStatusResponse :=
  tryCatch
    (mockAudioDownload (requestAudioUrl request) ;;;
     transcriptionText <-
       generateMockTranscription (JS.orElse (requestLanguage request) "en-US") ;;
     stamp <- now ;;
     created <- now ;;
     t <- newTranscription (fun oid =>
            mkDoc oid (requestAudioUrl request) transcriptionText "mock"
              (JS.orElse (requestLanguage request) "en-US")
              (Some "transcription")
              (Some [mkEntry "transcription" stamp
                       (Some "Workflow initiated - transcription completed") None])
              created None) ;;
     savedTranscription <- saveNew t ;;
     scheduleAutoProgress 2000 (_id savedTranscription) ;;;
     ret (formatWorkflowResponse savedTranscription))
    (fun error => throw error).

Definition getWorkflowStatus (transcriptionId : IdString)
  : Async WorkflowStatusResponse :=
  tryCatch
    (found <- findById transcriptionId ;;
     match found with
     | None => throw "Transcription not found"
     | Some t => ret (formatWorkflowResponse t)
     end)
    (fun error => throw error).

(** The store's side of [listWorkflows]: the query document, the sort
    specification [{ updatedAt: -1, createdAt: -1 }] and the cursor. *)
Inductive StatusQuery :=
| StatusExists                 (* { workflowStatus: { $exists: true } } *)
| StatusIs (wanted : string).  (* { workflowStatus: wanted } *)

Definition matches (q : StatusQuery) (d : ITranscription) : bool :=
  match q, workflowStatus d with
  | StatusExists, Some _ => true
  | StatusIs wanted, Some s => String.eqb s wanted
  | _, None => false
  end.

(** [a] may stand before [b] in descending order of [updatedAt], then of
    [createdAt]; a missing [updatedAt] compares below every date. *)
Definition sortsBefore (a b : ITranscription) : bool :=
  match updatedAt a, updatedAt b with
  | Some x, Some y =>
      if y <? x then true
      else if x <? y then false
      else createdAt b <=? createdAt a
  | Some _, None => true
  | None, Some _ => false
  | None, None => createdAt b <=? createdAt a
  end.

Fixpoint insertSorted (d : ITranscription) (l : list ITranscription)
  : list ITranscription :=
  match l with
  | [] => [d]
  | x :: rest => if sortsBefore d x then d :: l else x :: insertSorted d rest
  end.

Definition sortDocs (l : list ITranscription) : list ITranscription :=
  fold_right insertSorted [] l.

(** [.skip(n).limit(m)]: a negative skip is refused by the store, a limit of
    zero is no limit, a negative limit counts as its absolute value. *)
Definition window (skip limit : Z) (l : list ITranscription)
  : Async (list ITranscription) :=
  if skip <? 0 then throw "Skip value must be non-negative"
  else
    let rest := skipn (Z.to_nat skip) l in
    ret (if limit =? 0 then rest else firstn (Z.to_nat (Z.abs limit)) rest).

Definition findSorted (q : StatusQuery) (skip limit : Z)
  : Async (list ITranscription) :=
  storeOp ;;;
  docs <- (fun w => (Returned (sortDocs (filter (matches q) (collection w))), w)) ;;
  window skip limit docs.

Definition countDocuments (q : StatusQuery) : Async nat :=
  storeOp ;;;
  fun w => (Returned (List.length (filter (matches q) (collection w))), w).

Definition listWorkflows (status : option string) (page limit : Z)
  : Async WorkflowListResponse :=
  tryCatch
    (let query :=
       if JS.truthy status then StatusIs (JS.orElse status "") else StatusExists in
     let skip := (page - 1) * limit in
     found <- promiseAll2 (findSorted query skip limit) (countDocuments query) ;;
     ret (mkList (fst found) (snd found) page limit))
    (fun error => throw error).

(** The store's side of [getWorkflowStats]: the pipeline
    [[{ $match: { workflowStatus: { $exists: true } } },
      { $group: { _id: '$workflowStatus', count: { $sum: 1 } } }]],
    one group per status that occurs, in the order of first occurrence. *)
Fixpoint countInGroup (key : string) (groups : list (string * nat))
  : list (string * nat) :=
  match groups with
  | [] => [(key, 1%nat)]
  | (k, n) :: rest =>
      if String.eqb k key then (k, S n) :: rest
      else (k, n) :: countInGroup key rest
  end.

Definition groupByStatus (docs : list ITranscription) : list (string * nat) :=
  fold_left
    (fun groups d =>
       match workflowStatus d with
       | Some s => countInGroup s groups
       | None => groups
       end)
    docs [].

Definition aggregateByStatus : Async (list (string * nat)) :=
  storeOp ;;;
  fun w =>
    (Returned (groupByStatus (filter (matches StatusExists) (collection w))), w).

(** [result[key] = value] on an object: an own key keeps its place. *)
Fixpoint setProp (obj : list (string * nat)) (key : string) (value : nat)
  : list (string * nat) :=
  match obj with
  | [] => [(key, value)]
  | (k, v) :: rest =>
      if String.eqb k key then (k, value) :: rest
      else (k, v) :: setProp rest key value
  end.

Definition getWorkflowStats : Async (list (string * nat)) :=
  tryCatch
    (stats <- aggregateByStatus ;;
     let result :=
       [ ("transcription", 0%nat); ("review", 0%nat); ("approval", 0%nat);
         ("completed", 0%nat); ("rejected", 0%nat) ] in
     ret (fold_left (fun result stat => setProp result (fst stat) (snd stat))
            stats result))
    (fun error => throw error).

End WorkflowService.

(** ** [workflow.controller.ts]: [PUT /workflow/:id/transition] *)

Record TransitionBody := mkBody {
  bodyNewStatus : option string;
  bodyComment : option string;
  bodyReviewedBy : option string
}.

Record HttpResponse := mkResponse {
  statusCode : Z;
  success : bool;
  data : option WorkflowStatusResponse;
  error : option string;
  message : option string
}.

(** The body of [POST /workflow] as it arrives. *)
Record CreateBody := mkPost {
  postedAudioUrl : option string;
  postedLanguage : option string
}.

Module WorkflowController.

Definition validStatuses : list string :=
  ["review"; "approval"; "completed"; "rejected"].

(** The route parameter [:id] is never empty when the route matches, so the
    handler's first check cannot fire; the handler starts at the body. *)
Definition transitionWorkflow (id : IdString) (body : TransitionBody)
  : Async HttpResponse :=
  if negb (JS.truthy (bodyNewStatus body))
  then ret (mkResponse 400 false None (Some "newStatus is required") None)
  else
    let newStatus := JS.orElse (bodyNewStatus body) "" in
    if negb (JS.includes validStatuses newStatus)
    then ret (mkResponse 400 false None
                (Some ("Invalid status. Must be one of: " ++ JS.join ", " validStatuses))
                None)
    else
      tryCatch
        (result <- WorkflowService.transitionWorkflow
                     (mkTransition id newStatus (bodyComment body) (bodyReviewedBy body)) ;;
         ret (mkResponse 200 true (Some result) None
                (Some ("Workflow transitioned to " ++ newStatus))))
        (fun error =>
           let code :=
             if JS.contains error "not found" then 404
             else if JS.contains error "Invalid transition" then 400
             else 500 in
           ret (mkResponse code false None
                  (Some "Failed to transition workflow") (Some error))).

(** The status code and JSON body of an answer of the handlers;
    [answerSuccess] holds when the body carries [success: true], and an
    absent key is [None]. *)
Record Answer (A : Type) := mkAnswer {
  answerCode : Z;
  answerSuccess : bool;
  answerData : option A;
  answerError : option string;
  answerMessage : option string
}.
Arguments mkAnswer {A} _ _ _ _ _.
Arguments answerCode {A} _.
Arguments answerSuccess {A} _.
Arguments answerData {A} _.
Arguments answerError {A} _.
Arguments answerMessage {A} _.

Record StatsData := mkStats {
  statistics : list (string * nat);
  statsTotal : nat
}.

(** [Object.values(result).reduce((sum, count) => sum + count, 0)] *)
Definition sumValues (obj : list (string * nat)) : nat :=
  fold_left (fun sum entry => (sum + snd entry)%nat) obj 0%nat.

(** [GET /workflow/stats] *)
Definition getWorkflowStats : Async (Answer StatsData) :=
  tryCatch
    (result <- WorkflowService.getWorkflowStats ;;
     ret (mkAnswer 200 true (Some (mkStats result (sumValues result))) None None))
    (fun error =>
       ret (mkAnswer 500 false None
              (Some "Failed to get workflow statistics") (Some error))).

(** [GET /workflow/:id]; as for the transition handler, [:id] is never
    empty. *)
Definition getWorkflowStatus (id : IdString) : Async (Answer WorkflowStatusResponse) :=
  tryCatch
    (result <- WorkflowService.getWorkflowStatus id ;;
     ret (mkAnswer 200 true (Some result) None None))
    (fun error =>
       let code := if JS.contains error "not found" then 404 else 500 in
       ret (mkAnswer code false None
              (Some "Failed to get workflow status") (Some error))).

(** The two regular expressions of the create handler; their literals are
    those of the schema's validators. *)
Definition urlRegex (s : string) : bool := Schema.urlRegex s.

Definition langRegex (s : string) : bool := Schema.langRegex s.

(** [POST /workflow]; the fields of the body are absent or strings. *)
Definition createWorkflow (body : CreateBody)
  : Async (Answer WorkflowStatusResponse) :=
  tryCatch
    (if negb (JS.truthy (postedAudioUrl body))
     then ret (mkAnswer 400 false None
                 (Some "audioUrl is required and must be a string") None)
     else
       let url := JS.orElse (postedAudioUrl body) "" in
       if negb (urlRegex url)
       then ret (mkAnswer 400 false None (Some "Invalid audioUrl format") None)
       else
         if JS.truthy (postedLanguage body)
            && negb (langRegex (JS.orElse (postedLanguage body) ""))
         then ret (mkAnswer 400 false None
                     (Some "language must be in format xx-XX (e.g., en-US, fr-FR)")
                     None)
         else
           result <- WorkflowService.createWorkflow (mkCreate url (postedLanguage body)) ;;
           ret (mkAnswer 201 true (Some result) None
                  (Some "Workflow created successfully")))
    (fun error =>
       ret (mkAnswer 500 false None (Some "Failed to create workflow") (Some error))).

Definition listStatuses : list string :=
  ["transcription"; "review"; "approval"; "completed"; "rejected"].

(** [GET /workflows]; [pageNum] and [limitNum] are what [parseInt] made of
    the query parameters: an integer, or [NaN], here [None]. *)
Definition listWorkflows (status : option string) (pageNum limitNum : option Z)
  : Async (Answer WorkflowListResponse) :=
  tryCatch
    (match pageNum with
     | None => ret (mkAnswer 400 false None (Some "page must be a positive integer") None)
     | Some page =>
         if page <? 1
         then ret (mkAnswer 400 false None
                     (Some "page must be a positive integer") None)
         else
           let badLimit :=
             ret (mkAnswer 400 false None
                    (Some "limit must be a positive integer between 1 and 100") None) in
           match limitNum with
           | None => badLimit
           | Some limit =>
               if (limit <? 1) || (100 <? limit) then badLimit
               else
                 if JS.truthy status
                    && negb (JS.includes listStatuses (JS.orElse status ""))
                 then ret (mkAnswer 400 false None
                             (Some ("Invalid status filter. Must be one of: "
                                    ++ JS.join ", " listStatuses)) None)
                 else
                   result <- WorkflowService.listWorkflows status page limit ;;
                   ret (mkAnswer 200 true (Some result) None None)
           end
     end)
    (fun error =>
       ret (mkAnswer 500 false None (Some "Failed to list workflows") (Some error))).

End WorkflowController.

(** ** [azure.service.ts] *)

Record TranscriptionRequest := mkRequest {
  bodyAudioUrl : string;
  bodyLanguage : option string
}.

Record TranscriptionResponse := mkSaved {
  savedId : ObjectId;
  savedMessage : string
}.

Record RetryConfig := mkRetry {
  maxAttempts : Z;
  baseDelay : Z;
  maxDelay : Z
}.

Module AzureService.

Definition retryConfig : RetryConfig := mkRetry 3 1000 8000.

Definition transcriptions : list (string * list string) :=
  [
    ("en-US",
     [
       "This audio has been transcribed using Azure Speech Services.";
       "Azure Cognitive Services successfully processed this audio content.";
       "Voice recognition completed using Microsoft Azure Speech-to-Text API.";
       "Azure Speech Service has converted this audio to text with high accuracy.";
       "Microsoft Azure provided this transcription with confidence score: 0.95" ]);
    ("fr-FR",
     [
       "Cet audio a été transcrit en utilisant les services de reconnaissance vocale Azure.";
       "Azure Cognitive Services a traité avec succès ce contenu audio.";
       "La reconnaissance vocale a été complétée en utilisant l'API Speech-to-Text de Microsoft Azure.";
       "Le service Azure Speech a converti cet audio en texte avec une grande précision.";
       "Microsoft Azure a fourni cette transcription avec un score de confiance de 0.95" ]);
    ("es-ES",
     [
       "Este audio ha sido transcrito usando los servicios de voz de Azure.";
       "Azure Cognitive Services procesó exitosamente este contenido de audio.";
       "El reconocimiento de voz se completó usando la API Speech-to-Text de Microsoft Azure.";
       "El servicio Azure Speech ha convertido este audio a texto con alta precisión.";
       "Microsoft Azure proporcionó esta transcripción con un puntaje de confianza de 0.95" ]);
    ("de-DE",
     [
       "Diese Audio wurde mit Azure Speech Services transkribiert.";
       "Azure Cognitive Services hat diesen Audioinhalt erfolgreich verarbeitet.";
       "Die Spracherkennung wurde mit der Microsoft Azure Speech-to-Text API abgeschlossen.";
       "Der Azure Speech Service hat dieses Audio mit hoher Genauigkeit in Text umgewandelt.";
       "Microsoft Azure stellte diese Transkription mit einem Konfidenzwert von 0.95 bereit" ]);
    ("it-IT",
     [
       "Questo audio è stato trascritto utilizzando i servizi di riconoscimento vocale di Azure.";
       "Azure Cognitive Services ha elaborato con successo questo contenuto audio.";
       "Il riconoscimento vocale è stato completato utilizzando l'API Speech-to-Text di Microsoft Azure.";
       "Il servizio Azure Speech ha convertito questo audio in testo con alta precisione.";
       "Microsoft Azure ha fornito questa trascrizione con un punteggio di confidenza di 0.95" ]);
    ("pt-BR",
     [
       "Este áudio foi transcrito usando os serviços de fala do Azure.";
       "Os Serviços Cognitivos do Azure processaram com sucesso este conteúdo de áudio.";
       "O reconhecimento de voz foi concluído usando a API Speech-to-Text do Microsoft Azure.";
       "O serviço Azure Speech converteu este áudio em texto com alta precisão.";
       "A Microsoft Azure forneceu esta transcrição com uma pontuação de confiança de 0.95" ]);
    ("ja-JP",
     [
       "このオーディオはAzure音声サービスを使用して転写されました。";
       "Azure Cognitive Servicesがこのオーディオコンテンツを正常に処理しました。";
       "Microsoft Azure Speech-to-Text APIを使用して音声認識が完了しました。";
       "Azure音声サービスがこのオーディオを高精度でテキストに変換しました。";
       "Microsoft Azureが信頼度スコア0.95でこの転写を提供しました" ]);
    ("ko-KR",
     [
       "이 오디오는 Azure 음성 서비스를 사용하여 전사되었습니다.";
       "Azure Cognitive Services가 이 오디오 콘텐츠를 성공적으로 처리했습니다.";
       "Microsoft Azure Speech-to-Text API를 사용하여 음성 인식이 완료되었습니다.";
       "Azure Speech Service가 이 오디오를 높은 정확도로 텍스트로 변환했습니다.";
       "Microsoft Azure가 0.95의 신뢰도 점수로 이 전사를 제공했습니다" ]);
    ("zh-CN",
     [
       "此音频已使用Azure语音服务进行转录。";
       "Azure认知服务已成功处理此音频内容。";
       "使用Microsoft Azure语音转文本API完成了语音识别。";
       "Azure语音服务已高精度地将此音频转换为文本。";
       "Microsoft Azure提供了此转录，置信度得分为0.95" ]) ].

Definition getLanguageSpecificTranscriptions (lang : string) : list string :=
  match JS.prop transcriptions lang with
  | Some l => l
  | None => match JS.prop transcriptions "en-US" with Some l => l | None => [] end
  end.

Definition callAzureSpeechService (url lang : string) (attempt : Z) : Async string :=
  emit AzureCall ;;;
  sleep 800 ;;;
  r <- Math_random ;;
  if lessThan r (3 # 10)
  then throw ("Azure Speech API error: Service temporarily unavailable (attempt "
              ++ decimal attempt ++ ")")
  else
    let languageTranscriptions := getLanguageSpecificTranscriptions lang in
    i <- randomIndex (List.length languageTranscriptions) ;;
    ret (nth i languageTranscriptions "").

(** [baseDelay * Math.pow(2, attempt - 1)], capped; [attempt] is the loop
    counter of [withRetry], an integer from 1 on. *)
Definition calculateDelay (attempt : Z) : Z :=
  let delay := baseDelay retryConfig * 2 ^ (attempt - 1) in
  Z.min delay (maxDelay retryConfig).

(** The [for] loop of [withRetry]; [iterations] bounds the number of turns
    the loop can still take. *)
Fixpoint retryLoop {A} (operation : Async A) (iterations : nat) (attempt : Z)
    (lastError : option string) : Async A :=
  match iterations with
  | O => throw (match lastError with Some e => e | None => "undefined" end)
  | S rest =>
      if attempt <=? maxAttempts retryConfig then
        tryCatch operation
          (fun error =>
             if attempt =? maxAttempts retryConfig
             then throw error
             else
               sleep (calculateDelay attempt) ;;;
               retryLoop operation rest (attempt + 1) (Some error))
      else throw (match lastError with Some e => e | None => "undefined" end)
  end.

Definition withRetry {A} (operation : Async A) : Async A :=
  retryLoop operation (S (Z.to_nat (maxAttempts retryConfig))) 1 None.

Definition validateAzureConfig : Async unit :=
  fun w =>
    if String.eqb (AZURE_REGION (config w)) ""
    then (Thrown "AZURE_REGION is required for Azure Speech Service", w)
    else (Returned tt, w).

Definition downloadAudioForAzure (url : string) : Async unit :=
  sleep 600 ;;;
  r <- Math_random ;;
  if lessThan r (1 # 10)
  then throw "Failed to download audio for Azure processing"
  else ret tt.

Definition fallbackToMockTranscription (request : TranscriptionRequest)
  : Async TranscriptionResponse :=
  tryCatch
    (let lang := JS.orElse (bodyLanguage request) "en-US" in
     let mockTranscription :=
       "This is a fallback transcription generated when Azure Speech Service is unavailable." in
     created <- now ;;
     t <- newTranscription (fun oid =>
            mkDoc oid (bodyAudioUrl request) mockTranscription "mock" lang
              None None created None) ;;
     savedTranscription <- saveNew t ;;
     ret (mkSaved (_id savedTranscription) "Transcription saved (fallback mode)"))
    (fun _ => throw "Both Azure and fallback transcription failed").

Definition createAzureTranscription (request : TranscriptionRequest)
  : Async TranscriptionResponse :=
  tryCatch
    (validateAzureConfig ;;;
     downloadAudioForAzure (bodyAudioUrl request) ;;;
     let lang := JS.orElse (bodyLanguage request) "en-US" in
     transcriptionText <-
       withRetry (callAzureSpeechService (bodyAudioUrl request) lang 1) ;;
     created <- now ;;
     t <- newTranscription (fun oid =>
            mkDoc oid (bodyAudioUrl request) transcriptionText "azure" lang
              None None created None) ;;
     savedTranscription <- saveNew t ;;
     ret (mkSaved (_id savedTranscription) "Transcription saved"))
    (fun _ => fallbackToMockTranscription request).

End AzureService.

(** ** [transcription.service.ts] *)

Record GetTranscriptionsResponse := mkRecent {
  transcriptions : list ITranscription;
  recentTotal : nat;
  recentPage : Z;
  recentLimit : Z
}.

Module TranscriptionService.

Definition mockAudioDownload (url : string) : Async unit :=
  sleep 500 ;;;
  r <- Math_random ;;
  if lessThan r (5 # 100)
  then throw "Audio download failed - network timeout"
  else ret tt.

Definition mockTranscriptions : list (string * list string) :=
  [
    ("en-US",
     [
       "This is a sample transcription text.";
       "Hello, this is a test audio file being transcribed.";
       "The quick brown fox jumps over the lazy dog. This is a sample transcription.";
       "Welcome to the voice transcription service. Your audio has been processed successfully.";
       "This audio contains sample content for testing the transcription functionality." ]);
    ("fr-FR",
     [
       "Ceci est un exemple de texte de transcription.";
       "Bonjour, ceci est un fichier audio de test en cours de transcription.";
       "Le renard brun rapide saute par-dessus le chien paresseux. Ceci est un exemple de transcription.";
       "Bienvenue dans le service de transcription vocale. Votre audio a été traité avec succès.";
       "Cet audio contient un contenu d'exemple pour tester la fonctionnalité de transcription." ]);
    ("es-ES",
     [
       "Este es un texto de transcripción de muestra.";
       "Hola, este es un archivo de audio de prueba que se está transcribiendo.";
       "El zorro marrón rápido salta sobre el perro perezoso. Esta es una transcripción de muestra.";
       "Bienvenido al servicio de transcripción de voz. Su audio ha sido procesado exitosamente.";
       "Este audio contiene contenido de muestra para probar la funcionalidad de transcripción." ]);
    ("de-DE",
     [
       "Dies ist ein Beispiel-Transkriptionstext.";
       "Hallo, dies ist eine Test-Audiodatei, die transkribiert wird.";
       "Der schnelle braune Fuchs springt über den faulen Hund. Dies ist eine Beispieltranskription.";
       "Willkommen beim Sprachtranskriptionsdienst. Ihr Audio wurde erfolgreich verarbeitet.";
       "Dieses Audio enthält Beispielinhalte zum Testen der Transkriptionsfunktionalität." ]);
    ("it-IT",
     [
       "Questo è un testo di trascrizione di esempio.";
       "Ciao, questo è un file audio di test che viene trascritto.";
       "La volpe marrone veloce salta sopra il cane pigro. Questa è una trascrizione di esempio.";
       "Benvenuto nel servizio di trascrizione vocale. Il tuo audio è stato elaborato con successo.";
       "Questo audio contiene contenuti di esempio per testare la funzionalità di trascrizione." ]);
    ("pt-BR",
     [
       "Este é um texto de transcrição de exemplo.";
       "Olá, este é um arquivo de áudio de teste sendo transcrito.";
       "A raposa marrom rápida pula sobre o cão preguiçoso. Esta é uma transcrição de exemplo.";
       "Bem-vindo ao serviço de transcrição de voz. Seu áudio foi processado com sucesso.";
       "Este áudio contém conteúdo de exemplo para testar a funcionalidade de transcrição." ]);
    ("ja-JP",
     [
       "これはサンプルの転写テキストです。";
       "こんにちは、これは転写されているテストオーディオファイルです。";
       "素早い茶色のキツネが怠惰な犬の上を跳び越えます。これはサンプルの転写です。";
       "音声転写サービスへようこそ。あなたのオーディオは正常に処理されました。";
       "このオーディオには転写機能をテストするためのサンプルコンテンツが含まれています。" ]);
    ("ko-KR",
     [
       "이것은 샘플 전사 텍스트입니다.";
       "안녕하세요, 이것은 전사되고 있는 테스트 오디오 파일입니다.";
       "빠른 갈색 여우가 게으른 개를 뛰어넘습니다. 이것은 샘플 전사입니다.";
       "음성 전사 서비스에 오신 것을 환영합니다. 귀하의 오디오가 성공적으로 처리되었습니다.";
       "이 오디오에는 전사 기능을 테스트하기 위한 샘플 콘텐츠가 포함되어 있습니다." ]);
    ("zh-CN",
     [
       "这是一个示例转录文本。";
       "你好，这是一个正在被转录的测试音频文件。";
       "敏捷的棕色狐狸跳过懒惰的狗。这是一个示例转录。";
       "欢迎来到语音转录服务。您的音频已成功处理。";
       "此音频包含用于测试转录功能的示例内容。" ]) ].

Definition generateMockTranscription (lang : string) : Async string :=
  let transcriptions :=
    match JS.prop mockTranscriptions lang with
    | Some l => l
    | None => match JS.prop mockTranscriptions "en-US" with Some l => l | None => [] end
    end in
  i <- randomIndex (List.length transcriptions) ;;
  ret (nth i transcriptions "").

Definition createTranscription (request : TranscriptionRequest)
  : Async TranscriptionResponse :=
  tryCatch
    (mockAudioDownload (bodyAudioUrl request) ;;;
     let lang := JS.orElse (bodyLanguage request) "en-US" in
     transcriptionText <- generateMockTranscription lang ;;
     created <- now ;;
     t <- newTranscription (fun oid =>
            mkDoc oid (bodyAudioUrl request) transcriptionText "mock" lang
              None None created None) ;;
     savedTranscription <- saveNew t ;;
     ret (mkSaved (_id savedTranscription) "Transcription saved"))
    (fun error => throw error).

(** The store's side of [getRecentTranscriptions]: the query
    [{ createdAt: { $gte: since } }], and [.sort({ createdAt: -1 })] as an
    insertion sort. *)
Definition createdSince (since : Z) (d : ITranscription) : bool :=
  since <=? createdAt d.

Fixpoint insertByCreated (d : ITranscription) (l : list ITranscription)
  : list ITranscription :=
  match l with
  | [] => [d]
  | x :: rest =>
      if createdAt x <=? createdAt d then d :: l else x :: insertByCreated d rest
  end.

Definition sortByCreated (l : list ITranscription) : list ITranscription :=
  fold_right insertByCreated [] l.

Definition findRecent (since skip limit : Z) : Async (list ITranscription) :=
  storeOp ;;;
  docs <- (fun w =>
             (Returned (sortByCreated (filter (createdSince since) (collection w))), w)) ;;
  WorkflowService.window skip limit docs.

Definition countRecent (since : Z) : Async nat :=
  storeOp ;;;
  fun w => (Returned (List.length (filter (createdSince since) (collection w))), w).

Definition getRecentTranscriptions (page limit : Z) : Async GetTranscriptionsResponse :=
  tryCatch
    (today <- now ;;
     let thirtyDaysAgo := today - 30 * 24 * 60 * 60 * 1000 in
     let skip := (page - 1) * limit in
     found <- promiseAll2 (findRecent thirtyDaysAgo skip limit)
                (countRecent thirtyDaysAgo) ;;
     ret (mkRecent (fst found) (snd found) page limit))
    (fun error => throw error).

Definition getTranscriptionById (id : IdString) : Async (option ITranscription) :=
  tryCatch
    (findById id)
    (fun error => throw error).

End TranscriptionService.

(** ** The process: requests, the passing of time, timers firing

    Each action is one call run to completion before the next one starts;
    [TimerFires k] is the event loop running the callback of the [k]-th
    pending timer once it is due.  Calls that overlap, one doing its read
    while another waits for its own, are the subject of the next section. *)

Inductive Action :=
| CreateWorkflow (request : WorkflowCreateRequest)
| TransitionWorkflow (request : WorkflowTransitionRequest)
| PutTransition (id : IdString) (body : TransitionBody)
| GetWorkflowStatus (id : IdString)
| ListWorkflows (status : option string) (page limit : Z)
| CreateTranscription (request : TranscriptionRequest)
| CreateAzureTranscription (request : TranscriptionRequest)
| TimePasses (ms : Z)
| TimerFires (k : nat).

Fixpoint removeNth {A} (k : nat) (l : list A) : list A :=
  match k, l with
  | _, [] => []
  | O, _ :: rest => rest
  | S k', x :: rest => x :: removeNth k' rest
  end.

Definition fireTimer (k : nat) : Async unit :=
  fun w =>
    match nth_error (timers w) k with
    | Some t =>
        if due t <=? clock w
        then WorkflowService.autoProgressWorkflow (target t)
               (withTimers (removeNth k (timers w)) w)
        else (Returned tt, w)
    | None => (Returned tt, w)
    end.

Definition perform (a : Action) (w : World) : World :=
  match a with
  | CreateWorkflow request => snd (WorkflowService.createWorkflow request w)
  | TransitionWorkflow request => snd (WorkflowService.transitionWorkflow request w)
  | PutTransition id body => snd (WorkflowController.transitionWorkflow id body w)
  | GetWorkflowStatus id => snd (WorkflowService.getWorkflowStatus id w)
  | ListWorkflows status page limit =>
      snd (WorkflowService.listWorkflows status page limit w)
  | CreateTranscription request => snd (TranscriptionService.createTranscription request w)
  | CreateAzureTranscription request =>
      snd (AzureService.createAzureTranscription request w)
  | TimePasses ms => if 0 <=? ms then withClock (clock w + ms) w else w
  | TimerFires k => snd (fireTimer k w)
  end.

Definition run (actions : list Action) (w : World) : World :=
  fold_left (fun w a => perform a w) actions w.

(** A freshly started process on an empty collection. *)
Definition boot (faults : nat -> option string) (bits : nat -> N) : World :=
  mkWorld [] 0%nat 0 [] [] 0%nat faults 0%nat bits
          (mkConfig "mock-azure-key" "eastus").

(** The next [n] store operations succeed. *)
Definition responsive (n : nat) (w : World) : Prop :=
  forall k, (k < n)%nat -> storeFault w (storeOps w + k) = None.

(** An environment for examples: the store never fails, [Math.random]
    always returns one half. *)
Notation calm := (boot (fun _ => None) (fun _ => (2 ^ 52)%N)).

(** ** Two calls in flight

    An [async] function yields at each [await]: a second call of
    [transitionWorkflow] can do its [findById] while the first is still
    waiting for its own.  [resumeTransition] is the rest of a call once its
    read has settled; [racingTransitions] is the schedule in which both reads
    settle before either call resumes. *)

Definition resumeTransition (request : WorkflowTransitionRequest)
    (read : Outcome (option ITranscription)) : Async WorkflowStatusResponse :=
  tryCatch
    (match read with
     | Returned found => WorkflowService.applyTransition request found
     | Thrown e => throw e
     end)
    (fun error => throw error).

Definition racingTransitions (a b : WorkflowTransitionRequest) (w : World)
  : (Outcome WorkflowStatusResponse * Outcome WorkflowStatusResponse) * World :=
  let (readA, w1) := findById (transcriptionId a) w in
  let (readB, w2) := findById (transcriptionId b) w1 in
  let (resultA, w3) := resumeTransition a readA w2 in
  let (resultB, w4) := resumeTransition b readB w3 in
  ((resultA, resultB), w4).

(** The same two calls, the second started after the first has settled. *)
Definition successiveTransitions (a b : WorkflowTransitionRequest) (w : World)
  : (Outcome WorkflowStatusResponse * Outcome WorkflowStatusResponse) * World :=
  let (resultA, w1) := WorkflowService.transitionWorkflow a w in
  let (resultB, w2) := WorkflowService.transitionWorkflow b w1 in
  ((resultA, resultB), w2).

(** ** Vocabulary of the properties *)

(** The allowed-next set of a status: its row of the transition table. *)
Definition allowedNext (current : string) : list string :=
  match JS.prop WorkflowService.validTransitions current with
  | Some next => next
  | None => []
  end.

(** The timer a successful transition leaves behind. *)
Definition followUp (request : WorkflowTransitionRequest) (w : World) : World :=
  if String.eqb (newStatus request) "review"
  then snd (scheduleAutoProgress 3000 (transcriptionId request) w)
  else if String.eqb (newStatus request) "approval"
  then snd (scheduleAutoProgress 5000 (transcriptionId request) w)
  else w.

(** The history mirrors the status: it is not empty, and its last entry
    carries the status, which is one of the schema's enum. *)
Definition mirrored (d : ITranscription) : Prop :=
  exists s h e,
    workflowStatus d = Some s /\ In s workflowStatusEnum
    /\ workflowHistory d = Some (h ++ [e])%list /\ status e = s.

(** A document as the services store it: its history mirrors its status, or
    it is at transcription with an empty history, which is how the schema
    completes a document constructed without workflow fields. *)
Definition wellFormed (d : ITranscription) : Prop :=
  mirrored d
  \/ (workflowStatus d = Some "transcription" /\ workflowHistory d = Some []).

Definition sampleCreate : WorkflowCreateRequest :=
  mkCreate "https://example.com/a.mp3" None.

(** One workflow, just created. *)
Notation intake := (run [CreateWorkflow sampleCreate] calm).

(** The history a document carries; none counts as empty. *)
Definition historyOf (t : ITranscription) : list HistoryEntry :=
  match workflowHistory t with Some h => h | None => [] end.

(** [found] is the document [t] advanced by the system to [next]: the new
    status, and the old history followed by the system's entry. *)
Definition advancedBySystem (t : ITranscription) (stamp : Z) (next note : string)
    (found : option ITranscription) : Prop :=
  exists d,
    found = Some d
    /\ workflowStatus d = Some next
    /\ workflowHistory d =
         Some (historyOf t ++ [mkEntry next stamp (Some note) (Some "system")])%list.

(** The scenario of a manual rejection that comes before the first timer. *)
Notation rejectedEarly :=
  (run [CreateWorkflow sampleCreate;
        TransitionWorkflow (mkTransition 0%nat "rejected" (Some "wrong file") (Some "ana"));
        TimePasses 2000] calm).

(** Two requests on the record of [intake]: a rejection, and a move to
    review, which the table allows from transcription but not from
    rejected. *)
Definition rejectIt : WorkflowTransitionRequest :=
  mkTransition 0%nat "rejected" (Some "wrong file") (Some "ana").

Definition reviewIt : WorkflowTransitionRequest :=
  mkTransition 0%nat "review" None (Some "ben").

(** [a] is at least as recent as [b]: updated later; or updated at the same
    time, or neither ever updated, and created no earlier.  A record that
    was never updated is older than every record that was. *)
Definition newerFirst (a b : ITranscription) : Prop :=
  match updatedAt a, updatedAt b with
  | Some x, Some y => y < x \/ (x = y /\ createdAt b <= createdAt a)
  | Some _, None => True
  | None, Some _ => False
  | None, None => createdAt b <= createdAt a
  end.

(** What a call of [listWorkflows] with this filter is to return: the
    records that carry a workflow status, and with a filter those whose
    status is the filter. *)
Definition listed (filter : option string) (d : ITranscription) : Prop :=
  match filter with
  | Some wanted =>
      if String.eqb wanted "" then workflowStatus d <> None
      else workflowStatus d = Some wanted
  | None => workflowStatus d <> None
  end.

(** The query document [listWorkflows] builds. *)
Definition queryFor (filter : option string) : WorkflowService.StatusQuery :=
  if JS.truthy filter
  then WorkflowService.StatusIs (JS.orElse filter "")
  else WorkflowService.StatusExists.

(** Two workflows, the older one moved to review. *)
Notation twoWorkflows :=
  (run [CreateWorkflow sampleCreate;
        CreateWorkflow (mkCreate "https://example.com/b.mp3" (Some "fr-FR"));
        TransitionWorkflow (mkTransition 0%nat "review" None None)] calm).

(** A record written by the plain transcription path. *)
Definition plainRequest : TranscriptionRequest :=
  mkRequest "https://example.com/plain.mp3" None.

(** The events of [attempts] calls of the speech service under [withRetry],
    in the order they happen, the first call being attempt number [n]: each
    call and its network delay, and between two calls the wait of
    [calculateDelay]. *)
Fixpoint retrySchedule (attempts : nat) (n : Z) : list Event :=
  match attempts with
  | O => []
  | S rest =>
      match rest with
      | O => [AzureCall; Slept 800]
      | S _ =>
          AzureCall :: Slept 800 :: Slept (AzureService.calculateDelay n)
            :: retrySchedule rest (n + 1)
      end
  end.

(** The value the [k]-th call of [Math.random] from now on will return. *)
Definition nextRandom (w : World) (k : nat) : Q :=
  randomAt (entropy w) (k + draws w).

(** The document [fallbackToMockTranscription] constructs. *)
Definition fallbackDoc (request : TranscriptionRequest) (oid : ObjectId)
    (created : Z) : ITranscription :=
  Schema.construct
    (mkDoc oid (bodyAudioUrl request)
       "This is a fallback transcription generated when Azure Speech Service is unavailable."
       "mock" (JS.orElse (bodyLanguage request) "en-US") None None created None).

(** What the schema asks of the two fields a transcription request carries:
    the URL, trimmed, matches the URL expression, and the language, or its
    default, the language expression. *)
Definition acceptable (request : TranscriptionRequest) : bool :=
  Schema.urlRegex (Schema.trim (bodyAudioUrl request))
  && Schema.langRegex (JS.orElse (bodyLanguage request) "en-US").

(** A store that answers, a download that succeeds, and a speech service
    that fails every call. *)
Notation azureDown :=
  (boot (fun _ => None) (fun k => if Nat.eqb k 0 then (2 ^ 52)%N else 0%N)).

(** ** Sample worlds of the further properties *)

(** A workflow left to the timers until it is completed. *)
Notation finished :=
  (run [CreateWorkflow sampleCreate;
        TimePasses 2000; TimerFires 0; TimePasses 3000; TimerFires 0;
        TimePasses 5000; TimerFires 0] calm).

(** Attempts to move a record on, by hand and by the public handler. *)
Definition meddling : list Action :=
  [TransitionWorkflow (mkTransition 0%nat "rejected" None None);
   PutTransition 0%nat (mkBody (Some "review") None None);
   TimePasses 9000;
   TransitionWorkflow (mkTransition 0%nat "transcription" None None)].

(** The number of stored records whose workflow status is [s], and of those
    that have a workflow status at all. *)
Definition withStatus (s : string) (docs : list ITranscription) : nat :=
  List.length (List.filter (WorkflowService.matches (WorkflowService.StatusIs s)) docs).

Definition withWorkflow (docs : list ITranscription) : nat :=
  List.length (List.filter (WorkflowService.matches WorkflowService.StatusExists) docs).

(** The value an object holds under a key, zero when the key is absent. *)
Definition valueAt (obj : list (string * nat)) (key : string) : nat :=
  match JS.prop obj key with Some v => v | None => 0%nat end.

(** Every character of the string is an ASCII character. *)
Fixpoint asciiOnly (s : string) : bool :=
  match s with
  | EmptyString => true
  | String c s' => (nat_of_ascii c <? 128)%nat && asciiOnly s'
  end.

(** The body of the test suite's first request. *)
Notation samplePost :=
  (mkPost (Some "https://example.com/sample.mp3") (Some "en-US")).

(** The shape of a JSON answer of the workflow handlers: the call returned
    an answer with one of the given status codes; [success: true] is sent
    exactly with a code in the 200s, [data] exactly with it, [error] exactly
    without it. *)
Definition answers {A} (codes : list Z)
    (o : Outcome (WorkflowController.Answer A)) : Prop :=
  exists r,
    o = Returned r
    /\ In (WorkflowController.answerCode r) codes
    /\ (WorkflowController.answerSuccess r = true
        <-> 200 <= WorkflowController.answerCode r < 300)
    /\ (WorkflowController.answerData r <> None
        <-> WorkflowController.answerSuccess r = true)
    /\ (WorkflowController.answerError r <> None
        <-> WorkflowController.answerSuccess r = false).


(** The texts [generateMockTranscription] of the plain transcription service
    chooses from for a language: those of the language, or the English ones
    when the language has none. *)
Definition cannedTexts (lang : string) : list string :=
  match JS.prop TranscriptionService.mockTranscriptions lang with
  | Some l => l
  | None =>
      match JS.prop TranscriptionService.mockTranscriptions "en-US" with
      | Some l => l
      | None => []
      end
  end.

(** The order of [getRecentTranscriptions]: the more recently created
    first. *)
Definition createdLater (a b : ITranscription) : Prop := createdAt b <= createdAt a.

(** Thirty days, in milliseconds. *)
Definition thirtyDays : Z := 2592000000.

(** A workflow created, and a plain transcription thirty-one days later. *)
Notation aMonthOn :=
  (run [CreateWorkflow sampleCreate; TimePasses 2678400000;
        CreateTranscription plainRequest] calm).

(** ** [error.handler.ts]: the global error middleware *)

(** An error as the middleware reads it: [name], [message], and the optional
    [status] and [code]. *)
Record ApiError := mkError {
  errorName : string;
  errorMessage : string;
  errorStatus : option Z;
  errorCode : option string
}.

(** The JSON body the middleware sends, with the status it sets; the
    timestamp is the clock's reading. *)
Record ErrorBody := mkErrorBody {
  sentStatus : Z;
  sentError : string;
  sentMessage : string;
  sentTimestamp : Z;
  sentPath : string
}.

Module ErrorHandler.

Definition errorNames : list (Z * string) :=
  [(400, "Bad Request");
   (401, "Unauthorized");
   (403, "Forbidden");
   (404, "Not Found");
   (409, "Conflict");
   (422, "Unprocessable Entity");
   (429, "Too Many Requests");
   (500, "Internal Server Error");
   (502, "Bad Gateway");
   (503, "Service Unavailable");
   (504, "Gateway Timeout")].

Fixpoint lookup (table : list (Z * string)) (key : Z) : option string :=
  match table with
  | [] => None
  | (k, v) :: rest => if k =? key then Some v else lookup rest key
  end.

(** [errorNames[status] || 'Error'] *)
Definition getErrorName (status : Z) : string :=
  JS.orElse (lookup errorNames status) "Error".

(** [ErrorHandler.handle]; [nodeEnv] is [process.env.NODE_ENV], [url] is
    [req.url], [today] the time of the answer. *)
Definition handle (nodeEnv : option string) (error : ApiError) (url : string)
    (today : Z) : ErrorBody :=
  let status0 :=
    match errorStatus error with
    | Some s => if s =? 0 then 500 else s
    | None => 500
    end in
  let message0 :=
    if String.eqb (errorMessage error) "" then "Internal Server Error"
    else errorMessage error in
  let named :=
    if String.eqb (errorName error) "ValidationError"
    then (400, "Validation Error: " ++ errorMessage error)
    else if String.eqb (errorName error) "CastError"
    then (400, "Invalid ID format")
    else if String.eqb (errorName error) "MongoServerError"
            && match errorCode error with
               | Some c => String.eqb c "E11000"
               | None => false
               end
    then (409, "Duplicate entry")
    else if String.eqb (errorName error) "JsonWebTokenError"
    then (401, "Invalid token")
    else if String.eqb (errorName error) "TokenExpiredError"
    then (401, "Token expired")
    else (status0, message0) in
  let status := fst named in
  let message :=
    if match nodeEnv with
       | Some env => String.eqb env "production"
       | None => false
       end && (status =? 500)
    then "Internal Server Error"
    else snd named in
  mkErrorBody status (getErrorName status) message today url.

(** [ErrorHandler.notFound]; [method] is [req.method]. *)
Definition notFound (method url : string) (today : Z) : ErrorBody :=
  mkErrorBody 404 "Not Found" ("Route " ++ method ++ " " ++ url ++ " not found")
    today url.

End ErrorHandler.

(** The kinds of error the middleware knows by name. *)
Definition namedKinds : list string :=
  ["ValidationError"; "CastError"; "JsonWebTokenError"; "TokenExpiredError"].

(** * Properties *)

(** ** The store *)

Lemma find_hasId (i : ObjectId) (c : list ITranscription) (d : ITranscription) :
  find (hasId i) c = Some d -> _id d = i /\ In d c.
Proof.
  intros H. apply find_some in H. destruct H as [Hin Hid].
  cbn [hasId] in Hid. apply Nat.eqb_eq in Hid. auto.
Qed.

Lemma find_notHex (e : string) (c : list ITranscription) :
  find (hasId (NotHex e)) c = None.
Proof. induction c as [|x c IH]; simpl; auto. Qed.

Lemma find_idString (i : IdString) (c : list ITranscription) (d : ITranscription) :
  find (hasId i) c = Some d -> i = Hex (_id d) /\ In d c.
Proof.
  destruct i as [oid|e]; intros H.
  - destruct (find_hasId _ _ _ H) as [Hid Hin]. subst. auto.
  - rewrite find_notHex in H. discriminate.
Qed.

Lemma find_target (i : IdString) (c : list ITranscription) (d : ITranscription) :
  find (hasId i) c = Some d -> Hex (_id d) = i /\ In d c.
Proof.
  intros H. destruct (find_idString _ _ _ H) as [Hid Hin]. split; auto.
Qed.

Lemma find_replaceDoc_same (d : ITranscription) (c : list ITranscription) :
  find (hasId (_id d)) c <> None ->
  find (hasId (_id d)) (replaceDoc d c) = Some d.
Proof.
  induction c as [|x c IH]; simpl; intros H.
  - congruence.
  - destruct (Nat.eqb (_id x) (_id d)) eqn:E.
    + simpl. rewrite Nat.eqb_refl. reflexivity.
    + simpl. rewrite E. apply IH. exact H.
Qed.

Lemma find_replaceDoc_other (i : ObjectId) (d : ITranscription)
    (c : list ITranscription) :
  i <> _id d -> find (hasId i) (replaceDoc d c) = find (hasId i) c.
Proof.
  intros Hne. induction c as [|x c IH]; simpl.
  - reflexivity.
  - destruct (Nat.eqb (_id x) (_id d)) eqn:E.
    + apply Nat.eqb_eq in E. simpl. rewrite E.
      destruct (Nat.eqb_spec (_id d) i) as [Heq|_].
      * congruence.
      * exact IH.
    + simpl. destruct (Nat.eqb (_id x) i); [reflexivity | exact IH].
Qed.

Lemma replaceDoc_others (d : ITranscription) (c : list ITranscription) :
  Forall2 (fun before after => _id before <> _id d -> after = before)
          c (replaceDoc d c).
Proof.
  induction c as [|x c IH]; simpl; constructor; auto.
  destruct (Nat.eqb (_id x) (_id d)) eqn:E; auto.
  apply Nat.eqb_eq in E. intros Hne. congruence.
Qed.

Lemma Forall2_same {A} (R : A -> A -> Prop) (l : list A) :
  (forall x, R x x) -> Forall2 R l l.
Proof. intros HR. induction l; constructor; auto. Qed.

Lemma responsive_head (n : nat) (w : World) :
  responsive (S n) w -> storeFault w (storeOps w) = None.
Proof.
  intros H. specialize (H 0%nat). rewrite Nat.add_0_r in H. apply H. lia.
Qed.

Lemma responsive_next (n : nat) (w w' : World) :
  responsive (S n) w ->
  storeFault w' = storeFault w -> storeOps w' = S (storeOps w) ->
  responsive n w'.
Proof.
  intros H Hf Ho k Hk. rewrite Hf, Ho.
  replace (S (storeOps w) + k)%nat with (storeOps w + S k)%nat by lia.
  apply H. lia.
Qed.

(** ** The schema at work *)

Lemma hydrate_status (t : ITranscription) (s : string) :
  workflowStatus t = Some s -> workflowStatus (Schema.hydrate t) = Some s.
Proof. intros H. cbn. rewrite H. reflexivity. Qed.

Lemma hydrate_truthy (t : ITranscription) :
  JS.truthy (workflowStatus (Schema.hydrate t)) = true ->
  exists s, workflowStatus (Schema.hydrate t) = Some s
            /\ JS.orElse (workflowStatus (Schema.hydrate t)) "" = s /\ s <> "".
Proof.
  destruct (workflowStatus (Schema.hydrate t)) as [s|]; simpl; [|discriminate].
  destruct (String.eqb_spec s ""); simpl; [discriminate|].
  intros _. exists s. auto.
Qed.

Lemma hydrate_history (t : ITranscription) :
  workflowHistory (Schema.hydrate t) =
  Some (match workflowHistory t with Some h => h | None => [] end).
Proof. cbn. destruct (workflowHistory t); reflexivity. Qed.

Lemma recordTransition_hydrate (request : WorkflowTransitionRequest)
    (updated stamp : Z) (t : ITranscription) :
  WorkflowService.recordTransition request updated stamp (Schema.hydrate t) =
  WorkflowService.recordTransition request updated stamp t.
Proof.
  unfold WorkflowService.recordTransition. cbn.
  destruct (workflowHistory t); reflexivity.
Qed.

Lemma formatWorkflowResponse_hydrate (t : ITranscription) :
  WorkflowService.formatWorkflowResponse (Schema.hydrate t) =
  WorkflowService.formatWorkflowResponse t.
Proof.
  unfold WorkflowService.formatWorkflowResponse. rewrite hydrate_history.
  cbn [Schema.hydrate Schema.applyDefaults workflowStatus _id].
  destruct (workflowStatus t); reflexivity.
Qed.

Lemma toLowerCase_space (c : ascii) :
  Schema.isWhiteSpace (Schema.toLowerCase c) = Schema.isWhiteSpace c.
Proof.
  destruct c as [[] [] [] [] [] [] [] []]; vm_compute; reflexivity.
Qed.

Lemma afterPrefix_app (prefix s rest : string) :
  Schema.afterPrefix prefix s = Some rest ->
  exists pre,
    s = (pre ++ rest)%string
    /\ (Schema.noWhiteSpace prefix = true -> Schema.noWhiteSpace pre = true)
    /\ (prefix <> "" -> pre <> "")%string
    /\ forall rest', Schema.afterPrefix prefix (pre ++ rest')%string = Some rest'.
Proof.
  revert s. induction prefix as [|p prefix IH]; intros s H.
  - cbn in H. injection H as <-. exists ""%string. repeat split; auto.
  - destruct s as [|c s]; cbn [Schema.afterPrefix] in H; [discriminate|].
    destruct (Ascii.eqb (Schema.toLowerCase c) p) eqn:E; [|discriminate].
    destruct (IH s H) as [pre [Hs [Hclean [_ Hall]]]].
    exists (String c pre). split; [cbn; rewrite <- Hs; reflexivity|].
    split; [|split; [discriminate|]].
    + cbn [Schema.noWhiteSpace]. intros Hp.
      apply andb_prop in Hp. destruct Hp as [Hp1 Hp2].
      apply Ascii.eqb_eq in E. rewrite <- E, toLowerCase_space in Hp1.
      rewrite Hp1. cbn. apply Hclean. exact Hp2.
    + intros rest'. cbn [append Schema.afterPrefix]. rewrite E. apply Hall.
Qed.

Lemma schemes_exclusive (s : string) :
  (Schema.afterPrefix "http://" s <> None -> Schema.afterPrefix "https://" s = None)
  /\ (Schema.afterPrefix "ftp://" s <> None ->
      Schema.afterPrefix "https://" s = None /\ Schema.afterPrefix "http://" s = None).
Proof.
  destruct s as [|a1 [|a2 [|a3 [|a4 [|a5 s]]]]]; cbn [Schema.afterPrefix];
    repeat match goal with
           | |- context [Ascii.eqb ?a ?b] => destruct (Ascii.eqb_spec a b)
           end;
    repeat split; intros; try reflexivity; try congruence.
Qed.

(** A string that matches the URL expression is a scheme part without white
    space followed by a rest, and the expression accepts the scheme part
    followed by another rest exactly when that rest is as the expression
    wants it. *)
Lemma urlRegex_inv (s : string) :
  Schema.urlRegex s = true ->
  exists pre rest,
    s = (pre ++ rest)%string
    /\ Schema.noWhiteSpace pre = true /\ pre <> ""%string
    /\ Schema.afterScheme rest = true
    /\ forall rest', Schema.urlRegex (pre ++ rest')%string = Schema.afterScheme rest'.
Proof.
  unfold Schema.urlRegex.
  destruct (Schema.afterPrefix "https://" s) as [rest|] eqn:E1.
  { intros Hrest. destruct (afterPrefix_app _ _ _ E1) as [pre [Hs [Hclean [Hne Hall]]]].
    exists pre, rest. split; [exact Hs|]. split; [apply Hclean; reflexivity|].
    split; [apply Hne; discriminate|]. split; [exact Hrest|].
    intros rest'. rewrite Hall. reflexivity. }
  destruct (Schema.afterPrefix "http://" s) as [rest|] eqn:E2.
  { intros Hrest. destruct (afterPrefix_app _ _ _ E2) as [pre [Hs [Hclean [Hne Hall]]]].
    exists pre, rest. split; [exact Hs|]. split; [apply Hclean; reflexivity|].
    split; [apply Hne; discriminate|]. split; [exact Hrest|].
    intros rest'.
    destruct (schemes_exclusive (pre ++ rest')%string) as [Hx _].
    rewrite Hx by (rewrite Hall; discriminate). rewrite Hall. reflexivity. }
  destruct (Schema.afterPrefix "ftp://" s) as [rest|] eqn:E3; [|discriminate].
  intros Hrest. destruct (afterPrefix_app _ _ _ E3) as [pre [Hs [Hclean [Hne Hall]]]].
  exists pre, rest. split; [exact Hs|]. split; [apply Hclean; reflexivity|].
  split; [apply Hne; discriminate|]. split; [exact Hrest|].
  intros rest'.
  destruct (schemes_exclusive (pre ++ rest')%string) as [_ Hx].
  destruct Hx as [Hx1 Hx2]; [rewrite Hall; discriminate|].
  rewrite Hx1, Hx2, Hall. reflexivity.
Qed.

Lemma trimEnd_clean (s : string) :
  Schema.noWhiteSpace s = true -> Schema.trimEnd s = s.
Proof.
  induction s as [|c s IH]; [reflexivity|].
  cbn [Schema.noWhiteSpace Schema.trimEnd]. intros H.
  apply andb_prop in H. destruct H as [Hc Hs]. rewrite (IH Hs).
  apply negb_true_iff in Hc. rewrite Hc. destruct s; reflexivity.
Qed.

Lemma trimEnd_app_clean (pre rest : string) :
  Schema.noWhiteSpace pre = true ->
  Schema.trimEnd (pre ++ rest)%string = (pre ++ Schema.trimEnd rest)%string.
Proof.
  induction pre as [|c pre IH]; [reflexivity|].
  cbn [Schema.noWhiteSpace append Schema.trimEnd]. intros H.
  apply andb_prop in H. destruct H as [Hc Hs]. rewrite (IH Hs).
  apply negb_true_iff in Hc. rewrite Hc.
  destruct (pre ++ Schema.trimEnd rest)%string; reflexivity.
Qed.

Lemma trimStart_clean (c : ascii) (s : string) :
  Schema.isWhiteSpace c = false -> Schema.trimStart (String c s) = String c s.
Proof. intros H. cbn [Schema.trimStart]. rewrite H. reflexivity. Qed.

(** A URL that the expression accepts both as it is and trimmed has nothing
    to trim. *)
Lemma urlRegex_trim (s : string) :
  Schema.urlRegex s = true -> Schema.urlRegex (Schema.trim s) = true ->
  Schema.trim s = s.
Proof.
  intros Hs Htrim.
  destruct (urlRegex_inv s Hs) as [pre [rest [-> [Hclean [Hne [Hrest Hall]]]]]].
  unfold Schema.trim in *.
  assert (Hstart : Schema.trimStart (pre ++ rest)%string = (pre ++ rest)%string).
  { destruct pre as [|c pre]; [congruence|].
    cbn [Schema.noWhiteSpace] in Hclean. apply andb_prop in Hclean.
    destruct Hclean as [Hc _]. apply negb_true_iff in Hc.
    cbn [append]. apply trimStart_clean. exact Hc. }
  rewrite Hstart in *. rewrite trimEnd_app_clean in * by exact Hclean.
  rewrite Hall in Htrim. f_equal.
  destruct rest as [|c1 [|c2 tail]]; try discriminate Hrest.
  cbn [Schema.afterScheme] in Hrest.
  apply andb_prop in Hrest. destruct Hrest as [Hrest Htail].
  apply andb_prop in Hrest. destruct Hrest as [Hrest _].
  apply andb_prop in Hrest. destruct Hrest as [Hc1 _].
  apply negb_true_iff in Hc1.
  cbn [Schema.trimEnd] in *. rewrite (trimEnd_clean tail Htail) in *.
  destruct tail as [|c3 tail]; [|reflexivity].
  destruct (Schema.isWhiteSpace c2); [|reflexivity].
  rewrite Hc1 in Htrim. cbn in Htrim. discriminate Htrim.
Qed.

(** What a document that [save] accepts satisfies. *)
Lemma pathErrors_nil (d : ITranscription) :
  Schema.pathErrors d = [] ->
  Schema.urlRegex (audioUrl d) = true /\ Schema.langRegex (language d) = true
  /\ transcription d <> ""%string.
Proof.
  unfold Schema.pathErrors. intros H.
  apply app_eq_nil in H. destruct H as [Hurl H].
  apply app_eq_nil in H. destruct H as [Htext H].
  apply app_eq_nil in H. destruct H as [_ H].
  apply app_eq_nil in H. destruct H as [Hlang _].
  split; [|split].
  - destruct (String.eqb (audioUrl d) ""); [discriminate|].
    destruct (Schema.urlRegex (audioUrl d)); [reflexivity | discriminate].
  - destruct (Schema.langRegex (language d)); [reflexivity | discriminate].
  - destruct (String.eqb_spec (transcription d) ""); [discriminate | assumption].
Qed.

(** ** The transition table *)

Lemma includes_In (l : list string) (x : string) :
  JS.includes l x = true <-> In x l.
Proof.
  unfold JS.includes. rewrite existsb_exists. split.
  - intros [y [Hin Heq]]. apply String.eqb_eq in Heq. subst. exact Hin.
  - intros Hin. exists x. split; [exact Hin | apply String.eqb_refl].
Qed.

Lemma enum_cases (s : string) :
  In s workflowStatusEnum ->
  s = "transcription" \/ s = "review" \/ s = "approval"
  \/ s = "completed" \/ s = "rejected".
Proof.
  unfold workflowStatusEnum. simpl. intuition.
Qed.

Lemma allowedNext_enum (current next : string) :
  In next (allowedNext current) -> In next workflowStatusEnum.
Proof.
  unfold allowedNext, WorkflowService.validTransitions, workflowStatusEnum.
  cbn [JS.prop].
  repeat match goal with
         | |- context [String.eqb ?a ?b] => destruct (String.eqb a b)
         end; simpl.
  all: intuition.
Qed.

Lemma enum_truthy (s : string) :
  In s workflowStatusEnum -> JS.truthy (Some s) = true /\ JS.orElse (Some s) "" = s.
Proof.
  intros H. apply enum_cases in H.
  destruct H as [H|[H|[H|[H|H]]]]; subst; split; reflexivity.
Qed.

Lemma enum_prop (s : string) :
  In s workflowStatusEnum ->
  JS.prop WorkflowService.validTransitions s = Some (allowedNext s).
Proof.
  intros H. apply enum_cases in H.
  destruct H as [H|[H|[H|[H|H]]]]; subst; reflexivity.
Qed.

(** ** Running [Async] code symbolically *)

Ltac async_unfold :=
  cbv beta zeta iota delta
    [tryCatch bind ret throw now emit sleep storeOp findById saveNew
     saveExisting newTranscription scheduleAutoProgress promiseAll2
     Math_random randomIndex negb].

Ltac world_simpl :=
  cbn [collection nextObjectId clock timers trace storeOps storeFault draws
       entropy config withCollection withNextObjectId withClock withTimers
       withTrace withStoreOps withDraws fst snd
       _id audioUrl transcription source language workflowStatus
       workflowHistory createdAt updatedAt Schema.construct Schema.applyDefaults].

Ltac world_simpl_in H :=
  cbn [collection nextObjectId clock timers trace storeOps storeFault draws
       entropy config withCollection withNextObjectId withClock withTimers
       withTrace withStoreOps withDraws fst snd
       _id audioUrl transcription source language workflowStatus
       workflowHistory createdAt updatedAt Schema.construct Schema.applyDefaults] in H.

(** ** What one call of [transitionWorkflow] does *)

Lemma tryCatch_rethrow {A} (m : Async A) (w : World) :
  tryCatch m (fun error => throw error) w = m w.
Proof.
  unfold tryCatch, throw. destruct (m w) as [[a|e] w']; reflexivity.
Qed.

Lemma findById_found (i : IdString) (w : World) (t : ITranscription) :
  storeFault w (storeOps w) = None ->
  find (hasId i) (collection w) = Some t ->
  findById i w = (Returned (Some (Schema.hydrate t)), withStoreOps (S (storeOps w)) w).
Proof.
  intros Hf Hfind. destruct (find_idString _ _ _ Hfind) as [Hid _].
  rewrite Hid in *. unfold findById. async_unfold. rewrite Hf.
  world_simpl. rewrite Hfind. reflexivity.
Qed.

Lemma findById_hex (i : ObjectId) (w : World) :
  storeFault w (storeOps w) = None ->
  findById i w =
  (Returned (option_map Schema.hydrate (find (hasId i) (collection w))),
   withStoreOps (S (storeOps w)) w).
Proof.
  intros Hf. unfold findById. async_unfold. rewrite Hf. reflexivity.
Qed.

Lemma findById_frame (i : IdString) (w : World) :
  let w' := snd (findById i w) in
  collection w' = collection w /\ timers w' = timers w
  /\ storeFault w' = storeFault w /\ entropy w' = entropy w /\ clock w' = clock w
  /\ config w' = config w /\ nextObjectId w' = nextObjectId w
  /\ draws w' = draws w /\ trace w' = trace w.
Proof.
  destruct i as [oid|e]; unfold findById; async_unfold; world_simpl.
  - destruct (storeFault w (storeOps w)); world_simpl; repeat split; reflexivity.
  - repeat split; reflexivity.
Qed.

Lemma transitionWorkflow_found (request : WorkflowTransitionRequest) (w : World)
    (t : ITranscription) :
  storeFault w (storeOps w) = None ->
  find (hasId (transcriptionId request)) (collection w) = Some t ->
  WorkflowService.transitionWorkflow request w =
  tryCatch
    (WorkflowService.applyTransition request (Some (Schema.hydrate t)))
    (fun error => throw error)
    (withStoreOps (S (storeOps w)) w).
Proof.
  intros Hf Hfind.
  unfold WorkflowService.transitionWorkflow.
  unfold tryCatch at 1. unfold bind at 1.
  rewrite (findById_found _ _ _ Hf Hfind). reflexivity.
Qed.

Lemma transitionWorkflow_refused (request : WorkflowTransitionRequest) (w : World)
    (t : ITranscription) (current : string) :
  storeFault w (storeOps w) = None ->
  find (hasId (transcriptionId request)) (collection w) = Some t ->
  workflowStatus (Schema.hydrate t) = Some current ->
  In current workflowStatusEnum ->
  ~ In (newStatus request) (allowedNext current) ->
  WorkflowService.transitionWorkflow request w =
  (Thrown ("Invalid transition from " ++ current ++ " to " ++ newStatus request
           ++ ". Valid transitions: " ++ JS.join ", " (allowedNext current)),
   withStoreOps (S (storeOps w)) w).
Proof.
  intros Hf Hfind Hst Henum Hnot.
  rewrite (transitionWorkflow_found _ _ _ Hf Hfind).
  unfold WorkflowService.applyTransition. rewrite Hst.
  destruct (enum_truthy current Henum) as [Ht Ho]. rewrite Ht, Ho.
  rewrite (enum_prop current Henum).
  destruct (JS.includes (allowedNext current) (newStatus request)) eqn:E.
  - apply includes_In in E. contradiction.
  - reflexivity.
Qed.

Lemma transitionWorkflow_applied (request : WorkflowTransitionRequest) (w : World)
    (t : ITranscription) (current : string) :
  responsive 2 w ->
  find (hasId (transcriptionId request)) (collection w) = Some t ->
  workflowStatus (Schema.hydrate t) = Some current ->
  In current workflowStatusEnum ->
  In (newStatus request) (allowedNext current) ->
  let t' := WorkflowService.recordTransition request (clock w) (clock w) t in
  WorkflowService.transitionWorkflow request w =
  (Returned (WorkflowService.formatWorkflowResponse t'),
   followUp request
     (withCollection (replaceDoc t' (collection w))
        (withStoreOps (S (S (storeOps w))) w))).
Proof.
  intros Hr Hfind Hst Henum Hin t'.
  pose proof (responsive_head _ _ Hr) as Hf.
  assert (Hf2 : storeFault w (S (storeOps w)) = None).
  { specialize (Hr 1%nat). rewrite Nat.add_1_r in Hr. apply Hr. lia. }
  rewrite (transitionWorkflow_found _ _ _ Hf Hfind).
  unfold WorkflowService.applyTransition. rewrite Hst.
  destruct (enum_truthy current Henum) as [Ht Ho]. rewrite Ht, Ho.
  rewrite (enum_prop current Henum).
  apply includes_In in Hin. rewrite Hin.
  destruct (find_idString _ _ _ Hfind) as [Hid _].
  unfold followUp. async_unfold. world_simpl. rewrite Hf2.
  cbv beta iota zeta. world_simpl.
  rewrite !recordTransition_hydrate. fold t'.
  change (_id t') with (_id t). rewrite <- Hid, Hfind. fold t'.
  destruct (String.eqb (newStatus request) "review");
    [reflexivity|].
  destruct (String.eqb (newStatus request) "approval"); reflexivity.
Qed.

Lemma truthy_some (v : option string) :
  JS.truthy v = true -> exists s, v = Some s /\ JS.orElse v "" = s /\ s <> "".
Proof.
  destruct v as [s|]; simpl; [|discriminate].
  destruct (String.eqb_spec s ""); simpl; [discriminate|].
  intros _. exists s. auto.
Qed.

Ltac break_match :=
  match goal with
  | |- context [match ?x with _ => _ end] =>
      lazymatch x with
      | context [match _ with _ => _ end] => fail
      | _ => destruct x eqn:?
      end
  end.

(** What the rest of a call does once its read has settled, whatever was
    read and whatever the store holds by then: it throws and leaves the
    collection and the timers alone, or the request is allowed from the
    status read, and the store applies the update to the document it holds
    under that id. *)
Lemma applyTransition_effect (request : WorkflowTransitionRequest)
    (found : option ITranscription) (w : World) :
  let r := WorkflowService.applyTransition request found w in
  ((exists e, fst r = Thrown e) /\ collection (snd r) = collection w
   /\ timers (snd r) = timers w)
  \/ (exists t current stored,
        found = Some t
        /\ workflowStatus t = Some current
        /\ In (newStatus request) (allowedNext current)
        /\ find (hasId (_id t)) (collection w) = Some stored
        /\ storeFault w (storeOps w) = None
        /\ fst r = Returned (WorkflowService.formatWorkflowResponse
                              (WorkflowService.recordTransition request (clock w) (clock w) t))
        /\ collection (snd r) =
           replaceDoc (WorkflowService.recordTransition request (clock w) (clock w) stored)
             (collection w)).
Proof.
  unfold WorkflowService.applyTransition.
  destruct found as [t|]; [|left; cbn; eauto].
  destruct (JS.truthy (workflowStatus t)) eqn:Ht; [|left; cbn; eauto].
  destruct (truthy_some _ Ht) as [current [Hst [Ho _]]]. rewrite Ho.
  cbv beta iota delta [negb].
  destruct (JS.prop WorkflowService.validTransitions current) as [next|] eqn:Hp;
    [|left; cbn; eauto].
  destruct (JS.includes next (newStatus request)) eqn:Hi; [|left; cbn; eauto].
  async_unfold. world_simpl.
  destruct (storeFault w (storeOps w)) eqn:Hf2; world_simpl; [left; eauto|].
  change (_id (WorkflowService.recordTransition request (clock w) (clock w) t))
    with (_id t).
  destruct (find (hasId (_id t)) (collection w)) as [stored|] eqn:Hstored;
    world_simpl; [|left; eauto].
  right. exists t, current, stored.
  assert (Hin : In (newStatus request) (allowedNext current)).
  { unfold allowedNext. rewrite Hp. apply includes_In. exact Hi. }
  destruct (String.eqb (newStatus request) "review"); world_simpl;
    [repeat split; auto|].
  destruct (String.eqb (newStatus request) "approval"); world_simpl;
    repeat split; auto.
Qed.

(** Whatever the environment does, a call either leaves the collection and
    the timers alone and throws, or it found the document, validated the
    request against the status it read, and the store applied the update. *)
Lemma transitionWorkflow_effect (request : WorkflowTransitionRequest) (w : World) :
  let r := WorkflowService.transitionWorkflow request w in
  ((exists e, fst r = Thrown e) /\ collection (snd r) = collection w
   /\ timers (snd r) = timers w)
  \/ (exists t current,
        find (hasId (transcriptionId request)) (collection w) = Some t
        /\ workflowStatus (Schema.hydrate t) = Some current
        /\ In (newStatus request) (allowedNext current)
        /\ fst r = Returned (WorkflowService.formatWorkflowResponse
                              (WorkflowService.recordTransition request (clock w) (clock w) t))
        /\ collection (snd r) =
           replaceDoc (WorkflowService.recordTransition request (clock w) (clock w) t)
             (collection w)).
Proof.
  unfold WorkflowService.transitionWorkflow. rewrite tryCatch_rethrow.
  destruct (transcriptionId request) as [oid|e] eqn:Hreq.
  2:{ left. cbn. eauto. }
  unfold bind.
  destruct (storeFault w (storeOps w)) eqn:Hf.
  { left. unfold findById. async_unfold. rewrite Hf. cbn. eauto. }
  rewrite (findById_hex oid w Hf).
  pose proof (applyTransition_effect request
                (option_map Schema.hydrate (find (hasId oid) (collection w)))
                (withStoreOps (S (storeOps w)) w)) as H.
  cbv zeta in H.
  destruct (WorkflowService.applyTransition request
              (option_map Schema.hydrate (find (hasId oid) (collection w)))
              (withStoreOps (S (storeOps w)) w)) as [o w'] eqn:Hrun.
  world_simpl_in H.
  destruct H as [[[e He] [Hc Ht]]|[t [current [stored H]]]].
  - left. subst o. cbn. eauto.
  - right. destruct H as [Hfound [Hst [Hin [Hstored [_ [Ho Hc]]]]]].
    destruct (find (hasId oid) (collection w)) as [t0|] eqn:Hfind; [|discriminate].
    cbn [option_map] in Hfound. injection Hfound as <-.
    change (_id (Schema.hydrate t0)) with (_id t0) in Hstored.
    destruct (find_hasId _ _ _ Hfind) as [Hid _]. rewrite Hid, Hfind in Hstored.
    injection Hstored as <-.
    rewrite recordTransition_hydrate in Ho.
    exists t0, current. subst o. cbn. auto.
Qed.

(** A call changes neither the environment's script, nor the clock, nor the
    configuration, nor the ObjectId generator. *)
Lemma transitionWorkflow_frame (request : WorkflowTransitionRequest) (w : World) :
  let w' := snd (WorkflowService.transitionWorkflow request w) in
  storeFault w' = storeFault w /\ entropy w' = entropy w /\ clock w' = clock w
  /\ config w' = config w /\ nextObjectId w' = nextObjectId w
  /\ draws w' = draws w.
Proof.
  unfold WorkflowService.transitionWorkflow, WorkflowService.applyTransition.
  async_unfold. world_simpl.
  repeat (break_match; world_simpl); repeat split; reflexivity.
Qed.

(** ** The transition operation *)

(** C1. For a stored record whose status is one of the five workflow states,
    and a store that answers, [transitionWorkflow] succeeds exactly when the
    requested status is in the current status's row of the transition table
    (transcription: review, rejected; review: approval, rejected,
    transcription; approval: completed, rejected; completed: none; rejected:
    transcription).  A request outside the row throws the "Invalid
    transition" error, whose message lists the row, and the collection is
    left as it was. *)
Theorem transition_succeeds_iff_allowed (w : World)
    (request : WorkflowTransitionRequest) (t : ITranscription) (current : string) :
  responsive 2 w ->
  find (hasId (transcriptionId request)) (collection w) = Some t ->
  workflowStatus t = Some current ->
  In current workflowStatusEnum ->
  let result := WorkflowService.transitionWorkflow request w in
  (allowedNext "transcription" = ["review"; "rejected"]
   /\ allowedNext "review" = ["approval"; "rejected"; "transcription"]
   /\ allowedNext "approval" = ["completed"; "rejected"]
   /\ allowedNext "completed" = []
   /\ allowedNext "rejected" = ["transcription"])
  /\ (returned (fst result) = true <-> In (newStatus request) (allowedNext current))
  /\ (~ In (newStatus request) (allowedNext current) ->
      fst result =
        Thrown ("Invalid transition from " ++ current ++ " to " ++ newStatus request
                ++ ". Valid transitions: " ++ JS.join ", " (allowedNext current))
      /\ collection (snd result) = collection w).
Proof.
  intros Hr Hfind Hst Henum result.
  split; [repeat split; reflexivity|].
  pose proof (responsive_head _ _ Hr) as Hf.
  destruct (in_dec string_dec (newStatus request) (allowedNext current)) as [Hin|Hnot].
  - pose proof (transitionWorkflow_applied request w t current Hr Hfind
                  (hydrate_status _ _ Hst) Henum Hin) as Happ.
    cbv zeta in Happ. subst result. rewrite Happ. simpl. split.
    + split; auto.
    + intros Hnot. contradiction.
  - pose proof (transitionWorkflow_refused request w t current Hf Hfind
                  (hydrate_status _ _ Hst) Henum Hnot) as Href.
    subst result. rewrite Href. simpl. split.
    + split; [discriminate | contradiction].
    + intros _. split; reflexivity.
Qed.

Lemma transition_succeeds_iff_allowed_witness :
  fst (WorkflowService.transitionWorkflow
         (mkTransition 0%nat "completed" None None) intake) =
  Thrown "Invalid transition from transcription to completed. Valid transitions: review, rejected"
  /\ collection
       (snd (WorkflowService.transitionWorkflow
               (mkTransition 0%nat "completed" None None) intake)) =
     collection intake.
Proof.
  refine (proj2 (proj2 (transition_succeeds_iff_allowed intake
            (mkTransition 0%nat "completed" None None) _ "transcription" _ _ _ _)) _).
  - intros k _. reflexivity.
  - vm_compute. reflexivity.
  - reflexivity.
  - simpl. auto.
  - vm_compute. intuition discriminate.
Defined.

(** ** Creating a workflow *)

Lemma createWorkflow_outcome (w : World) (request : WorkflowCreateRequest) :
  let result := WorkflowService.createWorkflow request w in
  let downloadFails := lessThan (randomAt (entropy w) (draws w)) (2 # 100) in
  match fst result with
  | Thrown _ => collection (snd result) = collection w
  | Returned view =>
      downloadFails = false /\ storeFault w (storeOps w) = None
      /\ exists d,
          collection (snd result) = (collection w ++ [d])%list
          /\ workflowStatus d = Some "transcription"
          /\ workflowHistory d =
               Some [mkEntry "transcription" (clock w + 300)
                       (Some "Workflow initiated - transcription completed") None]
          /\ view = WorkflowService.formatWorkflowResponse d
          /\ currentStatus view = "transcription"
  end
  /\ (downloadFails = true \/ storeFault w (storeOps w) <> None ->
      returned (fst result) = false).
Proof.
  unfold WorkflowService.createWorkflow, WorkflowService.mockAudioDownload,
    WorkflowService.generateMockTranscription.
  async_unfold. world_simpl.
  destruct (lessThan (randomAt (entropy w) (draws w)) (2 # 100)) eqn:Hd; world_simpl.
  { split; [reflexivity | intros _; reflexivity]. }
  destruct (Schema.pathErrors _) eqn:Hvalid; world_simpl.
  2:{ split; [reflexivity | intros _; reflexivity]. }
  destruct (storeFault w (storeOps w)) eqn:Hf; world_simpl.
  { split; [reflexivity | intros _; reflexivity]. }
  destruct (find (hasId (nextObjectId w)) (collection w)) eqn:Hdup; world_simpl.
  { split; [reflexivity | intros _; reflexivity]. }
  split.
  - repeat split; try reflexivity. eexists. repeat split; reflexivity.
  - intros [H|H]; [discriminate | congruence].
Qed.

(** C5. [createWorkflow] is all or nothing.  When it throws, the collection
    is what it was.  When it returns, the mock download did not fail, the
    store accepted the write, and the collection has gained exactly one
    document: its status is transcription and its history is the single
    entry with status transcription and the comment "Workflow initiated -
    transcription completed".  A failed download or a refused write always
    makes it throw. *)
Theorem createWorkflow_atomic (w : World) (request : WorkflowCreateRequest) :
  let result := WorkflowService.createWorkflow request w in
  let downloadFails := lessThan (randomAt (entropy w) (draws w)) (2 # 100) in
  match fst result with
  | Thrown _ => collection (snd result) = collection w
  | Returned view =>
      downloadFails = false /\ storeFault w (storeOps w) = None
      /\ exists d,
          collection (snd result) = (collection w ++ [d])%list
          /\ workflowStatus d = Some "transcription"
          /\ workflowHistory d =
               Some [mkEntry "transcription" (clock w + 300)
                       (Some "Workflow initiated - transcription completed") None]
          /\ view = WorkflowService.formatWorkflowResponse d
          /\ currentStatus view = "transcription"
  end
  /\ (downloadFails = true \/ storeFault w (storeOps w) <> None ->
      returned (fst result) = false).
Proof. exact (createWorkflow_outcome w request). Qed.

Lemma createWorkflow_atomic_witness :
  returned
    (fst (WorkflowService.createWorkflow sampleCreate
            (boot (fun _ => Some "connection lost") (fun _ => 2 ^ 52)%N))) = false.
Proof.
  refine (proj2 (createWorkflow_atomic
                   (boot (fun _ => Some "connection lost") (fun _ => 2 ^ 52)%N)
                   sampleCreate) _).
  right. simpl. discriminate.
Defined.

(** ** What the other operations do to the collection *)

Lemma getWorkflowStatus_collection (i : IdString) (w : World) :
  collection (snd (WorkflowService.getWorkflowStatus i w)) = collection w.
Proof.
  unfold WorkflowService.getWorkflowStatus. async_unfold. world_simpl.
  repeat (break_match; world_simpl); reflexivity.
Qed.

Lemma listWorkflows_collection (st : option string) (p l : Z) (w : World) :
  collection (snd (WorkflowService.listWorkflows st p l w)) = collection w.
Proof.
  unfold WorkflowService.listWorkflows, WorkflowService.findSorted,
    WorkflowService.countDocuments, WorkflowService.window.
  async_unfold. world_simpl.
  repeat (break_match; world_simpl); reflexivity.
Qed.

Lemma createWorkflow_effect (request : WorkflowCreateRequest) (w : World) :
  let w' := snd (WorkflowService.createWorkflow request w) in
  collection w' = collection w
  \/ exists d, collection w' = (collection w ++ [d])%list /\ mirrored d.
Proof.
  pose proof (createWorkflow_outcome w request) as H. cbv zeta in H.
  destruct H as [H _].
  destruct (fst (WorkflowService.createWorkflow request w)).
  - right. destruct H as [_ [_ [d [Hc [Hs [Hh _]]]]]].
    exists d. split; [exact Hc|].
    exists "transcription", [],
      (mkEntry "transcription" (clock w + 300)
         (Some "Workflow initiated - transcription completed") None).
    repeat split; simpl; auto.
  - left. exact H.
Qed.

Lemma createTranscription_effect (request : TranscriptionRequest) (w : World) :
  let w' := snd (TranscriptionService.createTranscription request w) in
  collection w' = collection w
  \/ exists d, collection w' = (collection w ++ [d])%list
               /\ workflowStatus d = Some "transcription"
               /\ workflowHistory d = Some [].
Proof.
  unfold TranscriptionService.createTranscription,
    TranscriptionService.mockAudioDownload,
    TranscriptionService.generateMockTranscription.
  async_unfold. world_simpl.
  repeat (break_match; world_simpl);
    first [left; reflexivity | right; eexists; repeat split; reflexivity].
Qed.

Lemma withRetry_unfold {A} (operation : Async A) :
  AzureService.withRetry operation =
  tryCatch operation (fun _ =>
    sleep 1000 ;;;
    tryCatch operation (fun _ =>
      sleep 2000 ;;;
      tryCatch operation (fun error => throw error))).
Proof. reflexivity. Qed.

Lemma createAzureTranscription_effect (request : TranscriptionRequest) (w : World) :
  let w' := snd (AzureService.createAzureTranscription request w) in
  collection w' = collection w
  \/ exists d, collection w' = (collection w ++ [d])%list
               /\ workflowStatus d = Some "transcription"
               /\ workflowHistory d = Some [].
Proof.
  unfold AzureService.createAzureTranscription,
    AzureService.fallbackToMockTranscription,
    AzureService.validateAzureConfig, AzureService.downloadAudioForAzure.
  rewrite withRetry_unfold. unfold AzureService.callAzureSpeechService.
  async_unfold. world_simpl.
  repeat (break_match; world_simpl);
    first [left; reflexivity | right; eexists; repeat split; reflexivity].
Qed.

(** ** Auto-progression *)

(** Whatever happens, [autoProgressWorkflow] returns; and it touches the
    collection only through one successful system-attributed transition of
    the targeted record. *)
Lemma autoProgressWorkflow_effect (i : IdString) (w : World) :
  let r := WorkflowService.autoProgressWorkflow i w in
  fst r = Returned tt
  /\ (collection (snd r) = collection w
      \/ exists request t current stamp,
           transcriptionId request = i
           /\ requestReviewedBy request = Some "system"
           /\ find (hasId i) (collection w) = Some t
           /\ workflowStatus (Schema.hydrate t) = Some current
           /\ In (newStatus request) (allowedNext current)
           /\ collection (snd r) =
              replaceDoc (WorkflowService.recordTransition request stamp stamp t)
                (collection w)).
Proof.
  unfold WorkflowService.autoProgressWorkflow.
  destruct i as [oid|e]; [|cbn; auto].
  async_unfold. world_simpl.
  destruct (storeFault w (storeOps w)); world_simpl; [auto|].
  destruct (find (hasId oid) (collection w)) as [t|] eqn:Hfound;
    cbn [option_map]; world_simpl; [|auto].
  destruct (JS.truthy (workflowStatus (Schema.hydrate t))); world_simpl; [|auto].
  set (w1 := withStoreOps (S (storeOps w)) w).
  assert (Hcall : forall request,
             transcriptionId request = Hex oid ->
             requestReviewedBy request = Some "system" ->
             let r := WorkflowService.transitionWorkflow request w1 in
             collection (snd r) = collection w
             \/ exists request t current stamp,
                  transcriptionId request = Hex oid
                  /\ requestReviewedBy request = Some "system"
                  /\ find (hasId oid) (collection w) = Some t
                  /\ workflowStatus (Schema.hydrate t) = Some current
                  /\ In (newStatus request) (allowedNext current)
                  /\ collection (snd r) =
                     replaceDoc (WorkflowService.recordTransition request stamp stamp t)
                       (collection w)).
  { intros request Hid Hby r.
    destruct (transitionWorkflow_effect request w1) as [[_ [Hc _]]|[t0 [cur H]]].
    - left. exact Hc.
    - right. destruct H as [Hfind [Hst [Hin [_ Hc]]]].
      subst r. rewrite Hid in Hfind. exists request, t0, cur, (clock w1).
      change (collection w1) with (collection w) in *.
      repeat split; assumption. }
  repeat (break_match; world_simpl); split; auto;
    match goal with
    | H : WorkflowService.transitionWorkflow ?q w1 = _ |- _ =>
        let Hq := fresh in
        pose proof (Hcall q eq_refl eq_refl) as Hq;
        cbv zeta in Hq; rewrite H, Hfound in Hq; exact Hq
    end.
Qed.

Lemma fireTimer_effect (k : nat) (w : World) :
  let r := fireTimer k w in
  fst r = Returned tt
  /\ (collection (snd r) = collection w
      \/ exists request t current stamp,
           requestReviewedBy request = Some "system"
           /\ find (hasId (transcriptionId request)) (collection w) = Some t
           /\ workflowStatus (Schema.hydrate t) = Some current
           /\ In (newStatus request) (allowedNext current)
           /\ collection (snd r) =
              replaceDoc (WorkflowService.recordTransition request stamp stamp t)
                (collection w)).
Proof.
  unfold fireTimer.
  destruct (nth_error (timers w) k) as [timer|]; [|simpl; auto].
  destruct (due timer <=? clock w); [|simpl; auto].
  destruct (autoProgressWorkflow_effect (target timer)
              (withTimers (removeNth k (timers w)) w)) as [Hret Hc].
  split; [exact Hret|].
  destruct Hc as [Hc|[request [t [cur [stamp' H]]]]].
  - left. exact Hc.
  - right. destruct H as [Hid [Hby [Hfind [Hst [Hin Hc]]]]].
    exists request, t, cur, stamp'. rewrite Hid. auto.
Qed.

Lemma putTransition_effect (i : IdString) (body : TransitionBody) (w : World) :
  let w' := snd (WorkflowController.transitionWorkflow i body w) in
  collection w' = collection w
  \/ exists request t current stamp,
       find (hasId (transcriptionId request)) (collection w) = Some t
       /\ workflowStatus (Schema.hydrate t) = Some current
       /\ In (newStatus request) (allowedNext current)
       /\ collection w' =
          replaceDoc (WorkflowService.recordTransition request stamp stamp t)
            (collection w).
Proof.
  unfold WorkflowController.transitionWorkflow.
  destruct (negb (JS.truthy (bodyNewStatus body))); [left; reflexivity|].
  destruct (negb (JS.includes _ _)); [left; reflexivity|].
  async_unfold.
  match goal with
  | |- context [WorkflowService.transitionWorkflow ?q w] =>
      destruct (transitionWorkflow_effect q w) as [[_ [Hc _]]|[t [cur H]]];
      destruct (WorkflowService.transitionWorkflow q w) as [o w2]
  end.
  - left. destruct o; exact Hc.
  - right. destruct H as [Hfind [Hst [Hin [_ Hc]]]].
    eexists _, t, cur, (clock w). repeat split; eauto.
    destruct o; exact Hc.
Qed.

(** ** How one action changes a stored record *)

Lemma find_snoc (i : ObjectId) (c : list ITranscription) (x d : ITranscription) :
  find (hasId i) c = Some d -> find (hasId i) (c ++ [x]) = Some d.
Proof.
  induction c as [|y c IH]; cbn [app find]; [discriminate|].
  destruct (hasId i y); auto.
Qed.

Lemma find_after_transition (i : ObjectId) (d t : ITranscription)
    (c : list ITranscription) (request : WorkflowTransitionRequest) (stamp : Z) :
  find (hasId i) c = Some d ->
  find (hasId (transcriptionId request)) c = Some t ->
  (Hex i <> transcriptionId request
   /\ find (hasId i)
        (replaceDoc (WorkflowService.recordTransition request stamp stamp t) c)
      = Some d)
  \/ (Hex i = transcriptionId request /\ t = d
      /\ find (hasId i)
           (replaceDoc (WorkflowService.recordTransition request stamp stamp t) c)
         = Some (WorkflowService.recordTransition request stamp stamp d)).
Proof.
  intros Hd Ht.
  destruct (find_idString _ _ _ Ht) as [Hid _].
  destruct (Nat.eq_dec i (_id t)) as [Heq|Hne].
  - right. rewrite Hid in *. subst i. assert (Htd : t = d) by congruence.
    split; [reflexivity|]. split; [exact Htd|].
    rewrite <- Htd.
    set (t' := WorkflowService.recordTransition request stamp stamp t).
    change (_id t) with (_id t').
    apply find_replaceDoc_same. change (_id t') with (_id t).
    congruence.
  - left. split; [rewrite Hid; congruence|].
    rewrite find_replaceDoc_other; [exact Hd|].
    change (_id (WorkflowService.recordTransition request stamp stamp t))
      with (_id t).
    exact Hne.
Qed.

(** One action leaves a stored record as it is, or replaces it by the
    record advanced along an edge of the table. *)
Lemma perform_evolution (a : Action) (w : World) (i : ObjectId) (d : ITranscription) :
  find (hasId i) (collection w) = Some d ->
  find (hasId i) (collection (perform a w)) = Some d
  \/ exists request stamp current,
       transcriptionId request = i
       /\ workflowStatus (Schema.hydrate d) = Some current
       /\ In (newStatus request) (allowedNext current)
       /\ find (hasId i) (collection (perform a w))
          = Some (WorkflowService.recordTransition request stamp stamp d).
Proof.
  intros Hd.
  assert (Hstep : forall c' request t current stamp,
             find (hasId (transcriptionId request)) (collection w) = Some t ->
             workflowStatus (Schema.hydrate t) = Some current ->
             In (newStatus request) (allowedNext current) ->
             c' = replaceDoc (WorkflowService.recordTransition request stamp stamp t)
                    (collection w) ->
             find (hasId i) c' = Some d
             \/ exists request stamp current,
                  transcriptionId request = i
                  /\ workflowStatus (Schema.hydrate d) = Some current
                  /\ In (newStatus request) (allowedNext current)
                  /\ find (hasId i) c'
                     = Some (WorkflowService.recordTransition request stamp stamp d)).
  { intros c' request t current stamp Ht Hst Hin ->.
    destruct (find_after_transition i d t (collection w) request stamp Hd Ht)
      as [[_ H]|[Hi [Htd H]]].
    - left. exact H.
    - right. subst t. exists request, stamp, current. auto. }
  destruct a; simpl.
  - destruct (createWorkflow_effect request w) as [Hc|[x [Hc _]]]; rewrite Hc;
      left; [exact Hd | apply find_snoc; exact Hd].
  - destruct (transitionWorkflow_effect request w)
      as [[_ [Hc _]]|[t [cur [Ht [Hst [Hin [_ Hc]]]]]]].
    + left. rewrite Hc. exact Hd.
    + exact (Hstep _ request t cur (clock w) Ht Hst Hin Hc).
  - destruct (putTransition_effect id0 body w)
      as [Hc|[request [t [cur [stamp [Ht [Hst [Hin Hc]]]]]]]].
    + left. rewrite Hc. exact Hd.
    + exact (Hstep _ request t cur stamp Ht Hst Hin Hc).
  - left. rewrite getWorkflowStatus_collection. exact Hd.
  - left. rewrite listWorkflows_collection. exact Hd.
  - destruct (createTranscription_effect request w) as [Hc|[x [Hc _]]]; rewrite Hc;
      left; [exact Hd | apply find_snoc; exact Hd].
  - destruct (createAzureTranscription_effect request w) as [Hc|[x [Hc _]]];
      rewrite Hc; left; [exact Hd | apply find_snoc; exact Hd].
  - left. destruct (0 <=? ms); exact Hd.
  - destruct (fireTimer_effect k w)
      as [_ [Hc|[request [t [cur [stamp [_ [Ht [Hst [Hin Hc]]]]]]]]]].
    + left. rewrite Hc. exact Hd.
    + exact (Hstep _ request t cur stamp Ht Hst Hin Hc).
Qed.

(** ** Well-formed collections *)

Lemma mirrored_recordTransition (request : WorkflowTransitionRequest)
    (at1 at2 : Z) (t : ITranscription) (current : string) :
  In (newStatus request) (allowedNext current) ->
  mirrored (WorkflowService.recordTransition request at1 at2 t).
Proof.
  intros Hin. unfold mirrored, WorkflowService.recordTransition. simpl.
  eexists _, _, _. split; [reflexivity|].
  split; [exact (allowedNext_enum _ _ Hin)|]. split; reflexivity.
Qed.

Lemma wellFormed_recordTransition (request : WorkflowTransitionRequest)
    (at1 at2 : Z) (t : ITranscription) (current : string) :
  In (newStatus request) (allowedNext current) ->
  wellFormed (WorkflowService.recordTransition request at1 at2 t).
Proof.
  intros Hin. left. apply mirrored_recordTransition with (current := current).
  exact Hin.
Qed.

Lemma Forall_replaceDoc (P : ITranscription -> Prop) (d : ITranscription)
    (c : list ITranscription) :
  P d -> Forall P c -> Forall P (replaceDoc d c).
Proof.
  intros Hd Hc. unfold replaceDoc. apply Forall_map.
  apply Forall_impl with (P := P); [|exact Hc].
  intros x Hx. destruct (hasId (_id d) x); assumption.
Qed.

Lemma Forall_snoc (P : ITranscription -> Prop) (d : ITranscription)
    (c : list ITranscription) :
  P d -> Forall P c -> Forall P (c ++ [d]).
Proof.
  intros Hd Hc. apply Forall_app. split; [exact Hc | constructor; auto].
Qed.

Lemma perform_wellFormed (a : Action) (w : World) :
  Forall wellFormed (collection w) ->
  Forall wellFormed (collection (perform a w)).
Proof.
  intros Hw. destruct a; simpl.
  - destruct (createWorkflow_effect request w) as [Hc|[d [Hc Hd]]];
      rewrite Hc; [exact Hw | apply Forall_snoc; [left|]; assumption].
  - destruct (transitionWorkflow_effect request w)
      as [[_ [Hc _]]|[t [cur [_ [_ [Hin [_ Hc]]]]]]]; rewrite Hc; [exact Hw|].
    apply Forall_replaceDoc; [|exact Hw].
    apply wellFormed_recordTransition with (current := cur). exact Hin.
  - destruct (putTransition_effect id0 body w)
      as [Hc|[request [t [cur [stamp' [_ [_ [Hin Hc]]]]]]]]; rewrite Hc; [exact Hw|].
    apply Forall_replaceDoc; [|exact Hw].
    apply wellFormed_recordTransition with (current := cur). exact Hin.
  - rewrite getWorkflowStatus_collection. exact Hw.
  - rewrite listWorkflows_collection. exact Hw.
  - destruct (createTranscription_effect request w) as [Hc|[d [Hc [Hs Hh]]]];
      rewrite Hc; [exact Hw|].
    apply Forall_snoc; [|exact Hw]. right. auto.
  - destruct (createAzureTranscription_effect request w) as [Hc|[d [Hc [Hs Hh]]]];
      rewrite Hc; [exact Hw|].
    apply Forall_snoc; [|exact Hw]. right. auto.
  - destruct (0 <=? ms); exact Hw.
  - destruct (fireTimer_effect k w)
      as [_ [Hc|[request [t [cur [stamp' [_ [_ [_ [Hin Hc]]]]]]]]]];
      rewrite Hc; [exact Hw|].
    apply Forall_replaceDoc; [|exact Hw].
    apply wellFormed_recordTransition with (current := cur). exact Hin.
Qed.

Lemma run_wellFormed (actions : list Action) (w : World) :
  Forall wellFormed (collection w) ->
  Forall wellFormed (collection (run actions w)).
Proof.
  revert w. induction actions as [|a actions IH]; intros w Hw; simpl.
  - exact Hw.
  - apply IH. apply perform_wellFormed. exact Hw.
Qed.

Lemma reachable_wellFormed (faults : nat -> option string) (bits : nat -> N)
    (actions : list Action) (i : ObjectId) (d : ITranscription) :
  find (hasId i) (collection (run actions (boot faults bits))) = Some d ->
  wellFormed d.
Proof.
  intros Hfind. apply find_hasId in Hfind. destruct Hfind as [_ Hin].
  assert (H : Forall wellFormed (collection (run actions (boot faults bits)))).
  { apply run_wellFormed. constructor. }
  rewrite Forall_forall in H. apply H. exact Hin.
Qed.




(** The rest of a call, resumed with whatever it had read, keeps every
    property of documents that the update of an allowed transition
    preserves. *)
Lemma resumeTransition_keeps (P : ITranscription -> Prop)
    (request : WorkflowTransitionRequest) (read : Outcome (option ITranscription))
    (w : World) :
  (forall q at1 at2 t current,
      P t ->
      In (newStatus q) (allowedNext current) ->
      P (WorkflowService.recordTransition q at1 at2 t)) ->
  Forall P (collection w) ->
  Forall P (collection (snd (resumeTransition request read w))).
Proof.
  intros HP Hw. unfold resumeTransition. rewrite tryCatch_rethrow.
  destruct read as [found|e]; [|exact Hw].
  destruct (applyTransition_effect request found w)
    as [[_ [Hc _]]|[t [cur [stored [_ [_ [Hin [Hstored [_ [_ Hc]]]]]]]]]]; rewrite Hc;
    [exact Hw|].
  apply Forall_replaceDoc; [|exact Hw].
  apply HP with (current := cur); [|exact Hin].
  rewrite Forall_forall in Hw. apply Hw. apply (find_target _ _ _ Hstored).
Qed.

Lemma racingTransitions_keeps (P : ITranscription -> Prop)
    (a b : WorkflowTransitionRequest) (w : World) :
  (forall q at1 at2 t current,
      P t ->
      In (newStatus q) (allowedNext current) ->
      P (WorkflowService.recordTransition q at1 at2 t)) ->
  Forall P (collection w) ->
  Forall P (collection (snd (racingTransitions a b w))).
Proof.
  intros HP Hw. unfold racingTransitions.
  destruct (findById (transcriptionId a) w) as [readA w1] eqn:HA.
  destruct (findById (transcriptionId b) w1) as [readB w2] eqn:HB.
  pose proof (findById_frame (transcriptionId a) w) as FA.
  pose proof (findById_frame (transcriptionId b) w1) as FB.
  cbv zeta in FA, FB. rewrite HA in FA. rewrite HB in FB. cbn [snd] in FA, FB.
  destruct FA as [FA _]. destruct FB as [FB _].
  assert (Hw2 : Forall P (collection w2)) by (rewrite FB, FA; exact Hw).
  pose proof (resumeTransition_keeps P a readA w2 HP Hw2) as H3.
  destruct (resumeTransition a readA w2) as [resultA w3].
  pose proof (resumeTransition_keeps P b readB w3 HP H3) as H4.
  destruct (resumeTransition b readB w3) as [resultB w4].
  exact H4.
Qed.

(** ** The history *)




(** ** Auto-progression at fire time *)

Lemma autoProgressWorkflow_advances (w : World) (i : IdString) (t : ITranscription)
    (current next note : string) :
  responsive 3 w ->
  find (hasId i) (collection w) = Some t ->
  workflowStatus (Schema.hydrate t) = Some current ->
  (current = "transcription" /\ next = "review"
   /\ note = "Auto-progressed to review phase")
  \/ (current = "review" /\ next = "approval"
      /\ note = "Auto-progressed to approval phase")
  \/ (current = "approval" /\ next = "completed"
      /\ note = "Auto-completed workflow") ->
  let request := mkTransition i next (Some note) (Some "system") in
  let t' := WorkflowService.recordTransition request (clock w) (clock w) t in
  WorkflowService.autoProgressWorkflow i w =
  (Returned tt,
   followUp request
     (withCollection (replaceDoc t' (collection w))
        (withStoreOps (S (S (S (storeOps w)))) w))).
Proof.
  intros Hr Hfind Hst Hcase request t'.
  pose proof (responsive_head _ _ Hr) as Hf.
  set (w1 := withStoreOps (S (storeOps w)) w).
  assert (Hr1 : responsive 2 w1) by (apply (responsive_next 2 w w1 Hr); reflexivity).
  assert (Hnext : In next (allowedNext current) /\ In current workflowStatusEnum).
  { destruct Hcase as [[Hc [Hn _]]|[[Hc [Hn _]]|[Hc [Hn _]]]]; subst current next;
      simpl; auto 10. }
  destruct Hnext as [Hin Henum].
  pose proof (transitionWorkflow_applied request w1 t current Hr1 Hfind Hst Henum Hin)
    as Happ.
  cbv zeta in Happ. change (clock w1) with (clock w) in Happ. fold t' in Happ.
  unfold WorkflowService.autoProgressWorkflow.
  unfold tryCatch at 1. unfold bind at 1.
  rewrite (findById_found _ _ _ Hf Hfind). rewrite Hst.
  fold w1. async_unfold.
  destruct Hcase as [[Hc [Hn Hnote]]|[[Hc [Hn Hnote]]|[Hc [Hn Hnote]]]];
    subst current next note;
    cbn [JS.truthy JS.orElse String.eqb Ascii.eqb Bool.eqb negb];
    cbv beta iota; fold request; rewrite Happ; reflexivity.
Qed.

Lemma autoProgressWorkflow_idle (w : World) (i : IdString) (t : ITranscription)
    (current : string) :
  storeFault w (storeOps w) = None ->
  find (hasId i) (collection w) = Some t ->
  workflowStatus (Schema.hydrate t) = Some current ->
  current <> "transcription" -> current <> "review" -> current <> "approval" ->
  WorkflowService.autoProgressWorkflow i w =
  (Returned tt, withStoreOps (S (storeOps w)) w).
Proof.
  intros Hf Hfind Hst H1 H2 H3.
  unfold WorkflowService.autoProgressWorkflow.
  unfold tryCatch at 1. unfold bind at 1.
  rewrite (findById_found _ _ _ Hf Hfind). rewrite Hst. async_unfold.
  destruct (JS.truthy (Some current)) eqn:Ht; [|reflexivity].
  destruct (truthy_some _ Ht) as [s [Hs [Ho _]]].
  injection Hs as Hs. subst s. rewrite Ho.
  apply String.eqb_neq in H1, H2, H3. rewrite H1, H2, H3. reflexivity.
Qed.

(** C3. When a timer fires, [autoProgressWorkflow] reads the record as it
    is stored at that moment.  With a store that answers: from transcription
    the record goes to review, from review to approval, from approval to
    completed, each time with a history entry attributed to "system"; from
    any other status (rejected and completed among them) the collection is
    left as it was and no new timer is set. *)
Theorem autoProgress_follows_live_status (w : World) (k : nat) (timer : Timer)
    (t : ITranscription) (current : string) :
  nth_error (timers w) k = Some timer ->
  due timer <= clock w ->
  responsive 3 w ->
  find (hasId (target timer)) (collection w) = Some t ->
  workflowStatus t = Some current ->
  let w' := snd (fireTimer k w) in
  let stored := find (hasId (target timer)) (collection w') in
  (current = "transcription" ->
   advancedBySystem t (clock w) "review" "Auto-progressed to review phase" stored)
  /\ (current = "review" ->
      advancedBySystem t (clock w) "approval" "Auto-progressed to approval phase" stored)
  /\ (current = "approval" ->
      advancedBySystem t (clock w) "completed" "Auto-completed workflow" stored)
  /\ (current <> "transcription" -> current <> "review" -> current <> "approval" ->
      collection w' = collection w /\ timers w' = removeNth k (timers w)
      /\ stored = Some t).
Proof.
  intros Hnth Hdue Hr Hfind Hst w' stored.
  set (w0 := withTimers (removeNth k (timers w)) w).
  assert (Hfire : fireTimer k w = WorkflowService.autoProgressWorkflow (target timer) w0).
  { unfold fireTimer. rewrite Hnth. apply Z.leb_le in Hdue. rewrite Hdue. reflexivity. }
  assert (Hr0 : responsive 3 w0) by exact Hr.
  assert (Hadv : forall next note,
             (current = "transcription" /\ next = "review"
              /\ note = "Auto-progressed to review phase")
             \/ (current = "review" /\ next = "approval"
                 /\ note = "Auto-progressed to approval phase")
             \/ (current = "approval" /\ next = "completed"
                 /\ note = "Auto-completed workflow") ->
             advancedBySystem t (clock w) next note stored).
  { intros next note Hcase.
    pose proof (autoProgressWorkflow_advances w0 (target timer) t current next note
                  Hr0 Hfind (hydrate_status _ _ Hst) Hcase) as H.
    cbv zeta in H. subst stored w'. rewrite Hfire, H.
    set (request := mkTransition (target timer) next (Some note) (Some "system")).
    set (t' := WorkflowService.recordTransition request (clock w0) (clock w0) t).
    assert (Hc : forall x, collection (followUp request x) = collection x).
    { intros x. unfold followUp.
      destruct (String.eqb (newStatus request) "review"); [reflexivity|].
      destruct (String.eqb (newStatus request) "approval"); reflexivity. }
    cbn [snd]. rewrite Hc. world_simpl.
    exists t'. split; [|split; reflexivity].
    destruct (find_idString _ _ _ Hfind) as [Hid _].
    rewrite Hid. change (_id t) with (_id t').
    apply find_replaceDoc_same. change (_id t') with (_id t).
    rewrite <- Hid. change (collection w0) with (collection w). congruence. }
  split; [|split; [|split]].
  - intros Hc. apply Hadv. auto.
  - intros Hc. apply Hadv. auto.
  - intros Hc. apply Hadv. auto 6.
  - intros H1 H2 H3.
    pose proof (autoProgressWorkflow_idle w0 (target timer) t current
                  (responsive_head _ _ Hr0) Hfind (hydrate_status _ _ Hst) H1 H2 H3)
      as H.
    subst stored w'. rewrite Hfire, H. world_simpl.
    split; [reflexivity | split; [reflexivity | exact Hfind]].
Qed.

Lemma autoProgress_follows_live_status_witness :
  collection (snd (fireTimer 0 rejectedEarly)) = collection rejectedEarly
  /\ timers (snd (fireTimer 0 rejectedEarly)) = [].
Proof.
  assert (Hdoc : exists t, find (hasId 0%nat) (collection rejectedEarly) = Some t
                           /\ workflowStatus t = Some "rejected").
  { eexists. split; [vm_compute; reflexivity | reflexivity]. }
  destruct Hdoc as [t [Hfind Hst]].
  assert (Hnth : nth_error (timers rejectedEarly) 0 = Some (mkTimer 2300 0%nat))
    by (vm_compute; reflexivity).
  assert (Hdue : 2300 <= clock rejectedEarly) by (vm_compute; discriminate).
  assert (Hr : responsive 3 rejectedEarly) by (intros j _; reflexivity).
  destruct (autoProgress_follows_live_status rejectedEarly 0 (mkTimer 2300 0%nat)
              t "rejected" Hnth Hdue Hr Hfind Hst) as [_ [_ [_ H]]].
  destruct H as [Hc [Ht _]]; try discriminate.
  split; [exact Hc|]. rewrite Ht. vm_compute. reflexivity.
Defined.

(** ** Failures inside a firing *)

(** C6. Whatever the store does, whatever the record is and whatever the
    id is, one that names a document or one that does not even cast, a
    firing of auto-progression returns normally, both as the function
    [autoProgressWorkflow] and as the timer callback; and a document whose
    [_id] is not the targeted one is, after the firing, what it was before,
    in the same place. *)
Theorem autoProgress_never_throws (w : World) (i : IdString) (k : nat) :
  let fired := WorkflowService.autoProgressWorkflow i w in
  fst fired = Returned tt
  /\ Forall2 (fun before after => Hex (_id before) <> i -> after = before)
       (collection w) (collection (snd fired))
  /\ fst (fireTimer k w) = Returned tt
  /\ match nth_error (timers w) k with
     | Some timer =>
         Forall2 (fun before after =>
                    Hex (_id before) <> target timer -> after = before)
           (collection w) (collection (snd (fireTimer k w)))
     | None => collection (snd (fireTimer k w)) = collection w
     end.
Proof.
  assert (Hone : forall w0 j,
             fst (WorkflowService.autoProgressWorkflow j w0) = Returned tt
             /\ Forall2 (fun before after => Hex (_id before) <> j -> after = before)
                  (collection w0)
                  (collection (snd (WorkflowService.autoProgressWorkflow j w0)))).
  { intros w0 j.
    destruct (autoProgressWorkflow_effect j w0) as [Hret Hc].
    split; [exact Hret|].
    destruct Hc as [Hc|[request [t [cur [stamp H]]]]].
    - rewrite Hc. apply Forall2_same. auto.
    - destruct H as [_ [_ [Hfind [_ [_ Hc]]]]]. rewrite Hc.
      destruct (find_idString _ _ _ Hfind) as [Hid _]. rewrite Hid.
      pose proof (replaceDoc_others
                    (WorkflowService.recordTransition request stamp stamp t)
                    (collection w0)) as Hothers.
      eapply Forall2_impl; [|exact Hothers].
      intros before after Hkeep Hne. apply Hkeep.
      intros Heq. apply Hne. f_equal. exact Heq. }
  intros fired. destruct (Hone w i) as [H1 H2].
  split; [exact H1|]. split; [exact H2|].
  split; [apply fireTimer_effect|].
  unfold fireTimer. destruct (nth_error (timers w) k) as [timer|]; [|reflexivity].
  destruct (due timer <=? clock w).
  - apply (Hone (withTimers (removeNth k (timers w)) w) (target timer)).
  - apply Forall2_same. auto.
Qed.

Lemma autoProgress_never_throws_witness :
  fst (WorkflowService.autoProgressWorkflow 0%nat
         (run [CreateWorkflow sampleCreate]
            (boot (fun _ => Some "store unavailable") (fun _ => (2 ^ 52)%N))))
  = Returned tt.
Proof.
  exact (proj1 (autoProgress_never_throws
                  (run [CreateWorkflow sampleCreate]
                     (boot (fun _ => Some "store unavailable") (fun _ => (2 ^ 52)%N)))
                  0%nat 0%nat)).
Defined.

(** ** The transition handler and the edges back to transcription *)

(** C4. The table has the edges review -> transcription and rejected ->
    transcription, and [transitionWorkflow] of the service takes them; the
    handler of [PUT /workflow/:id/transition] refuses the same request with
    status 400 before the service is called, because "transcription" is
    missing from its list of valid statuses.  The record is left where it
    was. *)
Theorem restart_refused_by_handler (w : World) (i : ObjectId) (t : ITranscription)
    (current : string) (note reviewer : option string) :
  responsive 2 w ->
  find (hasId i) (collection w) = Some t ->
  workflowStatus t = Some current ->
  current = "review" \/ current = "rejected" ->
  In "transcription" (allowedNext current)
  /\ returned
       (fst (WorkflowService.transitionWorkflow
               (mkTransition i "transcription" note reviewer) w)) = true
  /\ WorkflowController.transitionWorkflow i
       (mkBody (Some "transcription") note reviewer) w =
     (Returned
        (mkResponse 400 false None
           (Some "Invalid status. Must be one of: review, approval, completed, rejected")
           None),
      w).
Proof.
  intros Hr Hfind Hst Hcur.
  assert (Hin : In "transcription" (allowedNext current)
                /\ In current workflowStatusEnum).
  { destruct Hcur; subst current; simpl; auto 10. }
  destruct Hin as [Hin Henum].
  split; [exact Hin|]. split.
  - pose proof (transitionWorkflow_applied
                  (mkTransition i "transcription" note reviewer) w t current
                  Hr Hfind (hydrate_status _ _ Hst) Henum Hin) as H.
    cbv zeta in H. rewrite H. reflexivity.
  - reflexivity.
Qed.

Lemma restart_refused_by_handler_witness :
  statusCode
    (match fst (WorkflowController.transitionWorkflow 0%nat
                  (mkBody (Some "transcription") None None) rejectedEarly) with
     | Returned response => response
     | Thrown _ => mkResponse 0 false None None None
     end) = 400
  /\ returned
       (fst (WorkflowService.transitionWorkflow
               (mkTransition 0%nat "transcription" None None) rejectedEarly)) = true.
Proof.
  assert (Hdoc : exists t, find (hasId 0%nat) (collection rejectedEarly) = Some t
                           /\ workflowStatus t = Some "rejected").
  { eexists. split; [vm_compute; reflexivity | reflexivity]. }
  destruct Hdoc as [t [Hfind Hst]].
  assert (Hr : responsive 2 rejectedEarly) by (intros j _; reflexivity).
  destruct (restart_refused_by_handler rejectedEarly 0%nat t "rejected" None None
              Hr Hfind Hst (or_intror eq_refl)) as [_ [Hservice Hhandler]].
  split; [rewrite Hhandler; reflexivity | exact Hservice].
Defined.

(** ** Two transitions of one record *)

Lemma transitionWorkflow_resume (request : WorkflowTransitionRequest) (w : World) :
  WorkflowService.transitionWorkflow request w =
  (let (read, w1) := findById (transcriptionId request) w in
   resumeTransition request read w1).
Proof.
  unfold WorkflowService.transitionWorkflow, resumeTransition.
  rewrite tryCatch_rethrow. unfold bind.
  destruct (findById (transcriptionId request) w) as [[found|e] w1];
    [rewrite tryCatch_rethrow|]; reflexivity.
Qed.

Lemma resumeTransition_refused (request : WorkflowTransitionRequest) (w : World)
    (t : ITranscription) (current : string) :
  workflowStatus t = Some current ->
  In current workflowStatusEnum ->
  ~ In (newStatus request) (allowedNext current) ->
  exists e, resumeTransition request (Returned (Some t)) w = (Thrown e, w).
Proof.
  intros Hst Henum Hnot.
  unfold resumeTransition, WorkflowService.applyTransition. rewrite Hst.
  destruct (enum_truthy current Henum) as [Ht Ho]. rewrite Ht, Ho.
  rewrite (enum_prop current Henum).
  destruct (JS.includes (allowedNext current) (newStatus request)) eqn:E.
  - apply includes_In in E. contradiction.
  - eexists. reflexivity.
Qed.

(** The rest of a call that had read [t], resumed when the store holds
    [stored] under that id: the answer is made from what was read, the update
    is applied to what is stored. *)
Lemma resumeTransition_applied (request : WorkflowTransitionRequest) (w : World)
    (t stored : ITranscription) (current : string) :
  storeFault w (storeOps w) = None ->
  find (hasId (_id t)) (collection w) = Some stored ->
  workflowStatus t = Some current ->
  In current workflowStatusEnum ->
  In (newStatus request) (allowedNext current) ->
  resumeTransition request (Returned (Some t)) w =
  (Returned (WorkflowService.formatWorkflowResponse
               (WorkflowService.recordTransition request (clock w) (clock w) t)),
   followUp request
     (withCollection
        (replaceDoc (WorkflowService.recordTransition request (clock w) (clock w) stored)
           (collection w))
        (withStoreOps (S (storeOps w)) w))).
Proof.
  intros Hf Hstored Hst Henum Hin.
  unfold resumeTransition, WorkflowService.applyTransition. rewrite Hst.
  destruct (enum_truthy current Henum) as [Ht Ho]. rewrite Ht, Ho.
  rewrite (enum_prop current Henum).
  apply includes_In in Hin. rewrite Hin.
  unfold followUp. async_unfold. world_simpl. rewrite Hf.
  cbv beta iota zeta. world_simpl.
  change (_id (WorkflowService.recordTransition request (clock w) (clock w) t))
    with (_id t).
  rewrite Hstored.
  destruct (String.eqb (newStatus request) "review"); [reflexivity|].
  destruct (String.eqb (newStatus request) "approval"); reflexivity.
Qed.

Lemma followUp_frame (request : WorkflowTransitionRequest) (w : World) :
  collection (followUp request w) = collection w
  /\ storeFault (followUp request w) = storeFault w
  /\ storeOps (followUp request w) = storeOps w
  /\ clock (followUp request w) = clock w.
Proof.
  unfold followUp.
  destruct (String.eqb (newStatus request) "review"); [repeat split|].
  destruct (String.eqb (newStatus request) "approval"); repeat split.
Qed.

Lemma responsive_at (n k : nat) (w : World) :
  responsive n w -> (k < n)%nat -> storeFault w (storeOps w + k) = None.
Proof. intros H Hk. apply H. exact Hk. Qed.

Lemma returned_iff_false {A} (o : Outcome A) (P : Prop) :
  returned o = false -> ~ P -> (returned o = true <-> P).
Proof. intros H HP. rewrite H. split; [discriminate | contradiction]. Qed.

Lemma returned_iff_true {A} (o : Outcome A) (P : Prop) :
  returned o = true -> P -> (returned o = true <-> P).
Proof. intros H HP. split; auto. Qed.

(** C7, as the code has it.  [transitionWorkflow] validates the request
    against the status its own [findById] returned, and its [save] carries no
    condition on the stored status.  So of two calls on one record: when the
    second starts after the first has succeeded, it is validated against the
    status the first one stored; when both reads settle before either call
    resumes, each is validated against the status that was read, whatever
    the other has written since, and when both are allowed from it the
    record is left with the status of the call that wrote last and with the
    history entries of both, in the order of the writes. *)
Theorem transitions_validated_against_status_read (w : World)
    (a b : WorkflowTransitionRequest) (t : ITranscription) (current : string) :
  responsive 4 w ->
  transcriptionId a = transcriptionId b ->
  find (hasId (transcriptionId a)) (collection w) = Some t ->
  workflowStatus t = Some current ->
  In current workflowStatusEnum ->
  (let r := successiveTransitions a b w in
   returned (fst (fst r)) = true ->
   (returned (snd (fst r)) = true <-> In (newStatus b) (allowedNext (newStatus a))))
  /\ (let r := racingTransitions a b w in
      (returned (fst (fst r)) = true <-> In (newStatus a) (allowedNext current))
      /\ (returned (snd (fst r)) = true <-> In (newStatus b) (allowedNext current))
      /\ (In (newStatus a) (allowedNext current) ->
          In (newStatus b) (allowedNext current) ->
          exists d,
            find (hasId (transcriptionId a)) (collection (snd r)) = Some d
            /\ workflowStatus d = Some (newStatus b)
            /\ workflowHistory d =
                 Some (historyOf t
                       ++ [mkEntry (newStatus a) (clock w) (requestComment a)
                             (requestReviewedBy a);
                           mkEntry (newStatus b) (clock w) (requestComment b)
                             (requestReviewedBy b)])%list)).
Proof.
  intros Hr Hsame Hfind Hst Henum.
  pose proof (responsive_at 4 0 w Hr ltac:(lia)) as Hf0.
  pose proof (responsive_at 4 1 w Hr ltac:(lia)) as Hf1.
  pose proof (responsive_at 4 2 w Hr ltac:(lia)) as Hf2.
  pose proof (responsive_at 4 3 w Hr ltac:(lia)) as Hf3.
  rewrite Nat.add_0_r in Hf0.
  replace (storeOps w + 1)%nat with (S (storeOps w)) in Hf1 by lia.
  replace (storeOps w + 2)%nat with (S (S (storeOps w))) in Hf2 by lia.
  replace (storeOps w + 3)%nat with (S (S (S (storeOps w)))) in Hf3 by lia.
  destruct (find_idString _ _ _ Hfind) as [Hid _].
  pose proof (hydrate_status _ _ Hst) as Hread.
  split.
  - (* one after the other *)
    cbv zeta. unfold successiveTransitions.
    destruct (in_dec string_dec (newStatus a) (allowedNext current)) as [Hina|Hnota].
    + assert (Hr2 : responsive 2 w).
      { intros k Hk. apply Hr. lia. }
      pose proof (transitionWorkflow_applied a w t current Hr2 Hfind Hread Henum Hina)
        as Ha.
      cbv zeta in Ha. rewrite Ha.
      set (t' := WorkflowService.recordTransition a (clock w) (clock w) t).
      set (w1 := followUp a
                   (withCollection (replaceDoc t' (collection w))
                      (withStoreOps (S (S (storeOps w))) w))).
      destruct (followUp_frame a
                  (withCollection (replaceDoc t' (collection w))
                     (withStoreOps (S (S (storeOps w))) w)))
        as [Hc [Hsf [Hso _]]].
      fold w1 in Hc, Hsf, Hso. world_simpl_in Hc. world_simpl_in Hsf.
      world_simpl_in Hso.
      assert (Hr1 : responsive 2 w1).
      { intros k Hk. rewrite Hsf, Hso.
        replace (S (S (storeOps w)) + k)%nat with (storeOps w + (2 + k))%nat by lia.
        apply Hr. lia. }
      assert (Hfind1 : find (hasId (transcriptionId b)) (collection w1) = Some t').
      { rewrite Hc, <- Hsame, Hid. change (_id t) with (_id t').
        apply find_replaceDoc_same. change (_id t') with (_id t).
        rewrite <- Hid. congruence. }
      assert (Henum1 : In (newStatus a) workflowStatusEnum)
        by exact (allowedNext_enum _ _ Hina).
      intros _.
      destruct (in_dec string_dec (newStatus b) (allowedNext (newStatus a)))
        as [Hinb|Hnotb].
      * pose proof (transitionWorkflow_applied b w1 t' (newStatus a) Hr1 Hfind1
                      eq_refl Henum1 Hinb) as Hb.
        cbv zeta in Hb. rewrite Hb. cbn [fst snd].
        apply returned_iff_true; [reflexivity | exact Hinb].
      * pose proof (transitionWorkflow_refused b w1 t' (newStatus a)
                      (responsive_head _ _ Hr1) Hfind1 eq_refl Henum1 Hnotb) as Hb.
        rewrite Hb. cbn [fst snd].
        apply returned_iff_false; [reflexivity | exact Hnotb].
    + pose proof (transitionWorkflow_refused a w t current Hf0 Hfind Hread Henum Hnota)
        as Ha.
      rewrite Ha.
      destruct (WorkflowService.transitionWorkflow b _) as [rb w2].
      cbn [fst snd returned]. discriminate.
  - (* both reads first *)
    cbv zeta. unfold racingTransitions.
    rewrite (findById_found _ w t Hf0 Hfind).
    set (w1 := withStoreOps (S (storeOps w)) w).
    assert (Hfind1 : find (hasId (transcriptionId b)) (collection w1) = Some t).
    { rewrite <- Hsame. exact Hfind. }
    rewrite (findById_found _ w1 t Hf1 Hfind1).
    set (w2 := withStoreOps (S (storeOps w1)) w1).
    set (read := Schema.hydrate t).
    assert (Hstored2 : find (hasId (_id read)) (collection w2) = Some t).
    { change (_id read) with (_id t). rewrite <- Hid. exact Hfind. }
    destruct (in_dec string_dec (newStatus a) (allowedNext current)) as [Hina|Hnota].
    + pose proof (resumeTransition_applied a w2 read t current Hf2 Hstored2 Hread
                    Henum Hina) as Ha.
      rewrite Ha. cbv beta iota.
      set (t' := WorkflowService.recordTransition a (clock w2) (clock w2) t).
      set (w3 := followUp a
                   (withCollection (replaceDoc t' (collection w2))
                      (withStoreOps (S (storeOps w2)) w2))).
      destruct (followUp_frame a
                  (withCollection (replaceDoc t' (collection w2))
                     (withStoreOps (S (storeOps w2)) w2)))
        as [Hc [Hsf [Hso Hck]]].
      fold w3 in Hc, Hsf, Hso, Hck. world_simpl_in Hc. world_simpl_in Hsf.
      world_simpl_in Hso. world_simpl_in Hck.
      assert (Hf : storeFault w3 (storeOps w3) = None).
      { rewrite Hsf, Hso. exact Hf3. }
      assert (Hstored3 : find (hasId (_id read)) (collection w3) = Some t').
      { rewrite Hc. change (_id read) with (_id t').
        apply find_replaceDoc_same.
        change (_id t') with (_id t). rewrite <- Hid.
        change (collection w2) with (collection w). congruence. }
      destruct (in_dec string_dec (newStatus b) (allowedNext current)) as [Hinb|Hnotb].
      * pose proof (resumeTransition_applied b w3 read t' current Hf Hstored3 Hread
                      Henum Hinb) as Hb.
        rewrite Hb. cbn [fst snd].
        split; [apply returned_iff_true; auto|].
        split; [apply returned_iff_true; auto|].
        intros _ _.
        set (t'' := WorkflowService.recordTransition b (clock w3) (clock w3) t').
        exists t''.
        destruct (followUp_frame b
                    (withCollection (replaceDoc t'' (collection w3))
                       (withStoreOps (S (storeOps w3)) w3))) as [Hc' _].
        rewrite Hc'. world_simpl. split.
        -- rewrite Hid. change (_id t) with (_id t'').
           apply find_replaceDoc_same. change (_id t'') with (_id read).
           rewrite Hstored3. discriminate.
        -- split; [reflexivity|].
           unfold t'', t', WorkflowService.recordTransition, historyOf.
           world_simpl. rewrite Hck. world_simpl.
           rewrite <- app_assoc. reflexivity.
      * destruct (resumeTransition_refused b w3 read current Hread Henum Hnotb)
          as [e Hb].
        rewrite Hb. cbn [fst snd].
        split; [apply returned_iff_true; auto|].
        split; [apply returned_iff_false; auto|].
        intros _ Hinb. contradiction.
    + destruct (resumeTransition_refused a w2 read current Hread Henum Hnota)
        as [e Ha].
      rewrite Ha. cbv beta iota.
      destruct (in_dec string_dec (newStatus b) (allowedNext current)) as [Hinb|Hnotb].
      * pose proof (resumeTransition_applied b w2 read t current Hf2 Hstored2 Hread
                      Henum Hinb) as Hb.
        rewrite Hb. cbn [fst snd].
        split; [apply returned_iff_false; auto|].
        split; [apply returned_iff_true; auto|].
        intros Hina. contradiction.
      * destruct (resumeTransition_refused b w2 read current Hread Henum Hnotb)
          as [e' Hb].
        rewrite Hb. cbn [fst snd].
        split; [apply returned_iff_false; auto|].
        split; [apply returned_iff_false; auto|].
        intros Hina. contradiction.
Qed.

Lemma transitions_validated_against_status_read_witness :
  returned (snd (fst (successiveTransitions rejectIt reviewIt intake))) = false.
Proof.
  assert (Hdoc : exists t, find (hasId 0%nat) (collection intake) = Some t
                           /\ workflowStatus t = Some "transcription").
  { eexists. split; [vm_compute; reflexivity | reflexivity]. }
  destruct Hdoc as [t [Hfind Hst]].
  assert (Hr : responsive 4 intake) by (intros j _; reflexivity).
  assert (Henum : In "transcription" workflowStatusEnum) by (simpl; auto).
  destruct (transitions_validated_against_status_read intake rejectIt reviewIt t
              "transcription" Hr eq_refl Hfind Hst Henum) as [Hseq _].
  cbv zeta in Hseq.
  assert (Hfirst : returned (fst (fst (successiveTransitions rejectIt reviewIt intake)))
                   = true) by (vm_compute; reflexivity).
  destruct (returned (snd (fst (successiveTransitions rejectIt reviewIt intake))));
    [|reflexivity].
  exfalso. apply (proj1 (Hseq Hfirst)) in Hfirst. simpl in Hfirst.
  intuition discriminate.
Defined.

(** C7, as the claim states it, fails: started on a record in transcription,
    a rejection and a move to review whose reads both settle first both
    succeed, although review is not allowed from rejected; neither caller
    fails, the record ends in review, and its history reads transcription,
    rejected, review. *)
Lemma racing_transitions_both_succeed :
  let r := racingTransitions rejectIt reviewIt intake in
  returned (fst (fst r)) = true
  /\ returned (snd (fst r)) = true
  /\ ~ In (newStatus reviewIt) (allowedNext (newStatus rejectIt))
  /\ option_map workflowStatus (find (hasId 0%nat) (collection (snd r)))
     = Some (Some "review")
  /\ option_map (fun d => map status (historyOf d))
       (find (hasId 0%nat) (collection (snd r)))
     = Some ["transcription"; "rejected"; "review"].
Proof.
  cbv zeta. split; [vm_compute; reflexivity|].
  split; [vm_compute; reflexivity|].
  split; [simpl; intuition discriminate|].
  split; vm_compute; reflexivity.
Qed.

(** ** Listing *)

Lemma sortsBefore_spec (a b : ITranscription) :
  WorkflowService.sortsBefore a b = true <-> newerFirst a b.
Proof.
  unfold WorkflowService.sortsBefore, newerFirst.
  destruct (updatedAt a) as [x|], (updatedAt b) as [y|].
  - destruct (Z.ltb_spec y x); [intuition|].
    destruct (Z.ltb_spec x y).
    + split; [discriminate | lia].
    + rewrite Z.leb_le. split; [intros; right; lia | intros [?|[_ ?]]; lia].
  - intuition.
  - split; [discriminate | contradiction].
  - apply Z.leb_le.
Qed.

Lemma newerFirst_total (a b : ITranscription) :
  WorkflowService.sortsBefore a b = false -> newerFirst b a.
Proof.
  unfold WorkflowService.sortsBefore, newerFirst.
  destruct (updatedAt a) as [x|], (updatedAt b) as [y|]; try discriminate; auto.
  - destruct (Z.ltb_spec y x); [discriminate|].
    destruct (Z.ltb_spec x y); [auto|].
    rewrite Z.leb_gt. intros. right. lia.
  - rewrite Z.leb_gt. lia.
Qed.

Lemma newerFirst_trans (a b c : ITranscription) :
  newerFirst a b -> newerFirst b c -> newerFirst a c.
Proof.
  unfold newerFirst.
  destruct (updatedAt a), (updatedAt b), (updatedAt c); try tauto; lia.
Qed.

Lemma insertSorted_perm (d : ITranscription) (l : list ITranscription) :
  Permutation (WorkflowService.insertSorted d l) (d :: l).
Proof.
  induction l as [|x l IH]; simpl.
  - apply Permutation_refl.
  - destruct (WorkflowService.sortsBefore d x).
    + apply Permutation_refl.
    + apply perm_trans with (x :: d :: l);
        [apply perm_skip; exact IH | apply perm_swap].
Qed.

Lemma sortDocs_perm (l : list ITranscription) :
  Permutation (WorkflowService.sortDocs l) l.
Proof.
  induction l as [|x l IH]; simpl.
  - apply perm_nil.
  - apply perm_trans with (x :: WorkflowService.sortDocs l);
      [apply insertSorted_perm | apply perm_skip; exact IH].
Qed.

Lemma insertSorted_sorted (d : ITranscription) (l : list ITranscription) :
  Sorted newerFirst l -> Sorted newerFirst (WorkflowService.insertSorted d l).
Proof.
  induction l as [|x l IH]; simpl; intros Hs.
  - repeat constructor.
  - destruct (WorkflowService.sortsBefore d x) eqn:E.
    + constructor; [exact Hs|]. constructor. apply sortsBefore_spec. exact E.
    + inversion Hs as [|? ? Hl Hhd]; subst.
      constructor; [apply IH; exact Hl|].
      destruct l as [|y l]; simpl.
      * constructor. apply newerFirst_total. exact E.
      * destruct (WorkflowService.sortsBefore d y).
        -- constructor. apply newerFirst_total. exact E.
        -- inversion Hhd; subst. constructor. assumption.
Qed.

Lemma sortDocs_sorted (l : list ITranscription) :
  StronglySorted newerFirst (WorkflowService.sortDocs l).
Proof.
  apply Sorted_StronglySorted.
  - intros a b c. apply newerFirst_trans.
  - induction l as [|x l IH]; simpl; [constructor|].
    apply insertSorted_sorted. exact IH.
Qed.

Lemma matches_listed (filter : option string) (d : ITranscription) :
  WorkflowService.matches (queryFor filter) d = true <-> listed filter d.
Proof.
  unfold queryFor, listed, WorkflowService.matches, JS.truthy, JS.orElse.
  destruct filter as [wanted|]; simpl.
  - destruct (String.eqb wanted "") eqn:E; simpl.
    + destruct (workflowStatus d); split; congruence.
    + destruct (workflowStatus d) as [s|].
      * rewrite String.eqb_eq. split; congruence.
      * split; discriminate.
  - destruct (workflowStatus d); split; congruence.
Qed.

(** C8. With a store that answers, [listWorkflows] ranks the listed records
    (those with a workflow status; with a filter, a non-empty string, exactly
    those whose status is the filter) by [updatedAt], latest first, ties and never-updated
    records by [createdAt], latest first, never-updated records after the
    updated ones.  It returns the window of [limit] records of page [page]
    of that ranking, and as total the number of all listed records, the same
    for every page and limit.  The collection is not changed. *)
Theorem listWorkflows_ranked_filtered_counted (w : World) (filter : option string) :
  responsive 2 w ->
  exists ranked,
    Permutation ranked
      (List.filter (WorkflowService.matches (queryFor filter)) (collection w))
    /\ (forall d, In d ranked <-> In d (collection w) /\ listed filter d)
    /\ StronglySorted newerFirst ranked
    /\ forall page limit, 1 <= page -> 1 <= limit ->
         let result := WorkflowService.listWorkflows filter page limit w in
         fst result =
           Returned
             (mkList
                (firstn (Z.to_nat limit)
                   (skipn (Z.to_nat ((page - 1) * limit)) ranked))
                (List.length ranked) page limit)
         /\ collection (snd result) = collection w.
Proof.
  intros Hr.
  pose proof (responsive_at 2 0 w Hr ltac:(lia)) as Hf0.
  pose proof (responsive_at 2 1 w Hr ltac:(lia)) as Hf1.
  rewrite Nat.add_0_r in Hf0.
  replace (storeOps w + 1)%nat with (S (storeOps w)) in Hf1 by lia.
  set (chosen := List.filter (WorkflowService.matches (queryFor filter)) (collection w)).
  exists (WorkflowService.sortDocs chosen).
  split; [apply sortDocs_perm|].
  split.
  { intros d. split.
    - intros Hin. apply (Permutation_in d (sortDocs_perm chosen)) in Hin.
      unfold chosen in Hin. apply filter_In in Hin.
      destruct Hin as [Hin Hm]. split; [exact Hin | apply matches_listed; exact Hm].
    - intros [Hin Hl].
      apply (Permutation_in d (Permutation_sym (sortDocs_perm chosen))).
      unfold chosen. apply filter_In. split; [exact Hin | apply matches_listed; exact Hl]. }
  split; [apply sortDocs_sorted|].
  intros page limit Hp Hl result. subst result.
  unfold WorkflowService.listWorkflows, WorkflowService.findSorted,
    WorkflowService.countDocuments, WorkflowService.window.
  fold (queryFor filter).
  async_unfold. world_simpl. rewrite Hf0. cbv beta iota zeta. world_simpl.
  fold chosen.
  assert (Hskip : ((page - 1) * limit <? 0) = false) by (apply Z.ltb_ge; nia).
  assert (Hlim : (limit =? 0) = false) by (apply Z.eqb_neq; lia).
  rewrite Hskip, Hlim. cbv beta iota zeta. world_simpl. rewrite Hf1.
  cbv beta iota zeta. world_simpl. fold chosen.
  rewrite Z.abs_eq by lia.
  split; [|reflexivity].
  rewrite (Permutation_length (sortDocs_perm chosen)). reflexivity.
Qed.

Lemma listWorkflows_ranked_filtered_counted_witness :
  exists ranked,
    fst (WorkflowService.listWorkflows (Some "review") 1 1 twoWorkflows) =
    Returned (mkList (firstn 1 (skipn 0 ranked)) (List.length ranked) 1 1)
    /\ forall d, In d ranked -> workflowStatus d = Some "review".
Proof.
  assert (Hr : responsive 2 twoWorkflows) by (intros j _; reflexivity).
  destruct (listWorkflows_ranked_filtered_counted twoWorkflows (Some "review") Hr)
    as [ranked [_ [Hin [_ Hpage]]]].
  exists ranked. split.
  - exact (proj1 (Hpage 1 1 ltac:(lia) ltac:(lia))).
  - intros d Hd. apply Hin in Hd. exact (proj2 Hd).
Defined.

(** ** Records of the plain transcription path *)

Lemma find_snoc_fresh (i : ObjectId) (c : list ITranscription) (d : ITranscription) :
  find (hasId i) c = None -> _id d = i -> find (hasId i) (c ++ [d])%list = Some d.
Proof.
  intros Hnone Hid. induction c as [|x c IH]; cbn [app find hasId] in *.
  - rewrite Hid, Nat.eqb_refl. reflexivity.
  - destruct (Nat.eqb (_id x) i); [discriminate | apply IH; exact Hnone].
Qed.

Lemma getWorkflowStatus_read (i : IdString) (w : World) (d : ITranscription) :
  storeFault w (storeOps w) = None ->
  find (hasId i) (collection w) = Some d ->
  WorkflowService.getWorkflowStatus i w =
  (Returned (WorkflowService.formatWorkflowResponse (Schema.hydrate d)),
   withStoreOps (S (storeOps w)) w).
Proof.
  intros Hf Hfind. unfold WorkflowService.getWorkflowStatus.
  rewrite tryCatch_rethrow. unfold bind.
  rewrite (findById_found _ _ _ Hf Hfind). reflexivity.
Qed.

(** What a call of [createTranscription] that returns has done. *)
Lemma createTranscription_returned (request : TranscriptionRequest) (w : World)
    (answer : TranscriptionResponse) :
  let created := TranscriptionService.createTranscription request w in
  fst created = Returned answer ->
  exists d,
    collection (snd created) = (collection w ++ [d])%list
    /\ find (hasId (nextObjectId w)) (collection w) = None
    /\ _id d = nextObjectId w
    /\ savedId answer = nextObjectId w
    /\ workflowStatus d = Some "transcription"
    /\ workflowHistory d = Some []
    /\ storeFault (snd created) = storeFault w
    /\ storeOps (snd created) = S (storeOps w)
    /\ timers (snd created) = timers w.
Proof.
  unfold TranscriptionService.createTranscription,
    TranscriptionService.mockAudioDownload,
    TranscriptionService.generateMockTranscription.
  async_unfold. world_simpl.
  repeat (break_match; world_simpl); intros H;
    first [ discriminate H
          | injection H as <-; eexists; repeat split; (reflexivity || assumption) ].
Qed.

(** C10, as the code has it.  The schema completes a document constructed
    without workflow fields, so the record that the plain
    [createTranscription] stores does carry a workflow status: transcription,
    with an empty history.  [getWorkflowStatus] on that record, with a store
    that answers, does not throw: it returns the status transcription, an
    empty history and the next states review and rejected, so a status view
    with no history entry can be obtained.  A stored document that lacks the
    status, which no action of the process produces, is read with the same
    default: the view shows transcription, the history the document carries,
    none counting as empty, and the next states review and rejected. *)
Theorem status_view_of_plain_record (w : World) (request : TranscriptionRequest)
    (answer : TranscriptionResponse) :
  let created := TranscriptionService.createTranscription request w in
  fst created = Returned answer ->
  storeFault (snd created) (storeOps (snd created)) = None ->
  (exists d,
      collection (snd created) = (collection w ++ [d])%list
      /\ _id d = savedId answer
      /\ workflowStatus d = Some "transcription"
      /\ workflowHistory d = Some [])
  /\ fst (WorkflowService.getWorkflowStatus (savedId answer) (snd created)) =
       Returned (mkStatusView (savedId answer) "transcription" []
                   ["review"; "rejected"])
  /\ (forall (w0 : World) (i : ObjectId) (d : ITranscription),
        storeFault w0 (storeOps w0) = None ->
        find (hasId i) (collection w0) = Some d ->
        workflowStatus d = None ->
        fst (WorkflowService.getWorkflowStatus i w0) =
          Returned (mkStatusView i "transcription" (historyOf d)
                      ["review"; "rejected"]))
  /\ (forall faults bits actions (i : ObjectId) (d : ITranscription),
        find (hasId i) (collection (run actions (boot faults bits))) = Some d ->
        workflowStatus d <> None).
Proof.
  intros created Hret Hf.
  destruct (createTranscription_returned request w answer Hret)
    as [d [Hc [Hfresh [Hid [Hsaved [Hs [Hh _]]]]]]].
  fold created in Hc.
  split; [exists d; repeat split; congruence|]. split; [|split].
  - assert (Hfind : find (hasId (savedId answer)) (collection (snd created)) = Some d).
    { rewrite Hc, Hsaved. apply find_snoc_fresh; assumption. }
    rewrite (getWorkflowStatus_read _ _ _ Hf Hfind). cbn [fst].
    unfold WorkflowService.formatWorkflowResponse.
    rewrite (hydrate_status _ _ Hs), hydrate_history, Hh.
    change (_id (Schema.hydrate d)) with (_id d). rewrite Hid, Hsaved. reflexivity.
  - intros w0 i d0 Hf0 Hfind0 Hst0.
    rewrite (getWorkflowStatus_read _ _ _ Hf0 Hfind0). cbn [fst].
    destruct (find_hasId _ _ _ Hfind0) as [Hid0 _].
    unfold WorkflowService.formatWorkflowResponse, historyOf.
    rewrite hydrate_history.
    change (_id (Schema.hydrate d0)) with (_id d0). rewrite Hid0.
    cbn [Schema.hydrate Schema.applyDefaults workflowStatus]. rewrite Hst0.
    reflexivity.
  - intros faults bits actions i d0 Hfind0.
    destruct (reachable_wellFormed faults bits actions i d0 Hfind0)
      as [[s [h [e [Hs0 _]]]]|[Hs0 _]]; congruence.
Qed.

Lemma status_view_of_plain_record_witness :
  fst (WorkflowService.getWorkflowStatus 0%nat
         (snd (TranscriptionService.createTranscription plainRequest calm))) =
  Returned (mkStatusView 0%nat "transcription" [] ["review"; "rejected"]).
Proof.
  assert (Hret : fst (TranscriptionService.createTranscription plainRequest calm) =
                 Returned (mkSaved 0%nat "Transcription saved"))
    by (vm_compute; reflexivity).
  assert (Hf : storeFault (snd (TranscriptionService.createTranscription plainRequest calm))
                 (storeOps (snd (TranscriptionService.createTranscription
                                   plainRequest calm))) = None)
    by reflexivity.
  exact (proj1 (proj2 (status_view_of_plain_record calm plainRequest
                         (mkSaved 0%nat "Transcription saved") Hret Hf))).
Defined.

(** C10, as the claim states it, fails in its example: the record that the
    plain transcription path stores carries a workflow status. *)
Lemma plain_record_carries_status :
  exists d0,
    find (hasId 0%nat) (collection (run [CreateTranscription plainRequest] calm))
    = Some d0
    /\ workflowStatus d0 = Some "transcription"
    /\ workflowStatus d0 <> None.
Proof.
  eexists. split; [vm_compute; reflexivity|].
  split; [reflexivity | discriminate].
Qed.

(** ** The remote-speech producer *)

Lemma calculateDelay_formula (n : Z) :
  AzureService.calculateDelay n = Z.min (1000 * 2 ^ (n - 1)) 8000.
Proof. reflexivity. Qed.

Lemma createAzureTranscription_trace (request : TranscriptionRequest) (w : World) :
  exists lead attempts,
    (attempts <= 3)%nat
    /\ (lead = [] \/ lead = [Slept 600])
    /\ trace (snd (AzureService.createAzureTranscription request w)) =
       (rev (lead ++ retrySchedule attempts 1) ++ trace w)%list.
Proof.
  unfold AzureService.createAzureTranscription,
    AzureService.fallbackToMockTranscription,
    AzureService.validateAzureConfig, AzureService.downloadAudioForAzure.
  rewrite withRetry_unfold. unfold AzureService.callAzureSpeechService.
  async_unfold. world_simpl.
  repeat (break_match; world_simpl);
    first [ exists [], 0%nat; split; [lia | split; [auto | reflexivity]]
          | exists [Slept 600], 0%nat; split; [lia | split; [auto | reflexivity]]
          | exists [Slept 600], 1%nat; split; [lia | split; [auto | reflexivity]]
          | exists [Slept 600], 2%nat; split; [lia | split; [auto | reflexivity]]
          | exists [Slept 600], 3%nat; split; [lia | split; [auto | reflexivity]] ].
Qed.

Lemma createAzureTranscription_thrown (request : TranscriptionRequest) (w : World)
    (e : string) :
  fst (AzureService.createAzureTranscription request w) = Thrown e ->
  e = "Both Azure and fallback transcription failed"
  /\ collection (snd (AzureService.createAzureTranscription request w)) = collection w.
Proof.
  unfold AzureService.createAzureTranscription,
    AzureService.fallbackToMockTranscription,
    AzureService.validateAzureConfig, AzureService.downloadAudioForAzure.
  rewrite withRetry_unfold. unfold AzureService.callAzureSpeechService.
  async_unfold. world_simpl.
  repeat (break_match; world_simpl); intros H;
    first [ discriminate H
          | injection H as <-; split; reflexivity ].
Qed.

(** What [save] asks of a new document whose text is not empty, whose source
    is of the enum, whose status, if any, is of the enum, and whose history
    entries have a status: that the URL and the language pass their
    validators. *)
Lemma pathErrors_spec (d : ITranscription) :
  String.eqb (transcription d) "" = false ->
  JS.includes Schema.sourceEnum (source d) = true ->
  match workflowStatus d with
  | Some s => JS.includes workflowStatusEnum s = true
  | None => True
  end ->
  Schema.historyErrors 0
    (match workflowHistory d with Some h => h | None => [] end) = [] ->
  (Schema.pathErrors d = []
   <-> Schema.urlRegex (audioUrl d) && Schema.langRegex (language d) = true).
Proof.
  intros Htext Hsource Hstatus Hhistory. unfold Schema.pathErrors.
  rewrite Htext, Hsource, Hhistory. cbn [negb app].
  assert (Hst : match workflowStatus d with
                | Some s =>
                    if negb (JS.includes workflowStatusEnum s)
                    then [("workflowStatus: `" ++ s
                           ++ "` is not a valid enum value for path `workflowStatus`.")%string]
                    else []
                | None => []
                end = []).
  { destruct (workflowStatus d); [rewrite Hstatus|]; reflexivity. }
  rewrite Hst, !app_nil_r.
  destruct (String.eqb_spec (audioUrl d) "") as [Hempty|_].
  - rewrite Hempty. cbn. split; discriminate.
  - destruct (Schema.urlRegex (audioUrl d)); cbn [negb andb app].
    + destruct (Schema.langRegex (language d)); cbn; split; congruence.
    + split; discriminate.
Qed.

Lemma fallbackDoc_valid (request : TranscriptionRequest) (oid : ObjectId)
    (created : Z) :
  Schema.pathErrors (fallbackDoc request oid created) = []
  <-> acceptable request = true.
Proof.
  unfold acceptable. apply pathErrors_spec; reflexivity.
Qed.

Lemma createAzureTranscription_exhausted (request : TranscriptionRequest) (w : World) :
  AZURE_REGION (config w) <> "" ->
  lessThan (nextRandom w 0) (1 # 10) = false ->
  lessThan (nextRandom w 1) (3 # 10) = true ->
  lessThan (nextRandom w 2) (3 # 10) = true ->
  lessThan (nextRandom w 3) (3 # 10) = true ->
  let result := AzureService.createAzureTranscription request w in
  trace (snd result) = (rev ([Slept 600] ++ retrySchedule 3 1) ++ trace w)%list
  /\ (acceptable request = true ->
      storeFault w (storeOps w) = None ->
      find (hasId (nextObjectId w)) (collection w) = None ->
      fst result =
        Returned (mkSaved (nextObjectId w) "Transcription saved (fallback mode)")
      /\ collection (snd result) =
         (collection w ++ [fallbackDoc request (nextObjectId w) (clock (snd result))])%list)
  /\ (acceptable request = false \/ storeFault w (storeOps w) <> None ->
      fst result = Thrown "Both Azure and fallback transcription failed"
      /\ collection (snd result) = collection w).
Proof.
  unfold nextRandom. cbn [Nat.add]. cbv zeta.
  intros Hregion Hdown H1 H2 H3.
  apply String.eqb_neq in Hregion.
  unfold AzureService.createAzureTranscription,
    AzureService.fallbackToMockTranscription,
    AzureService.validateAzureConfig, AzureService.downloadAudioForAzure.
  rewrite withRetry_unfold. unfold AzureService.callAzureSpeechService.
  async_unfold. world_simpl.
  rewrite Hregion. cbv beta iota zeta. world_simpl.
  rewrite Hdown. cbv beta iota zeta. world_simpl.
  rewrite H1. cbv beta iota zeta. world_simpl.
  rewrite H2. cbv beta iota zeta. world_simpl.
  rewrite H3. cbv beta iota zeta. world_simpl.
  match goal with
  | |- context [Schema.pathErrors (Schema.construct ?fields)] =>
      change (Schema.construct fields)
        with (fallbackDoc request (nextObjectId w) (createdAt fields))
  end.
  world_simpl.
  set (stamp := clock w + 600 + 800 + 1000 + 800 + 2000 + 800).
  pose proof (fallbackDoc_valid request (nextObjectId w) stamp) as Hvalid.
  destruct (Schema.pathErrors (fallbackDoc request (nextObjectId w) stamp))
    as [|problem problems]; cbv beta iota zeta; world_simpl.
  2:{ assert (Hno : acceptable request = false).
      { destruct (acceptable request); [|reflexivity].
        destruct Hvalid as [_ Hv]. discriminate (Hv eq_refl). }
      split; [reflexivity|]. split; [congruence|]. intros _. split; reflexivity. }
  assert (Hyes : acceptable request = true) by (apply Hvalid; reflexivity).
  destruct (storeFault w (storeOps w)) as [m|] eqn:Hf; cbv beta iota zeta; world_simpl.
  - split; [reflexivity|]. split; [discriminate|]. intros _. split; reflexivity.
  - change (_id (fallbackDoc request (nextObjectId w) stamp)) with (nextObjectId w).
    destruct (find (hasId (nextObjectId w)) (collection w)) eqn:Hfresh;
      cbv beta iota zeta; world_simpl.
    + split; [reflexivity|]. split; [discriminate|].
      intros [H|H]; congruence.
    + split; [reflexivity|]. split; [|intros [H|H]; congruence].
      intros _ _ _. split; reflexivity.
Qed.

(** C9. [calculateDelay n] is the smaller of [1000 * 2^(n-1)] and 8000.  In
    every run of [createAzureTranscription] the speech service is called at
    most three times, and between the call of attempt [n] and the next one
    the wait is [calculateDelay n].  The operation throws only from its
    fallback, with the collection unchanged.  When the download succeeds and
    all three calls fail, the waits are 1000 and 2000, and the operation
    turns to the fallback record, which [save] validates against the schema
    and then writes: it returns "Transcription saved (fallback mode)", the
    record stored under a fresh id, if the URL and the language of the
    request pass the validators and the store accepts the write, and it
    throws, nothing stored, if they do not pass or the store refuses. *)
Theorem azure_retry_then_fallback (w : World) (request : TranscriptionRequest) :
  let result := AzureService.createAzureTranscription request w in
  (forall n, 1 <= n ->
     AzureService.calculateDelay n = Z.min (1000 * 2 ^ (n - 1)) 8000)
  /\ maxAttempts AzureService.retryConfig = 3
  /\ (exists lead attempts,
        (attempts <= 3)%nat
        /\ (lead = [] \/ lead = [Slept 600])
        /\ trace (snd result) = (rev (lead ++ retrySchedule attempts 1) ++ trace w)%list)
  /\ (forall e, fst result = Thrown e ->
        e = "Both Azure and fallback transcription failed"
        /\ collection (snd result) = collection w)
  /\ (asciiOnly (bodyAudioUrl request) = true ->
      AZURE_REGION (config w) <> "" ->
      lessThan (nextRandom w 0) (1 # 10) = false ->
      lessThan (nextRandom w 1) (3 # 10) = true ->
      lessThan (nextRandom w 2) (3 # 10) = true ->
      lessThan (nextRandom w 3) (3 # 10) = true ->
      trace (snd result) =
        ([Slept 800; AzureCall; Slept 2000; Slept 800; AzureCall;
          Slept 1000; Slept 800; AzureCall; Slept 600] ++ trace w)%list
      /\ (acceptable request = true ->
          storeFault w (storeOps w) = None ->
          find (hasId (nextObjectId w)) (collection w) = None ->
          fst result =
            Returned (mkSaved (nextObjectId w) "Transcription saved (fallback mode)")
          /\ collection (snd result) =
             (collection w
                ++ [fallbackDoc request (nextObjectId w) (clock (snd result))])%list)
      /\ (acceptable request = false \/ storeFault w (storeOps w) <> None ->
          fst result = Thrown "Both Azure and fallback transcription failed"
          /\ collection (snd result) = collection w)).
Proof.
  intros result.
  split; [intros n _; apply calculateDelay_formula|].
  split; [reflexivity|].
  split; [apply createAzureTranscription_trace|].
  split; [intros e; apply createAzureTranscription_thrown|].
  intros _ Hregion Hdown H1 H2 H3.
  exact (createAzureTranscription_exhausted request w Hregion Hdown H1 H2 H3).
Qed.

Lemma azure_retry_then_fallback_witness :
  fst (AzureService.createAzureTranscription plainRequest azureDown) =
  Returned (mkSaved 0%nat "Transcription saved (fallback mode)")
  /\ fst (AzureService.createAzureTranscription
            (mkRequest "https://example.com/plain.mp3" (Some "english")) azureDown) =
     Thrown "Both Azure and fallback transcription failed"
  /\ AzureService.calculateDelay 2 = 2000.
Proof.
  assert (Hregion : AZURE_REGION (config azureDown) <> "") by discriminate.
  split; [|split].
  - destruct (azure_retry_then_fallback azureDown plainRequest)
      as [_ [_ [_ [_ Hall]]]].
    destruct (Hall eq_refl Hregion eq_refl eq_refl eq_refl eq_refl) as [_ [Hok _]].
    exact (proj1 (Hok eq_refl eq_refl eq_refl)).
  - destruct (azure_retry_then_fallback azureDown
                (mkRequest "https://example.com/plain.mp3" (Some "english")))
      as [_ [_ [_ [_ Hall]]]].
    destruct (Hall eq_refl Hregion eq_refl eq_refl eq_refl eq_refl) as [_ [_ Hno]].
    exact (proj1 (Hno (or_introl eq_refl))).
  - destruct (azure_retry_then_fallback azureDown plainRequest) as [Hdelay _].
    rewrite (Hdelay 2 ltac:(lia)). reflexivity.
Defined.

(** * Further properties of the services *)

(** ** How a stored record evolves *)

(** X2. No action removes a record or touches what was fixed when it was
    created: after any sequence of actions the id still resolves, to a
    document with the same audio URL, transcription text, source, language
    and creation date. *)
Theorem creation_fields_are_kept (actions : list Action) (w : World) (i : ObjectId)
    (d : ITranscription) :
  find (hasId i) (collection w) = Some d ->
  exists d',
    find (hasId i) (collection (run actions w)) = Some d'
    /\ _id d' = _id d /\ audioUrl d' = audioUrl d
    /\ transcription d' = transcription d /\ source d' = source d
    /\ language d' = language d /\ createdAt d' = createdAt d.
Proof.
  revert w d. induction actions as [|a actions IH]; intros w d Hd; simpl.
  - exists d. repeat split; auto.
  - destruct (perform_evolution a w i d Hd)
      as [H|[request [stamp [cur [_ [_ [_ H]]]]]]].
    + exact (IH _ _ H).
    + destruct (IH _ _ H) as [d' [Hf [H1 [H2 [H3 [H4 [H5 H6]]]]]]].
      exists d'. repeat split; auto.
Qed.

(** X3. The history of a record only grows at its end: after any sequence
    of actions the history stored is the earlier history followed by new
    entries, at most one per action. *)
Theorem history_is_append_only (actions : list Action) (w : World) (i : ObjectId)
    (d : ITranscription) :
  find (hasId i) (collection w) = Some d ->
  exists d' added,
    find (hasId i) (collection (run actions w)) = Some d'
    /\ historyOf d' = (historyOf d ++ added)%list
    /\ (List.length added <= List.length actions)%nat.
Proof.
  revert w d. induction actions as [|a actions IH]; intros w d Hd; simpl.
  - exists d, []. rewrite app_nil_r. auto.
  - destruct (perform_evolution a w i d Hd)
      as [H|[request [stamp [cur [_ [_ [_ H]]]]]]].
    + destruct (IH _ _ H) as [d' [added [Hf [Hh Hl]]]].
      exists d', added. repeat split; auto.
    + destruct (IH _ _ H) as [d' [added [Hf [Hh Hl]]]].
      exists d', (mkEntry (newStatus request) stamp (requestComment request)
                    (requestReviewedBy request) :: added).
      split; [exact Hf|]. split.
      * rewrite Hh. unfold historyOf, WorkflowService.recordTransition.
        cbn [workflowHistory]. rewrite <- app_assoc. reflexivity.
      * simpl. lia.
Qed.

Lemma creation_fields_are_kept_witness :
  exists d',
    find (hasId 0%nat) (collection (run meddling intake)) = Some d'
    /\ audioUrl d' = "https://example.com/a.mp3" /\ createdAt d' = 300.
Proof.
  destruct (find (hasId 0%nat) (collection intake)) as [d|] eqn:Hd;
    [|vm_compute in Hd; discriminate].
  destruct (creation_fields_are_kept meddling intake 0%nat d Hd)
    as [d' [Hf [_ [Hu [_ [_ [_ Hc]]]]]]].
  exists d'. split; [exact Hf|].
  vm_compute in Hd. injection Hd as <-. split; [exact Hu | exact Hc].
Defined.

Lemma history_is_append_only_witness :
  exists d' added,
    find (hasId 0%nat) (collection (run meddling intake)) = Some d'
    /\ map status (historyOf d') = ("transcription" :: map status added)
    /\ (List.length added <= 4)%nat.
Proof.
  destruct (find (hasId 0%nat) (collection intake)) as [d|] eqn:Hd;
    [|vm_compute in Hd; discriminate].
  destruct (history_is_append_only meddling intake 0%nat d Hd)
    as [d' [added [Hf [Hh Hl]]]].
  exists d', added. split; [exact Hf|]. split; [|exact Hl].
  rewrite Hh, map_app. vm_compute in Hd. injection Hd as <-. reflexivity.
Defined.

(** ** Stored documents and the validators *)

Lemma createWorkflow_valid (request : WorkflowCreateRequest) (w : World) :
  let w' := snd (WorkflowService.createWorkflow request w) in
  collection w' = collection w
  \/ exists d, collection w' = (collection w ++ [d])%list /\ Schema.pathErrors d = [].
Proof.
  unfold WorkflowService.createWorkflow, WorkflowService.mockAudioDownload,
    WorkflowService.generateMockTranscription.
  async_unfold. world_simpl.
  destruct (lessThan (randomAt (entropy w) (draws w)) (2 # 100)); world_simpl;
    [left; reflexivity|].
  destruct (Schema.pathErrors _) eqn:Hvalid; world_simpl; [|left; reflexivity].
  repeat (break_match; world_simpl);
    first [left; reflexivity | right; eexists; split; [reflexivity | exact Hvalid]].
Qed.

Lemma createTranscription_valid (request : TranscriptionRequest) (w : World) :
  let w' := snd (TranscriptionService.createTranscription request w) in
  collection w' = collection w
  \/ exists d, collection w' = (collection w ++ [d])%list /\ Schema.pathErrors d = [].
Proof.
  unfold TranscriptionService.createTranscription,
    TranscriptionService.mockAudioDownload,
    TranscriptionService.generateMockTranscription.
  async_unfold. world_simpl.
  destruct (lessThan (randomAt (entropy w) (draws w)) (5 # 100)); world_simpl;
    [left; reflexivity|].
  destruct (Schema.pathErrors _) eqn:Hvalid; world_simpl; [|left; reflexivity].
  repeat (break_match; world_simpl);
    first [left; reflexivity | right; eexists; split; [reflexivity | exact Hvalid]].
Qed.

Lemma createAzureTranscription_valid (request : TranscriptionRequest) (w : World) :
  let w' := snd (AzureService.createAzureTranscription request w) in
  collection w' = collection w
  \/ exists d, collection w' = (collection w ++ [d])%list /\ Schema.pathErrors d = [].
Proof.
  unfold AzureService.createAzureTranscription,
    AzureService.fallbackToMockTranscription,
    AzureService.validateAzureConfig, AzureService.downloadAudioForAzure.
  rewrite withRetry_unfold. unfold AzureService.callAzureSpeechService.
  async_unfold. world_simpl.
  repeat (break_match; world_simpl);
    first [ left; reflexivity
          | right; eexists; split; [reflexivity | eassumption] ].
Qed.

Lemma historyErrors_app (k : nat) (h h' : list HistoryEntry) :
  Schema.historyErrors k (h ++ h')%list =
  (Schema.historyErrors k h ++ Schema.historyErrors (List.length h + k) h')%list.
Proof.
  revert k. induction h as [|e h IH]; intros k; [reflexivity|].
  cbn [app Schema.historyErrors List.length]. rewrite IH, <- app_assoc.
  replace (List.length h + S k)%nat with (S (List.length h) + k)%nat by lia.
  reflexivity.
Qed.

Lemma pathErrors_recordTransition (request : WorkflowTransitionRequest)
    (at1 at2 : Z) (t : ITranscription) (current : string) :
  Schema.pathErrors t = [] ->
  In (newStatus request) (allowedNext current) ->
  Schema.pathErrors (WorkflowService.recordTransition request at1 at2 t) = [].
Proof.
  unfold Schema.pathErrors, WorkflowService.recordTransition.
  cbn [audioUrl transcription source language workflowStatus workflowHistory].
  intros H Hin.
  apply app_eq_nil in H. destruct H as [H1 H].
  apply app_eq_nil in H. destruct H as [H2 H].
  apply app_eq_nil in H. destruct H as [H3 H].
  apply app_eq_nil in H. destruct H as [H4 H].
  apply app_eq_nil in H. destruct H as [_ H6].
  rewrite H1, H2, H3, H4. cbn [app].
  apply allowedNext_enum in Hin.
  assert (Hne : String.eqb (newStatus request) "" = false).
  { apply enum_cases in Hin.
    destruct Hin as [E|[E|[E|[E|E]]]]; rewrite E; reflexivity. }
  apply includes_In in Hin. rewrite Hin. cbn [negb app].
  rewrite historyErrors_app, H6. cbn [Schema.historyErrors status app].
  rewrite Hne. reflexivity.
Qed.

Lemma perform_valid (a : Action) (w : World) :
  Forall (fun d => Schema.pathErrors d = []) (collection w) ->
  Forall (fun d => Schema.pathErrors d = []) (collection (perform a w)).
Proof.
  intros Hw.
  assert (Hmoved : forall request stamp t current,
             find (hasId (transcriptionId request)) (collection w) = Some t ->
             In (newStatus request) (allowedNext current) ->
             Forall (fun d => Schema.pathErrors d = [])
               (replaceDoc (WorkflowService.recordTransition request stamp stamp t)
                  (collection w))).
  { intros request stamp t current Hfind Hin.
    apply Forall_replaceDoc; [|exact Hw].
    apply pathErrors_recordTransition with (current := current); [|exact Hin].
    rewrite Forall_forall in Hw. apply Hw. apply (find_target _ _ _ Hfind). }
  destruct a; simpl.
  - destruct (createWorkflow_valid request w) as [Hc|[d [Hc Hd]]];
      rewrite Hc; [exact Hw | apply Forall_snoc; assumption].
  - destruct (transitionWorkflow_effect request w)
      as [[_ [Hc _]]|[t [cur [Hfind [_ [Hin [_ Hc]]]]]]]; rewrite Hc; [exact Hw|].
    exact (Hmoved _ _ _ _ Hfind Hin).
  - destruct (putTransition_effect id0 body w)
      as [Hc|[request [t [cur [stamp' [Hfind [_ [Hin Hc]]]]]]]]; rewrite Hc; [exact Hw|].
    exact (Hmoved _ _ _ _ Hfind Hin).
  - rewrite getWorkflowStatus_collection. exact Hw.
  - rewrite listWorkflows_collection. exact Hw.
  - destruct (createTranscription_valid request w) as [Hc|[d [Hc Hd]]];
      rewrite Hc; [exact Hw | apply Forall_snoc; assumption].
  - destruct (createAzureTranscription_valid request w) as [Hc|[d [Hc Hd]]];
      rewrite Hc; [exact Hw | apply Forall_snoc; assumption].
  - destruct (0 <=? ms); exact Hw.
  - destruct (fireTimer_effect k w)
      as [_ [Hc|[request [t [cur [stamp' [_ [Hfind [_ [Hin Hc]]]]]]]]]];
      rewrite Hc; [exact Hw|].
    exact (Hmoved _ _ _ _ Hfind Hin).
Qed.

(** X21. Every document that a process started on an empty collection has
    stored passes the validators of the schema, after any sequence of
    actions and after two transitions whose reads overlap; and so does the
    document as an allowed transition leaves it.  The validation that [save]
    repeats on a document it had loaded therefore never fails in such a
    process. *)
Theorem stored_documents_pass_validation (faults : nat -> option string)
    (bits : nat -> N) (actions : list Action) :
  let w := run actions (boot faults bits) in
  Forall (fun d => Schema.pathErrors d = []) (collection w)
  /\ (forall a b,
        Forall (fun d => Schema.pathErrors d = [])
          (collection (snd (racingTransitions a b w))))
  /\ (forall d request stamp current,
        In d (collection w) ->
        In (newStatus request) (allowedNext current) ->
        Schema.pathErrors (WorkflowService.recordTransition request stamp stamp d) = []).
Proof.
  intros w.
  assert (Hall : forall acts w0,
             Forall (fun d => Schema.pathErrors d = []) (collection w0) ->
             Forall (fun d => Schema.pathErrors d = []) (collection (run acts w0))).
  { induction acts as [|a acts IH]; intros w0 Hw; simpl; [exact Hw|].
    apply IH. apply perform_valid. exact Hw. }
  assert (Hw : Forall (fun d => Schema.pathErrors d = []) (collection w)).
  { apply Hall. constructor. }
  split; [exact Hw|]. split.
  - intros a b.
    apply (racingTransitions_keeps (fun d => Schema.pathErrors d = [])); [|exact Hw].
    intros q at1 at2 t current Ht Hin.
    apply pathErrors_recordTransition with (current := current); assumption.
  - intros d request stamp current Hin Hallowed.
    apply pathErrors_recordTransition with (current := current); [|exact Hallowed].
    rewrite Forall_forall in Hw. apply Hw. exact Hin.
Qed.

(** ** What a successful call leaves behind *)

Lemma transitionWorkflow_returned (request : WorkflowTransitionRequest) (w : World)
    (view : WorkflowStatusResponse) :
  fst (WorkflowService.transitionWorkflow request w) = Returned view ->
  exists t current,
    find (hasId (transcriptionId request)) (collection w) = Some t
    /\ workflowStatus (Schema.hydrate t) = Some current
    /\ In (newStatus request) (allowedNext current)
    /\ WorkflowService.transitionWorkflow request w =
       (Returned (WorkflowService.formatWorkflowResponse
                    (WorkflowService.recordTransition request (clock w) (clock w) t)),
        followUp request
          (withCollection
             (replaceDoc (WorkflowService.recordTransition request (clock w) (clock w) t)
                (collection w))
             (withStoreOps (S (S (storeOps w))) w))).
Proof.
  unfold WorkflowService.transitionWorkflow. rewrite tryCatch_rethrow.
  destruct (transcriptionId request) as [oid|e] eqn:Hreq; [|cbn; discriminate].
  unfold bind.
  destruct (storeFault w (storeOps w)) eqn:Hf.
  { unfold findById. async_unfold. rewrite Hf. cbn. discriminate. }
  rewrite (findById_hex oid w Hf).
  destruct (find (hasId oid) (collection w)) as [t|] eqn:Hfind;
    cbn [option_map]; [|cbn; discriminate].
  unfold WorkflowService.applyTransition, followUp.
  destruct (JS.truthy (workflowStatus (Schema.hydrate t))) eqn:Ht;
    cbv beta iota delta [negb]; [|cbn; discriminate].
  destruct (hydrate_truthy _ Ht) as [current [Hst [Ho _]]]. rewrite Ho.
  destruct (JS.prop WorkflowService.validTransitions current) as [next|] eqn:Hp;
    [|cbn; discriminate].
  destruct (JS.includes next (newStatus request)) eqn:Hi; [|cbn; discriminate].
  async_unfold. world_simpl.
  destruct (storeFault w (S (storeOps w))) eqn:Hf2; world_simpl; [discriminate|].
  rewrite !recordTransition_hydrate.
  change (_id (WorkflowService.recordTransition request (clock w) (clock w) t))
    with (_id t).
  destruct (find_hasId _ _ _ Hfind) as [Hid _]. rewrite Hid, Hfind.
  intros _. exists t, current.
  assert (Hin : In (newStatus request) (allowedNext current)).
  { unfold allowedNext. rewrite Hp. apply includes_In. exact Hi. }
  split; [reflexivity|]. split; [exact Hst|]. split; [exact Hin|].
  rewrite Hreq.
  destruct (String.eqb (newStatus request) "review"); world_simpl; [reflexivity|].
  destruct (String.eqb (newStatus request) "approval"); reflexivity.
Qed.

Lemma createWorkflow_returned (request : WorkflowCreateRequest) (w : World)
    (view : WorkflowStatusResponse) :
  fst (WorkflowService.createWorkflow request w) = Returned view ->
  let w' := snd (WorkflowService.createWorkflow request w) in
  exists d,
    view = WorkflowService.formatWorkflowResponse d
    /\ _id d = nextObjectId w
    /\ workflowStatus d = Some "transcription"
    /\ workflowHistory d =
       Some [mkEntry "transcription" (clock w + 300)
               (Some "Workflow initiated - transcription completed") None]
    /\ find (hasId (nextObjectId w)) (collection w) = None
    /\ collection w' = (collection w ++ [d])%list
    /\ timers w' = (timers w ++ [mkTimer (clock w + 300 + 2000) (nextObjectId w)])%list
    /\ clock w' = clock w + 300
    /\ storeOps w' = S (storeOps w)
    /\ storeFault w' = storeFault w.
Proof.
  unfold WorkflowService.createWorkflow, WorkflowService.mockAudioDownload,
    WorkflowService.generateMockTranscription.
  async_unfold. world_simpl.
  destruct (lessThan (randomAt (entropy w) (draws w)) (2 # 100)); world_simpl;
    [discriminate|].
  destruct (Schema.pathErrors _); world_simpl; [|discriminate].
  destruct (storeFault w (storeOps w)); world_simpl; [discriminate|].
  destruct (find (hasId (nextObjectId w)) (collection w)) eqn:Hfresh; world_simpl;
    [discriminate|].
  intros Hv. injection Hv as Hv. eexists.
  split; [symmetry; exact Hv|]. repeat split; reflexivity.
Qed.

Lemma getWorkflowStatus_found (i : IdString) (w : World) (d : ITranscription) :
  storeFault w (storeOps w) = None ->
  find (hasId i) (collection w) = Some d ->
  fst (WorkflowService.getWorkflowStatus i w) =
  Returned (WorkflowService.formatWorkflowResponse d).
Proof.
  intros Hf Hd. rewrite (getWorkflowStatus_read _ _ _ Hf Hd). cbn [fst].
  rewrite formatWorkflowResponse_hydrate. reflexivity.
Qed.

(** X4. What a successful write returns is what a read returns next: with a
    store that answers, [getWorkflowStatus] called right after a successful
    [transitionWorkflow] or [createWorkflow], on the id of the view they
    returned, returns that same view. *)
Theorem status_read_after_write (w : World) (view : WorkflowStatusResponse) :
  (forall request,
     responsive 3 w ->
     fst (WorkflowService.transitionWorkflow request w) = Returned view ->
     fst (WorkflowService.getWorkflowStatus (id view)
            (snd (WorkflowService.transitionWorkflow request w))) = Returned view)
  /\ (forall request,
        responsive 2 w ->
        fst (WorkflowService.createWorkflow request w) = Returned view ->
        fst (WorkflowService.getWorkflowStatus (id view)
               (snd (WorkflowService.createWorkflow request w))) = Returned view).
Proof.
  split.
  - intros request Hr Hret.
    destruct (transitionWorkflow_returned request w view Hret)
      as [t [cur [Hfind [_ [_ Hrun]]]]].
    rewrite Hrun in Hret. cbn [fst] in Hret. injection Hret as Hv.
    rewrite Hrun. cbn [snd].
    set (t' := WorkflowService.recordTransition request (clock w) (clock w) t) in *.
    destruct (followUp_frame request
                (withCollection (replaceDoc t' (collection w))
                   (withStoreOps (S (S (storeOps w))) w)))
      as [Hc [Hsf [Hso _]]].
    world_simpl_in Hc. world_simpl_in Hsf. world_simpl_in Hso.
    rewrite <- Hv. apply getWorkflowStatus_found.
    + rewrite Hsf, Hso.
      replace (S (S (storeOps w))) with (storeOps w + 2)%nat by lia.
      apply Hr. lia.
    + rewrite Hc. destruct (find_target _ _ _ Hfind) as [Hid _].
      change (id (WorkflowService.formatWorkflowResponse t')) with (_id t).
      change (_id t) with (_id t').
      apply find_replaceDoc_same. change (_id t') with (_id t).
      rewrite Hid. congruence.
  - intros request Hr Hret.
    destruct (createWorkflow_returned request w view Hret)
      as [d [Hv [Hid [_ [_ [Hfresh [Hc [_ [_ [Hso Hsf]]]]]]]]]].
    rewrite Hv. apply getWorkflowStatus_found.
    + rewrite Hsf, Hso.
      replace (S (storeOps w)) with (storeOps w + 1)%nat by lia.
      apply Hr. lia.
    + rewrite Hc.
      change (id (WorkflowService.formatWorkflowResponse d)) with (_id d).
      rewrite Hid. apply find_snoc_fresh; assumption.
Qed.

Lemma status_read_after_write_witness :
  exists view,
    fst (WorkflowService.createWorkflow sampleCreate calm) = Returned view
    /\ fst (WorkflowService.getWorkflowStatus (id view)
              (snd (WorkflowService.createWorkflow sampleCreate calm)))
       = Returned view.
Proof.
  destruct (fst (WorkflowService.createWorkflow sampleCreate calm)) as [view|e] eqn:Hret;
    [|vm_compute in Hret; discriminate].
  exists view. split; [reflexivity|].
  assert (Hr : responsive 2 calm) by (intros j _; reflexivity).
  pose proof (proj2 (status_read_after_write calm view) sampleCreate Hr) as H.
  rewrite Hret in H. exact (H eq_refl).
Defined.

(** ** A workflow left to its timers *)

Lemma removeNth_last {A} (pre : list A) (x : A) :
  removeNth (List.length pre) (pre ++ [x]) = pre.
Proof. induction pre as [|y pre IH]; simpl; [reflexivity | rewrite IH; reflexivity]. Qed.

Lemma nth_error_last {A} (pre : list A) (x : A) :
  nth_error (pre ++ [x]) (List.length pre) = Some x.
Proof. induction pre as [|y pre IH]; simpl; auto. Qed.

Lemma fire_advances (w : World) (pre : list Timer) (due0 : Z) (i : ObjectId)
    (t : ITranscription) (current next note : string) :
  timers w = (pre ++ [mkTimer due0 i])%list ->
  due0 <= clock w ->
  responsive 3 w ->
  find (hasId i) (collection w) = Some t ->
  workflowStatus t = Some current ->
  (current = "transcription" /\ next = "review"
   /\ note = "Auto-progressed to review phase")
  \/ (current = "review" /\ next = "approval"
      /\ note = "Auto-progressed to approval phase")
  \/ (current = "approval" /\ next = "completed"
      /\ note = "Auto-completed workflow") ->
  let w' := snd (fireTimer (List.length pre) w) in
  let request := mkTransition i next (Some note) (Some "system") in
  find (hasId i) (collection w')
  = Some (WorkflowService.recordTransition request (clock w) (clock w) t)
  /\ timers w' =
     (pre ++ (if String.eqb next "review" then [mkTimer (clock w + 3000) i]
              else if String.eqb next "approval" then [mkTimer (clock w + 5000) i]
              else []))%list
  /\ clock w' = clock w
  /\ storeOps w' = S (S (S (storeOps w)))
  /\ storeFault w' = storeFault w.
Proof.
  intros Htimers Hdue Hr Hfind Hst Hcase w' request.
  set (w0 := withTimers pre w).
  assert (Hfire : fireTimer (List.length pre) w
                  = WorkflowService.autoProgressWorkflow i w0).
  { unfold fireTimer. rewrite Htimers, nth_error_last. cbn [due target].
    apply Z.leb_le in Hdue. rewrite Hdue, removeNth_last. reflexivity. }
  pose proof (autoProgressWorkflow_advances w0 i t current next note Hr Hfind
                (hydrate_status _ _ Hst) Hcase) as H.
  cbv zeta in H. subst w'. rewrite Hfire, H. cbn [snd].
  fold request.
  set (t' := WorkflowService.recordTransition request (clock w0) (clock w0) t).
  assert (Hfound : find (hasId i) (replaceDoc t' (collection w)) = Some t').
  { destruct (find_hasId _ _ _ Hfind) as [Hid _].
    rewrite <- Hid. change (_id t) with (_id t').
    apply find_replaceDoc_same. change (_id t') with (_id t).
    rewrite Hid. congruence. }
  unfold followUp. cbn [newStatus transcriptionId request].
  destruct (String.eqb next "review").
  - async_unfold. world_simpl. repeat split; auto.
  - destruct (String.eqb next "approval").
    + async_unfold. world_simpl. repeat split; auto.
    + world_simpl. rewrite app_nil_r. repeat split; auto.
Qed.

(** X5. A workflow nobody touches runs to the end by itself.  If
    [createWorkflow] returns and the store answers, then letting 2000, 3000
    and 5000 milliseconds pass and the pending timer of the record fire each
    time leaves the record completed, with the history transcription,
    review, approval, completed, the last three entries attributed to
    "system", and no timer for it left. *)
Theorem unattended_workflow_completes (w : World) (request : WorkflowCreateRequest)
    (view : WorkflowStatusResponse) :
  fst (WorkflowService.createWorkflow request w) = Returned view ->
  responsive 10 w ->
  let n := List.length (timers w) in
  let w' := run [CreateWorkflow request;
                 TimePasses 2000; TimerFires n;
                 TimePasses 3000; TimerFires n;
                 TimePasses 5000; TimerFires n] w in
  exists d,
    find (hasId (id view)) (collection w') = Some d
    /\ workflowStatus d = Some "completed"
    /\ map status (historyOf d) = ["transcription"; "review"; "approval"; "completed"]
    /\ map reviewedBy (historyOf d) = [None; Some "system"; Some "system"; Some "system"]
    /\ timers w' = timers w
    /\ clock w' = clock w + 10300.
Proof.
  intros Hret Hr n w'.
  destruct (createWorkflow_returned request w view Hret)
    as [d [Hv [Hid [Hst [Hh [Hfresh [Hc [Ht [Hk [Hso Hsf]]]]]]]]]].
  set (w1 := snd (WorkflowService.createWorkflow request w)) in *.
  assert (Hd1 : find (hasId (nextObjectId w)) (collection w1) = Some d).
  { rewrite Hc. apply find_snoc_fresh; assumption. }
  (* first timer *)
  set (w2 := withClock (clock w1 + 2000) w1).
  assert (Hr2 : responsive 3 w2).
  { intros k Hlt. change (storeFault w2) with (storeFault w1).
    change (storeOps w2) with (storeOps w1). rewrite Hsf, Hso.
    replace (S (storeOps w) + k)%nat with (storeOps w + (1 + k))%nat by lia.
    apply Hr. lia. }
  assert (Hdue2 : clock w + 300 + 2000 <= clock w2).
  { change (clock w2) with (clock w1 + 2000). lia. }
  destruct (fire_advances w2 (timers w) (clock w + 300 + 2000) (nextObjectId w) d
              "transcription" "review" "Auto-progressed to review phase"
              Ht Hdue2 Hr2 Hd1 Hst (or_introl (conj eq_refl (conj eq_refl eq_refl))))
    as [Hd3 [Ht3 [Hk3 [Hso3 Hsf3]]]].
  set (w3 := snd (fireTimer (List.length (timers w)) w2)) in *.
  cbn [String.eqb Ascii.eqb Bool.eqb] in Ht3.
  (* second timer *)
  set (w4 := withClock (clock w3 + 3000) w3).
  assert (Hr4 : responsive 3 w4).
  { intros k Hlt. change (storeFault w4) with (storeFault w3).
    change (storeOps w4) with (storeOps w3). rewrite Hsf3, Hso3.
    change (storeFault w2) with (storeFault w1).
    change (storeOps w2) with (storeOps w1). rewrite Hsf, Hso.
    replace (S (S (S (S (storeOps w)))) + k)%nat with (storeOps w + (4 + k))%nat by lia.
    apply Hr. lia. }
  assert (Hdue4 : clock w2 + 3000 <= clock w4).
  { change (clock w4) with (clock w3 + 3000). lia. }
  destruct (fire_advances w4 (timers w) (clock w2 + 3000) (nextObjectId w) _
              "review" "approval" "Auto-progressed to approval phase"
              Ht3 Hdue4 Hr4 Hd3 eq_refl
              (or_intror (or_introl (conj eq_refl (conj eq_refl eq_refl)))))
    as [Hd5 [Ht5 [Hk5 [Hso5 Hsf5]]]].
  set (w5 := snd (fireTimer (List.length (timers w)) w4)) in *.
  cbn [String.eqb Ascii.eqb Bool.eqb] in Ht5.
  (* third timer *)
  set (w6 := withClock (clock w5 + 5000) w5).
  assert (Hr6 : responsive 3 w6).
  { intros k Hlt. change (storeFault w6) with (storeFault w5).
    change (storeOps w6) with (storeOps w5). rewrite Hsf5, Hso5.
    change (storeFault w4) with (storeFault w3).
    change (storeOps w4) with (storeOps w3). rewrite Hsf3, Hso3.
    change (storeFault w2) with (storeFault w1).
    change (storeOps w2) with (storeOps w1). rewrite Hsf, Hso.
    replace (S (S (S (S (S (S (S (storeOps w))))))) + k)%nat
      with (storeOps w + (7 + k))%nat by lia.
    apply Hr. lia. }
  assert (Hdue6 : clock w4 + 5000 <= clock w6).
  { change (clock w6) with (clock w5 + 5000). lia. }
  destruct (fire_advances w6 (timers w) (clock w4 + 5000) (nextObjectId w) _
              "approval" "completed" "Auto-completed workflow"
              Ht5 Hdue6 Hr6 Hd5 eq_refl
              (or_intror (or_intror (conj eq_refl (conj eq_refl eq_refl)))))
    as [Hd7 [Ht7 [Hk7 _]]].
  cbn [String.eqb Ascii.eqb Bool.eqb] in Ht7. rewrite app_nil_r in Ht7.
  assert (Hw' : w' = snd (fireTimer (List.length (timers w)) w6)).
  { subst w' n. unfold run. cbn [fold_left perform Z.leb Z.compare].
    reflexivity. }
  rewrite Hw'. eexists. split.
  - rewrite Hv.
    change (id (WorkflowService.formatWorkflowResponse d)) with (_id d).
    rewrite Hid. exact Hd7.
  - split; [reflexivity|].
    unfold historyOf, WorkflowService.recordTransition. cbn [workflowHistory].
    rewrite Hh. cbn.
    split; [reflexivity|]. split; [reflexivity|]. split; [exact Ht7|].
    rewrite Hk7. change (clock w6) with (clock w5 + 5000). rewrite Hk5.
    change (clock w4) with (clock w3 + 3000). rewrite Hk3.
    change (clock w2) with (clock w1 + 2000). rewrite Hk. lia.
Qed.

Lemma unattended_workflow_completes_witness :
  exists d,
    find (hasId 0%nat) (collection finished) = Some d
    /\ workflowStatus d = Some "completed"
    /\ timers finished = [].
Proof.
  destruct (fst (WorkflowService.createWorkflow sampleCreate calm)) as [view|e] eqn:Hret;
    [|vm_compute in Hret; discriminate].
  assert (Hr : responsive 10 calm) by (intros j _; reflexivity).
  pose proof (unattended_workflow_completes calm sampleCreate view Hret Hr) as H.
  cbv zeta in H. destruct H as [d [Hf [Hs [_ [_ [Ht _]]]]]].
  exists d. split; [|split; [exact Hs | exact Ht]].
  vm_compute in Hret. injection Hret as <-. exact Hf.
Defined.

(** ** The answers of [PUT /workflow/:id/transition] *)




(** ** Statistics *)

Lemma prop_countInGroup (key s : string) (groups : list (string * nat)) :
  JS.prop (WorkflowService.countInGroup key groups) s =
  if String.eqb key s then Some (S (valueAt groups key)) else JS.prop groups s.
Proof.
  unfold valueAt. induction groups as [|[k n] rest IH]; simpl.
  - destruct (String.eqb key s); reflexivity.
  - destruct (String.eqb_spec k key) as [->|Hk]; simpl.
    + destruct (String.eqb key s); reflexivity.
    + rewrite IH. destruct (String.eqb_spec key s) as [->|Hs].
      * apply String.eqb_neq in Hk. rewrite Hk. reflexivity.
      * reflexivity.
Qed.

Lemma sumValues_from (obj : list (string * nat)) (start : nat) :
  fold_left (fun sum entry => (sum + snd entry)%nat) obj start
  = (start + WorkflowController.sumValues obj)%nat.
Proof.
  unfold WorkflowController.sumValues. revert start.
  induction obj as [|e obj IH]; intros start; simpl.
  - lia.
  - rewrite IH, (IH (snd e)). lia.
Qed.

Lemma sumValues_cons (e : string * nat) (obj : list (string * nat)) :
  WorkflowController.sumValues (e :: obj)
  = (snd e + WorkflowController.sumValues obj)%nat.
Proof.
  unfold WorkflowController.sumValues at 1. simpl. apply sumValues_from.
Qed.

Lemma sumValues_countInGroup (key : string) (groups : list (string * nat)) :
  WorkflowController.sumValues (WorkflowService.countInGroup key groups)
  = S (WorkflowController.sumValues groups).
Proof.
  induction groups as [|[k n] rest IH]; simpl.
  - reflexivity.
  - destruct (String.eqb k key); rewrite !sumValues_cons; simpl; [lia|].
    rewrite IH. lia.
Qed.

Lemma keys_countInGroup (key : string) (groups : list (string * nat)) :
  NoDup (map fst groups) ->
  NoDup (map fst (WorkflowService.countInGroup key groups))
  /\ forall k, In k (map fst (WorkflowService.countInGroup key groups)) ->
               k = key \/ In k (map fst groups).
Proof.
  induction groups as [|[k n] rest IH]; simpl; intros Hnd.
  - split; [repeat constructor; auto | intuition].
  - inversion Hnd as [|? ? Hnotin Hrest]; subst.
    destruct (String.eqb_spec k key) as [->|Hk]; simpl.
    + split; [exact Hnd | intuition].
    + destruct (IH Hrest) as [Hnd' Hin']. split.
      * constructor; [|exact Hnd'].
        intros Hin. apply Hin' in Hin. destruct Hin as [->|Hin]; auto.
      * intros x [->|Hx]; auto. apply Hin' in Hx. intuition.
Qed.

Lemma withWorkflow_cons (d : ITranscription) (docs : list ITranscription) :
  withWorkflow (d :: docs) =
  match workflowStatus d with
  | Some _ => S (withWorkflow docs)
  | None => withWorkflow docs
  end.
Proof.
  unfold withWorkflow. simpl. unfold WorkflowService.matches at 1.
  destruct (workflowStatus d); reflexivity.
Qed.

Lemma withStatus_cons (s : string) (d : ITranscription) (docs : list ITranscription) :
  withStatus s (d :: docs) =
  match workflowStatus d with
  | Some x => if String.eqb x s then S (withStatus s docs) else withStatus s docs
  | None => withStatus s docs
  end.
Proof.
  unfold withStatus. simpl. unfold WorkflowService.matches at 1.
  destruct (workflowStatus d) as [x|]; [|reflexivity].
  destruct (String.eqb x s); reflexivity.
Qed.

(** The groups of a collection, started from groups already counted. *)
Lemma groups_fold (docs : list ITranscription) (groups : list (string * nat)) :
  NoDup (map fst groups) ->
  let counted :=
    fold_left
      (fun groups d =>
         match workflowStatus d with
         | Some s => WorkflowService.countInGroup s groups
         | None => groups
         end)
      docs groups in
  NoDup (map fst counted)
  /\ WorkflowController.sumValues counted
     = (WorkflowController.sumValues groups + withWorkflow docs)%nat
  /\ forall s,
       JS.prop counted s =
       match JS.prop groups s, withStatus s docs with
       | None, O => None
       | _, n => Some (valueAt groups s + n)%nat
       end.
Proof.
  revert groups. induction docs as [|d docs IH]; intros groups Hnd; cbn [fold_left].
  - split; [exact Hnd|]. split; [unfold withWorkflow; simpl; lia|].
    intros s. unfold valueAt, withStatus. simpl.
    destruct (JS.prop groups s); [f_equal; lia | reflexivity].
  - rewrite withWorkflow_cons.
    destruct (workflowStatus d) as [x|] eqn:Hx.
    + destruct (keys_countInGroup x groups Hnd) as [Hnd' _].
      destruct (IH _ Hnd') as [H1 [H2 H3]].
      split; [exact H1|]. split.
      * rewrite H2, sumValues_countInGroup. lia.
      * intros s. rewrite H3, withStatus_cons, Hx. unfold valueAt.
        rewrite !prop_countInGroup.
        destruct (String.eqb_spec x s) as [->|Hne].
        -- unfold valueAt.
           destruct (JS.prop groups s) eqn:Hp; f_equal; lia.
        -- reflexivity.
    + destruct (IH _ Hnd) as [H1 [H2 H3]].
      split; [exact H1|]. split; [exact H2|].
      intros s. rewrite H3, withStatus_cons, Hx. reflexivity.
Qed.

Lemma prop_setProp (obj : list (string * nat)) (key s : string) (v : nat) :
  JS.prop (WorkflowService.setProp obj key v) s =
  if String.eqb key s then Some v else JS.prop obj s.
Proof.
  induction obj as [|[k n] rest IH]; simpl.
  - destruct (String.eqb key s); reflexivity.
  - destruct (String.eqb_spec k key) as [->|Hk]; simpl.
    + destruct (String.eqb key s); reflexivity.
    + rewrite IH. destruct (String.eqb_spec key s) as [->|Hs].
      * apply String.eqb_neq in Hk. rewrite Hk. reflexivity.
      * reflexivity.
Qed.

Lemma sumValues_setProp (obj : list (string * nat)) (key : string) (v : nat) :
  (WorkflowController.sumValues (WorkflowService.setProp obj key v)
   + valueAt obj key
   = WorkflowController.sumValues obj + v)%nat.
Proof.
  unfold valueAt. induction obj as [|[k n] rest IH]; simpl.
  - unfold WorkflowController.sumValues. simpl. lia.
  - destruct (String.eqb k key); rewrite !sumValues_cons; simpl; lia.
Qed.

(** Assigning the groups to an object whose values under their keys are
    zero. *)
Lemma assign_groups (stats obj : list (string * nat)) :
  NoDup (map fst stats) ->
  (forall k, In k (map fst stats) -> valueAt obj k = 0%nat) ->
  let result :=
    fold_left (fun result stat => WorkflowService.setProp result (fst stat) (snd stat))
      stats obj in
  WorkflowController.sumValues result
  = (WorkflowController.sumValues obj + WorkflowController.sumValues stats)%nat
  /\ forall s,
       JS.prop result s =
       match JS.prop stats s with
       | Some n => Some n
       | None => JS.prop obj s
       end.
Proof.
  revert obj. induction stats as [|[k n] stats IH]; intros obj Hnd Hzero; simpl.
  - split; [unfold WorkflowController.sumValues at 3; simpl; lia | reflexivity].
  - inversion Hnd as [|? ? Hnotin Hrest]; subst.
    assert (Hzero' : forall k', In k' (map fst stats) ->
                                valueAt (WorkflowService.setProp obj k n) k' = 0%nat).
    { intros k' Hin. unfold valueAt. rewrite prop_setProp.
      destruct (String.eqb_spec k k') as [->|Hne]; [contradiction|].
      apply (Hzero k'). right. exact Hin. }
    destruct (IH _ Hrest Hzero') as [H1 H2]. split.
    + rewrite H1, sumValues_cons. simpl.
      pose proof (sumValues_setProp obj k n) as Hs.
      rewrite (Hzero k) in Hs by (left; reflexivity). lia.
    + intros s. rewrite H2, prop_setProp.
      destruct (String.eqb_spec k s) as [->|Hne].
      * destruct (JS.prop stats s) eqn:Hp; [|reflexivity].
        exfalso. apply Hnotin. clear -Hp.
        induction stats as [|[k' n'] stats IH]; simpl in *; [discriminate|].
        destruct (String.eqb_spec k' s); [left; assumption | right; auto].
      * reflexivity.
Qed.

Lemma withWorkflow_filter (docs : list ITranscription) :
  withWorkflow (List.filter (WorkflowService.matches WorkflowService.StatusExists) docs)
  = withWorkflow docs.
Proof.
  induction docs as [|d docs IH]; [reflexivity|].
  cbn [List.filter]. unfold WorkflowService.matches at 1.
  rewrite (withWorkflow_cons d docs).
  destruct (workflowStatus d) eqn:Hd; [|exact IH].
  rewrite withWorkflow_cons, Hd, IH. reflexivity.
Qed.

Lemma withStatus_filter (s : string) (docs : list ITranscription) :
  withStatus s (List.filter (WorkflowService.matches WorkflowService.StatusExists) docs)
  = withStatus s docs.
Proof.
  induction docs as [|d docs IH]; [reflexivity|].
  cbn [List.filter]. unfold WorkflowService.matches at 1.
  rewrite (withStatus_cons s d docs).
  destruct (workflowStatus d) eqn:Hd; [|exact IH].
  rewrite withStatus_cons, Hd, IH. reflexivity.
Qed.

Lemma getWorkflowStats_result (w : World) :
  storeFault w (storeOps w) = None ->
  exists result,
    WorkflowService.getWorkflowStats w =
      (Returned result, withStoreOps (S (storeOps w)) w)
    /\ WorkflowController.sumValues result = withWorkflow (collection w)
    /\ forall s,
         JS.prop result s =
         if in_dec string_dec s workflowStatusEnum
         then Some (withStatus s (collection w))
         else match withStatus s (collection w) with
              | O => None
              | n => Some n
              end.
Proof.
  intros Hf.
  unfold WorkflowService.getWorkflowStats, WorkflowService.aggregateByStatus.
  async_unfold. world_simpl. rewrite Hf. cbv beta iota zeta. world_simpl.
  set (docs := List.filter (WorkflowService.matches WorkflowService.StatusExists)
                 (collection w)).
  set (zeros := [("transcription", 0%nat); ("review", 0%nat); ("approval", 0%nat);
                 ("completed", 0%nat); ("rejected", 0%nat)]).
  destruct (groups_fold docs [] (NoDup_nil _)) as [Hnd [Hsum Hprop]].
  fold (WorkflowService.groupByStatus docs) in Hnd, Hsum, Hprop.
  assert (Hzero : forall k, In k (map fst (WorkflowService.groupByStatus docs)) ->
                            valueAt zeros k = 0%nat).
  { intros k _. unfold valueAt, zeros. cbn [JS.prop].
    repeat match goal with
           | |- context [String.eqb ?a ?b] => destruct (String.eqb a b)
           end; reflexivity. }
  destruct (assign_groups (WorkflowService.groupByStatus docs) zeros Hnd Hzero)
    as [Hs Hp].
  eexists. split; [reflexivity|]. split.
  - rewrite Hs, Hsum. unfold docs. rewrite withWorkflow_filter. reflexivity.
  - intros s. rewrite Hp, Hprop. unfold docs. rewrite withStatus_filter.
    cbn [JS.prop]. unfold valueAt. cbn [JS.prop].
    destruct (in_dec string_dec s workflowStatusEnum) as [Hin|Hnot].
    + apply enum_cases in Hin.
      destruct Hin as [-> | [-> | [-> | [-> | ->]]]];
        destruct (withStatus _ (collection w)); reflexivity.
    + assert (Hno : JS.prop zeros s = None).
      { unfold zeros. cbn [JS.prop].
        repeat match goal with
               | |- context [String.eqb ?a s] =>
                   destruct (String.eqb_spec a s) as [<-|_];
                   [exfalso; apply Hnot; simpl; auto 10|]
               end.
        reflexivity. }
      rewrite Hno. destruct (withStatus s (collection w)); reflexivity.
Qed.

(** X7. With a store that answers, [GET /workflow/stats] answers 200 with,
    under each of the five statuses, the number of stored records in that
    status (zero when there is none), and as total the number of records
    that have a workflow status.  The collection is not changed. *)
Theorem stats_count_the_collection (w : World) :
  storeFault w (storeOps w) = None ->
  exists result,
    fst (WorkflowController.getWorkflowStats w) =
      Returned
        (WorkflowController.mkAnswer 200 true
           (Some (WorkflowController.mkStats result (withWorkflow (collection w))))
           None None)
    /\ (forall s, In s workflowStatusEnum ->
                  JS.prop result s = Some (withStatus s (collection w)))
    /\ collection (snd (WorkflowController.getWorkflowStats w)) = collection w.
Proof.
  intros Hf. destruct (getWorkflowStats_result w Hf) as [result [Hrun [Hsum Hprop]]].
  exists result. unfold WorkflowController.getWorkflowStats, tryCatch, bind.
  rewrite Hrun. cbn [ret fst snd]. rewrite Hsum.
  split; [reflexivity|]. split; [|reflexivity].
  intros s Hin. rewrite Hprop.
  destruct (in_dec string_dec s workflowStatusEnum); [reflexivity | contradiction].
Qed.

Lemma stats_count_the_collection_witness :
  exists result,
    fst (WorkflowController.getWorkflowStats twoWorkflows) =
      Returned
        (WorkflowController.mkAnswer 200 true
           (Some (WorkflowController.mkStats result 2)) None None)
    /\ JS.prop result "review" = Some 1%nat
    /\ JS.prop result "completed" = Some 0%nat.
Proof.
  assert (Hf : storeFault twoWorkflows (storeOps twoWorkflows) = None)
    by (vm_compute; reflexivity).
  assert (Hall : withWorkflow (collection twoWorkflows) = 2%nat)
    by (vm_compute; reflexivity).
  assert (Hrev : withStatus "review" (collection twoWorkflows) = 1%nat)
    by (vm_compute; reflexivity).
  assert (Hdone : withStatus "completed" (collection twoWorkflows) = 0%nat)
    by (vm_compute; reflexivity).
  destruct (stats_count_the_collection twoWorkflows Hf) as [result [Hrun [Hprop _]]].
  exists result. rewrite Hall in Hrun. split; [exact Hrun|]. split.
  - rewrite <- Hrev. apply Hprop. simpl. auto.
  - rewrite <- Hdone. apply Hprop. simpl. auto 6.
Defined.

Lemma listWorkflows_total (w : World) (filter : option string) (page limit : Z) :
  responsive 2 w -> 1 <= page -> 1 <= limit ->
  exists listing,
    fst (WorkflowService.listWorkflows filter page limit w) = Returned listing
    /\ total listing =
       List.length (List.filter (WorkflowService.matches (queryFor filter))
                      (collection w)).
Proof.
  intros Hr Hp Hl.
  pose proof (responsive_at 2 0 w Hr ltac:(lia)) as Hf0.
  pose proof (responsive_at 2 1 w Hr ltac:(lia)) as Hf1.
  rewrite Nat.add_0_r in Hf0.
  replace (storeOps w + 1)%nat with (S (storeOps w)) in Hf1 by lia.
  unfold WorkflowService.listWorkflows, WorkflowService.findSorted,
    WorkflowService.countDocuments, WorkflowService.window.
  fold (queryFor filter).
  async_unfold. world_simpl. rewrite Hf0. cbv beta iota zeta. world_simpl.
  assert (Hskip : ((page - 1) * limit <? 0) = false) by (apply Z.ltb_ge; nia).
  assert (Hlim : (limit =? 0) = false) by (apply Z.eqb_neq; lia).
  rewrite Hskip, Hlim. cbv beta iota zeta. world_simpl. rewrite Hf1.
  cbv beta iota zeta. world_simpl.
  eexists. split; reflexivity.
Qed.

(** X8. The statistics and the listing count the same records.  With a
    store that answers, for every valid page and limit: the sum of the
    counts of [getWorkflowStats] is the total of [listWorkflows] without a
    filter, and the count under each of the five statuses is the total of
    [listWorkflows] filtered by that status. *)
Theorem stats_agree_with_listing (w : World) (page limit : Z) :
  responsive 2 w -> 1 <= page -> 1 <= limit ->
  exists result,
    fst (WorkflowService.getWorkflowStats w) = Returned result
    /\ (exists listing,
          fst (WorkflowService.listWorkflows None page limit w) = Returned listing
          /\ total listing = WorkflowController.sumValues result)
    /\ forall s, In s workflowStatusEnum ->
         exists listing,
           fst (WorkflowService.listWorkflows (Some s) page limit w) = Returned listing
           /\ JS.prop result s = Some (total listing).
Proof.
  intros Hr Hp Hl.
  destruct (getWorkflowStats_result w (responsive_head _ _ Hr))
    as [result [Hrun [Hsum Hprop]]].
  exists result. split; [rewrite Hrun; reflexivity|]. split.
  - destruct (listWorkflows_total w None page limit Hr Hp Hl) as [listing [H1 H2]].
    exists listing. split; [exact H1|]. rewrite H2, Hsum. reflexivity.
  - intros s Hin.
    destruct (listWorkflows_total w (Some s) page limit Hr Hp Hl) as [listing [H1 H2]].
    exists listing. split; [exact H1|]. rewrite Hprop, H2.
    destruct (in_dec string_dec s workflowStatusEnum); [|contradiction].
    unfold withStatus, queryFor.
    destruct (enum_truthy s Hin) as [Ht Ho]. rewrite Ht, Ho. reflexivity.
Qed.

Lemma stats_agree_with_listing_witness :
  exists result listing,
    fst (WorkflowService.getWorkflowStats twoWorkflows) = Returned result
    /\ fst (WorkflowService.listWorkflows (Some "review") 1 10 twoWorkflows)
       = Returned listing
    /\ JS.prop result "review" = Some (total listing).
Proof.
  assert (Hr : responsive 2 twoWorkflows) by (intros j _; vm_compute; reflexivity).
  destruct (stats_agree_with_listing twoWorkflows 1 10 Hr ltac:(lia) ltac:(lia))
    as [result [Hrun [_ Hper]]].
  destruct (Hper "review" ltac:(simpl; auto)) as [listing [H1 H2]].
  exists result, listing. auto.
Defined.

(** ** What a timer can write *)

Lemma autoProgressWorkflow_writes (i : IdString) (w : World) :
  let w' := snd (WorkflowService.autoProgressWorkflow i w) in
  collection w' = collection w
  \/ exists request t current,
       transcriptionId request = i
       /\ requestReviewedBy request = Some "system"
       /\ In (newStatus request) ["review"; "approval"; "completed"]
       /\ find (hasId i) (collection w) = Some t
       /\ workflowStatus (Schema.hydrate t) = Some current
       /\ In (newStatus request) (allowedNext current)
       /\ collection w' =
          replaceDoc (WorkflowService.recordTransition request (clock w) (clock w) t)
            (collection w).
Proof.
  unfold WorkflowService.autoProgressWorkflow.
  destruct i as [oid|e]; [|cbn; auto].
  async_unfold. world_simpl.
  destruct (storeFault w (storeOps w)); world_simpl; [auto|].
  destruct (find (hasId oid) (collection w)) as [t|] eqn:Hfound;
    cbn [option_map]; world_simpl; [|auto].
  destruct (JS.truthy (workflowStatus (Schema.hydrate t))); world_simpl; [|auto].
  set (w1 := withStoreOps (S (storeOps w)) w).
  assert (Hcall : forall request,
             transcriptionId request = Hex oid ->
             requestReviewedBy request = Some "system" ->
             In (newStatus request) ["review"; "approval"; "completed"] ->
             let r := WorkflowService.transitionWorkflow request w1 in
             collection (snd r) = collection w
             \/ exists request t current,
                  transcriptionId request = Hex oid
                  /\ requestReviewedBy request = Some "system"
                  /\ In (newStatus request) ["review"; "approval"; "completed"]
                  /\ find (hasId oid) (collection w) = Some t
                  /\ workflowStatus (Schema.hydrate t) = Some current
                  /\ In (newStatus request) (allowedNext current)
                  /\ collection (snd r) =
                     replaceDoc
                       (WorkflowService.recordTransition request (clock w) (clock w) t)
                       (collection w)).
  { intros request Hid Hby Hnew r.
    destruct (transitionWorkflow_effect request w1) as [[_ [Hc _]]|[t0 [cur H]]].
    - left. exact Hc.
    - right. destruct H as [Hfind [Hst [Hin [_ Hc]]]].
      subst r. rewrite Hid in Hfind. exists request, t0, cur.
      change (collection w1) with (collection w) in *.
      change (clock w1) with (clock w) in *.
      repeat split; assumption. }
  repeat (break_match; world_simpl); auto;
    match goal with
    | H : WorkflowService.transitionWorkflow ?q w1 = _ |- _ =>
        let Hq := fresh in
        pose proof (Hcall q eq_refl eq_refl ltac:(simpl; auto)) as Hq;
        cbv zeta in Hq; rewrite H, Hfound in Hq; exact Hq
    end.
Qed.

Lemma fireTimer_writes (k : nat) (w : World) :
  let w' := snd (fireTimer k w) in
  collection w' = collection w
  \/ exists request t current,
       requestReviewedBy request = Some "system"
       /\ In (newStatus request) ["review"; "approval"; "completed"]
       /\ find (hasId (transcriptionId request)) (collection w) = Some t
       /\ workflowStatus (Schema.hydrate t) = Some current
       /\ In (newStatus request) (allowedNext current)
       /\ collection w' =
          replaceDoc (WorkflowService.recordTransition request (clock w) (clock w) t)
            (collection w).
Proof.
  unfold fireTimer.
  destruct (nth_error (timers w) k) as [timer|]; [|simpl; auto].
  destruct (due timer <=? clock w); [|simpl; auto].
  destruct (autoProgressWorkflow_writes (target timer)
              (withTimers (removeNth k (timers w)) w))
    as [Hc|[request [t [cur [Hid [Hby [Hnew [Hfind [Hst [Hin Hc]]]]]]]]]].
  - left. exact Hc.
  - right. exists request, t, cur. rewrite Hid. auto 10.
Qed.

(** X9. A timer that fires either leaves a stored record as it is, or moves
    it one step along transcription, review, approval, completed, from the
    status the record is read with, and appends one history entry for the new
    status, stamped with the time of firing and attributed to "system".  It
    never writes rejected or transcription. *)
Theorem timers_move_one_step_forward (w : World) (k : nat) (i : ObjectId)
    (d : ITranscription) :
  find (hasId i) (collection w) = Some d ->
  let stored := find (hasId i) (collection (snd (fireTimer k w))) in
  let read := workflowStatus (Schema.hydrate d) in
  stored = Some d
  \/ exists d' e,
       stored = Some d'
       /\ workflowHistory d' = Some (historyOf d ++ [e])%list
       /\ workflowStatus d' = Some (status e)
       /\ reviewedBy e = Some "system"
       /\ timestamp e = clock w
       /\ ((read = Some "transcription" /\ status e = "review")
           \/ (read = Some "review" /\ status e = "approval")
           \/ (read = Some "approval" /\ status e = "completed")).
Proof.
  intros Hd stored read. subst stored read.
  destruct (fireTimer_writes k w)
    as [Hc|[request [t [cur [Hby [Hnew [Hfind [Hst [Hin Hc]]]]]]]]].
  - left. rewrite Hc. exact Hd.
  - rewrite Hc.
    destruct (find_after_transition i d t (collection w) request (clock w) Hd Hfind)
      as [[_ H]|[Hi [Htd H]]].
    + left. exact H.
    + right. subst t.
      exists (WorkflowService.recordTransition request (clock w) (clock w) d),
        (mkEntry (newStatus request) (clock w) (requestComment request)
           (requestReviewedBy request)).
      split; [exact H|]. split; [reflexivity|]. split; [reflexivity|].
      split; [exact Hby|]. split; [reflexivity|].
      cbn [status]. rewrite Hst.
      unfold allowedNext, WorkflowService.validTransitions in Hin.
      cbn [JS.prop] in Hin.
      repeat match type of Hin with
             | context [String.eqb ?a cur] =>
                 destruct (String.eqb_spec a cur) as [<-|_]
             end;
        simpl in Hin, Hnew;
        intuition (try congruence; subst; auto).
Qed.

Lemma timers_move_one_step_forward_witness :
  exists d',
    find (hasId 0%nat)
      (collection (snd (fireTimer 0 (run [TimePasses 2000] intake)))) = Some d'
    /\ workflowStatus d' = Some "review".
Proof.
  destruct (find (hasId 0%nat) (collection (run [TimePasses 2000] intake)))
    as [d|] eqn:Hd; [|vm_compute in Hd; discriminate].
  destruct (timers_move_one_step_forward (run [TimePasses 2000] intake) 0 0%nat d Hd)
    as [H|[d' [e [H [_ [Hs [_ [_ Hstep]]]]]]]].
  - exfalso. vm_compute in Hd. injection Hd as <-. vm_compute in H. discriminate H.
  - exists d'. split; [exact H|]. rewrite Hs.
    vm_compute in Hd. injection Hd as <-.
    destruct Hstep as [[_ ->]|[[Hx _]|[Hx _]]];
      [reflexivity | discriminate Hx | discriminate Hx].
Defined.

(** ** Timers set by a transition *)

(** X11. A call of [transitionWorkflow] that throws sets no timer.  A call
    that returns sets exactly one when the new status is review (due 3000
    ms later) or approval (due 5000 ms later), for the record it moved, and
    none for any other new status; timers already pending stay in place. *)
Theorem transition_sets_the_next_timer (w : World)
    (request : WorkflowTransitionRequest) :
  let result := WorkflowService.transitionWorkflow request w in
  match fst result with
  | Thrown _ => timers (snd result) = timers w
  | Returned _ =>
      timers (snd result) =
      (timers w ++
         (if String.eqb (newStatus request) "review"
          then [mkTimer (clock w + 3000) (transcriptionId request)]
          else if String.eqb (newStatus request) "approval"
          then [mkTimer (clock w + 5000) (transcriptionId request)]
          else []))%list
  end.
Proof.
  intros result. subst result.
  destruct (fst (WorkflowService.transitionWorkflow request w)) as [view|e] eqn:Hret.
  - destruct (transitionWorkflow_returned request w view Hret)
      as [t [cur [_ [_ [_ Hrun]]]]].
    rewrite Hrun. cbn [snd]. unfold followUp.
    destruct (String.eqb (newStatus request) "review"); [reflexivity|].
    destruct (String.eqb (newStatus request) "approval"); [reflexivity|].
    world_simpl. rewrite app_nil_r. reflexivity.
  - destruct (transitionWorkflow_effect request w)
      as [[_ [_ Ht]]|[t [cur [_ [_ [_ [Hok _]]]]]]]; [exact Ht | congruence].
Qed.

Lemma transition_sets_the_next_timer_witness :
  timers (snd (WorkflowService.transitionWorkflow
                 (mkTransition 0%nat "rejected" None None) intake))
  = timers intake.
Proof.
  pose proof (transition_sets_the_next_timer intake
                (mkTransition 0%nat "rejected" None None)) as H.
  cbv zeta in H.
  destruct (fst (WorkflowService.transitionWorkflow
                   (mkTransition 0%nat "rejected" None None) intake)) eqn:Hret.
  - rewrite H. cbn [newStatus String.eqb Ascii.eqb Bool.eqb]. apply app_nil_r.
  - exact H.
Defined.

(** ** The handlers of [POST /workflow] and [GET /workflows] *)

Lemma createWorkflow_document (request : WorkflowCreateRequest) (w : World)
    (view : WorkflowStatusResponse) :
  fst (WorkflowService.createWorkflow request w) = Returned view ->
  exists d,
    collection (snd (WorkflowService.createWorkflow request w))
    = (collection w ++ [d])%list
    /\ view = WorkflowService.formatWorkflowResponse d
    /\ audioUrl d = Schema.trim (requestAudioUrl request)
    /\ language d = JS.orElse (requestLanguage request) "en-US"
    /\ source d = "mock"
    /\ workflowStatus d = Some "transcription"
    /\ updatedAt d = None
    /\ Schema.pathErrors d = [].
Proof.
  unfold WorkflowService.createWorkflow, WorkflowService.mockAudioDownload,
    WorkflowService.generateMockTranscription.
  async_unfold. world_simpl.
  destruct (lessThan (randomAt (entropy w) (draws w)) (2 # 100)); world_simpl;
    [discriminate|].
  destruct (Schema.pathErrors _) eqn:Hvalid; world_simpl; [|discriminate].
  destruct (storeFault w (storeOps w)); world_simpl; [discriminate|].
  destruct (find (hasId (nextObjectId w)) (collection w)); world_simpl;
    [discriminate|].
  intros Hv. injection Hv as Hv. eexists.
  split; [reflexivity|]. split; [symmetry; exact Hv|].
  repeat split. exact Hvalid.
Qed.

(** X12. The handler of [POST /workflow], for a body whose [audioUrl], when
    present, is a string of ASCII characters.  A missing or empty
    [audioUrl], one that fails the URL pattern, or a non-empty [language]
    that fails the pattern xx-XX, is answered with 400 and nothing else
    happens: no delay, no store operation, no timer, no record.  An answer
    of 201 means exactly one record was added, with the posted URL, status
    transcription, and a language that has the shape xx-XX (the posted one,
    or en-US). *)
Theorem create_handler_validates_first (w : World) (body : CreateBody) :
  (forall url, postedAudioUrl body = Some url -> asciiOnly url = true) ->
  let answer := WorkflowController.createWorkflow body w in
  let url := JS.orElse (postedAudioUrl body) "" in
  let refusal text :=
    answer = (Returned (WorkflowController.mkAnswer 400 false None (Some text) None), w) in
  (JS.truthy (postedAudioUrl body) = false ->
   refusal "audioUrl is required and must be a string")
  /\ (JS.truthy (postedAudioUrl body) = true ->
      WorkflowController.urlRegex url = false ->
      refusal "Invalid audioUrl format")
  /\ (JS.truthy (postedAudioUrl body) = true ->
      WorkflowController.urlRegex url = true ->
      JS.truthy (postedLanguage body) = true ->
      WorkflowController.langRegex (JS.orElse (postedLanguage body) "") = false ->
      refusal "language must be in format xx-XX (e.g., en-US, fr-FR)")
  /\ (forall r,
        fst answer = Returned r ->
        WorkflowController.answerCode r = 201 ->
        exists d,
          collection (snd answer) = (collection w ++ [d])%list
          /\ WorkflowController.answerData r
             = Some (WorkflowService.formatWorkflowResponse d)
          /\ postedAudioUrl body = Some (audioUrl d)
          /\ WorkflowController.urlRegex (audioUrl d) = true
          /\ WorkflowController.langRegex (language d) = true
          /\ workflowStatus d = Some "transcription").
Proof.
  intros _ answer url refusal. subst answer refusal. cbv beta.
  unfold WorkflowController.createWorkflow, tryCatch.
  fold url.
  destruct (JS.truthy (postedAudioUrl body)) eqn:Hu; cbn [negb].
  2:{ split; [reflexivity|]. split; [discriminate|]. split; [discriminate|].
      intros r Hr Hcode. cbn in Hr. injection Hr as <-. discriminate Hcode. }
  split; [discriminate|].
  destruct (WorkflowController.urlRegex url) eqn:Hurl; cbn [negb].
  2:{ split; [reflexivity|]. split; [discriminate|].
      intros r Hr Hcode. cbn in Hr. injection Hr as <-. discriminate Hcode. }
  split; [discriminate|].
  destruct (JS.truthy (postedLanguage body)) eqn:Hl; cbn [andb].
  - destruct (WorkflowController.langRegex (JS.orElse (postedLanguage body) ""))
      eqn:Hlang; cbn [negb].
    2:{ split; [reflexivity|].
        intros r Hr Hcode. cbn in Hr. injection Hr as <-. discriminate Hcode. }
    split; [discriminate|].
    intros r Hr Hcode. unfold bind in Hr.
    destruct (WorkflowService.createWorkflow (mkCreate url (postedLanguage body)) w)
      as [[view|e] w1] eqn:Hrun.
    + pose proof (createWorkflow_document (mkCreate url (postedLanguage body)) w view)
        as Hdoc.
      rewrite Hrun in Hdoc.
      destruct (Hdoc eq_refl) as [d [Hc [Hv [Htrimmed [Hg [_ [Hs [_ Hvalid]]]]]]]].
      cbn in Hr. injection Hr as <-. exists d.
      cbn [snd] in Hc. unfold bind. rewrite Hrun. cbn [snd ret].
      split; [exact Hc|]. split; [cbn; rewrite Hv; reflexivity|].
      cbn [requestAudioUrl requestLanguage] in Htrimmed, Hg.
      assert (Ha : audioUrl d = url).
      { rewrite Htrimmed. apply urlRegex_trim; [exact Hurl|].
        rewrite <- Htrimmed. apply (pathErrors_nil d Hvalid). }
      destruct (truthy_some _ Hu) as [u [Hsome [Hor _]]].
      split; [rewrite Ha; unfold url; rewrite Hor; exact Hsome|].
      split; [rewrite Ha; exact Hurl|]. split; [|exact Hs].
      rewrite Hg. destruct (truthy_some _ Hl) as [l [Hsl [Hol Hne]]].
      rewrite Hsl in *. cbn [JS.orElse] in *.
      apply String.eqb_neq in Hne. rewrite Hne in *. exact Hlang.
    + cbn in Hr. injection Hr as <-. discriminate Hcode.
  - split; [discriminate|].
    intros r Hr Hcode. unfold bind in Hr.
    destruct (WorkflowService.createWorkflow (mkCreate url (postedLanguage body)) w)
      as [[view|e] w1] eqn:Hrun.
    + pose proof (createWorkflow_document (mkCreate url (postedLanguage body)) w view)
        as Hdoc.
      rewrite Hrun in Hdoc.
      destruct (Hdoc eq_refl) as [d [Hc [Hv [Htrimmed [Hg [_ [Hs [_ Hvalid]]]]]]]].
      cbn in Hr. injection Hr as <-. exists d.
      cbn [snd] in Hc. unfold bind. rewrite Hrun. cbn [snd ret].
      split; [exact Hc|]. split; [cbn; rewrite Hv; reflexivity|].
      cbn [requestAudioUrl requestLanguage] in Htrimmed, Hg.
      assert (Ha : audioUrl d = url).
      { rewrite Htrimmed. apply urlRegex_trim; [exact Hurl|].
        rewrite <- Htrimmed. apply (pathErrors_nil d Hvalid). }
      destruct (truthy_some _ Hu) as [u [Hsome [Hor _]]].
      split; [rewrite Ha; unfold url; rewrite Hor; exact Hsome|].
      split; [rewrite Ha; exact Hurl|]. split; [|exact Hs].
      rewrite Hg.
      assert (Hdef : JS.orElse (postedLanguage body) "en-US" = "en-US").
      { unfold JS.truthy in Hl. unfold JS.orElse.
        destruct (postedLanguage body) as [l|]; [|reflexivity].
        destruct (String.eqb l ""); [reflexivity | discriminate]. }
      rewrite Hdef. reflexivity.
    + cbn in Hr. injection Hr as <-. discriminate Hcode.
Qed.

Lemma create_handler_validates_first_witness :
  exists d,
    collection (snd (WorkflowController.createWorkflow samplePost calm)) = [d]
    /\ audioUrl d = "https://example.com/sample.mp3"
    /\ WorkflowController.langRegex (language d) = true
    /\ workflowStatus d = Some "transcription".
Proof.
  assert (Hascii : forall url, postedAudioUrl samplePost = Some url ->
                               asciiOnly url = true).
  { intros url Hu. injection Hu as <-. vm_compute. reflexivity. }
  destruct (fst (WorkflowController.createWorkflow samplePost calm)) as [r|e] eqn:Hret;
    [|vm_compute in Hret; discriminate].
  assert (Hcode : WorkflowController.answerCode r = 201).
  { vm_compute in Hret. injection Hret as <-. reflexivity. }
  pose proof (create_handler_validates_first calm samplePost Hascii) as H.
  cbv zeta in H. destruct H as [_ [_ [_ H]]].
  destruct (H r Hret Hcode) as [d [Hc [_ [Hu [_ [Hl Hs]]]]]].
  exists d. split; [exact Hc|]. split; [|split; [exact Hl | exact Hs]].
  cbn in Hu. injection Hu as Hu. symmetry. exact Hu.
Defined.

Lemma listWorkflows_listing (w : World) (filter : option string) (page limit : Z) :
  responsive 2 w -> 1 <= page -> 1 <= limit ->
  WorkflowService.listWorkflows filter page limit w
  = (Returned
       (mkList
          (firstn (Z.to_nat limit)
             (skipn (Z.to_nat ((page - 1) * limit))
                (WorkflowService.sortDocs
                   (List.filter (WorkflowService.matches (queryFor filter))
                      (collection w)))))
          (List.length (List.filter (WorkflowService.matches (queryFor filter))
                          (collection w)))
          page limit),
     withStoreOps (S (S (storeOps w))) w).
Proof.
  intros Hr Hp Hl.
  pose proof (responsive_at 2 0 w Hr ltac:(lia)) as Hf0.
  pose proof (responsive_at 2 1 w Hr ltac:(lia)) as Hf1.
  rewrite Nat.add_0_r in Hf0.
  replace (storeOps w + 1)%nat with (S (storeOps w)) in Hf1 by lia.
  unfold WorkflowService.listWorkflows, WorkflowService.findSorted,
    WorkflowService.countDocuments, WorkflowService.window.
  fold (queryFor filter).
  async_unfold. world_simpl. rewrite Hf0. cbv beta iota zeta. world_simpl.
  assert (Hskip : ((page - 1) * limit <? 0) = false) by (apply Z.ltb_ge; nia).
  assert (Hlim : (limit =? 0) = false) by (apply Z.eqb_neq; lia).
  rewrite Hskip, Hlim. cbv beta iota zeta. world_simpl. rewrite Hf1.
  cbv beta iota zeta. world_simpl.
  rewrite (Z.abs_eq limit) by lia.
  destruct w; reflexivity.
Qed.

Lemma window_In {A} (n m : nat) (l : list A) (x : A) :
  In x (firstn n (skipn m l)) -> In x l.
Proof.
  revert l. induction m as [|m IH]; intros l Hx.
  - simpl in Hx. revert l Hx. induction n as [|n IHn]; intros l Hx.
    + destruct Hx.
    + destruct l as [|y l]; [destruct Hx|].
      destruct Hx as [-> | Hx]; [left; reflexivity | right; apply IHn; exact Hx].
  - destruct l as [|y l].
    + simpl in Hx. destruct n; destruct Hx.
    + right. apply IH. exact Hx.
Qed.

(** X13. The handler of [GET /workflows].  A page that is not a number or
    is below 1, a limit that is not a number or is outside 1..100, and a
    non-empty status that is not one of the five, are each answered with 400
    and nothing else happens: the store is not asked.  For a valid query and
    a store that answers, the answer is 200 with at most [limit] records,
    each a record of the collection that the filter lists, the page and
    limit echoed back, and the collection left as it was. *)
Theorem list_handler_validates_query (w : World) (status : option string)
    (pageNum limitNum : option Z) :
  let answer := WorkflowController.listWorkflows status pageNum limitNum w in
  let refusal text :=
    answer = (Returned (WorkflowController.mkAnswer 400 false None (Some text) None), w) in
  ((forall page, pageNum = Some page -> page < 1) ->
   refusal "page must be a positive integer")
  /\ (forall page,
        pageNum = Some page -> 1 <= page ->
        (forall limit, limitNum = Some limit -> limit < 1 \/ 100 < limit) ->
        refusal "limit must be a positive integer between 1 and 100")
  /\ (forall page limit s,
        pageNum = Some page -> 1 <= page ->
        limitNum = Some limit -> 1 <= limit <= 100 ->
        status = Some s -> s <> "" -> ~ In s WorkflowController.listStatuses ->
        refusal ("Invalid status filter. Must be one of: "
                 ++ "transcription, review, approval, completed, rejected"))
  /\ (forall atPage perPage,
        pageNum = Some atPage -> 1 <= atPage ->
        limitNum = Some perPage -> 1 <= perPage <= 100 ->
        (forall s, status = Some s -> s = "" \/ In s WorkflowController.listStatuses) ->
        responsive 2 w ->
        exists listing,
          fst answer
          = Returned (WorkflowController.mkAnswer 200 true (Some listing) None None)
          /\ (List.length (workflows listing) <= Z.to_nat perPage)%nat
          /\ (List.length (workflows listing) <= total listing)%nat
          /\ (forall d, In d (workflows listing) ->
                        In d (collection w) /\ listed status d)
          /\ page listing = atPage /\ limit listing = perPage
          /\ collection (snd answer) = collection w).
Proof.
  intros answer refusal. subst answer refusal. cbv beta.
  unfold WorkflowController.listWorkflows.
  split; [|split; [|split]].
  - intros Hbad. destruct pageNum as [page|]; [|reflexivity].
    specialize (Hbad page eq_refl).
    apply Z.ltb_lt in Hbad. unfold tryCatch. rewrite Hbad. reflexivity.
  - intros page -> Hp Hbad.
    assert (Hpage : (page <? 1) = false) by (apply Z.ltb_ge; lia).
    unfold tryCatch. rewrite Hpage.
    destruct limitNum as [limit|]; [|reflexivity].
    destruct (Hbad limit eq_refl) as [Hl | Hl].
    + apply Z.ltb_lt in Hl. rewrite Hl. reflexivity.
    + apply Z.ltb_lt in Hl. rewrite Hl, Bool.orb_true_r. reflexivity.
  - intros page limit s -> Hp -> Hl -> Hne Hout.
    assert (Hpage : (page <? 1) = false) by (apply Z.ltb_ge; lia).
    assert (Hlo : (limit <? 1) = false) by (apply Z.ltb_ge; lia).
    assert (Hhi : (100 <? limit) = false) by (apply Z.ltb_ge; lia).
    unfold tryCatch. rewrite Hpage, Hlo, Hhi. cbn [orb].
    assert (Ht : JS.truthy (Some s) = true).
    { unfold JS.truthy. apply String.eqb_neq in Hne. rewrite Hne. reflexivity. }
    rewrite Ht. cbn [andb JS.orElse].
    apply String.eqb_neq in Hne. rewrite Hne.
    destruct (JS.includes WorkflowController.listStatuses s) eqn:Hin.
    + apply includes_In in Hin. contradiction.
    + reflexivity.
  - intros page limit -> Hp -> Hl Hok Hr.
    assert (Hpage : (page <? 1) = false) by (apply Z.ltb_ge; lia).
    assert (Hlo : (limit <? 1) = false) by (apply Z.ltb_ge; lia).
    assert (Hhi : (100 <? limit) = false) by (apply Z.ltb_ge; lia).
    unfold tryCatch. rewrite Hpage, Hlo, Hhi. cbn [orb].
    assert (Hfilter : JS.truthy status
                      && negb (JS.includes WorkflowController.listStatuses
                                 (JS.orElse status "")) = false).
    { destruct (JS.truthy status) eqn:Ht; [|reflexivity].
      destruct (truthy_some _ Ht) as [s [Hs [Hor Hne]]].
      rewrite Hor. destruct (Hok s Hs) as [He | Hin]; [contradiction|].
      apply includes_In in Hin. rewrite Hin. reflexivity. }
    rewrite Hfilter. unfold bind.
    rewrite (listWorkflows_listing w status page limit Hr Hp ltac:(lia)).
    eexists. split; [reflexivity|].
    cbn [workflows total snd ret].
    split; [apply firstn_le_length|].
    split.
    { rewrite length_firstn, length_skipn.
      assert (Hlen : List.length
                       (WorkflowService.sortDocs
                          (List.filter (WorkflowService.matches (queryFor status))
                             (collection w)))
                     = List.length
                         (List.filter (WorkflowService.matches (queryFor status))
                            (collection w))).
      { first [ apply Permutation_length, sortDocs_perm
              | symmetry; apply Permutation_length, sortDocs_perm ]. }
      rewrite Hlen. lia. }
    split.
    { intros d Hd. apply window_In in Hd.
      assert (Hd' : In d (List.filter (WorkflowService.matches (queryFor status))
                            (collection w))).
      { first [ apply (Permutation_in _ (Permutation_sym (sortDocs_perm _))); exact Hd
              | apply (Permutation_in _ (sortDocs_perm _)); exact Hd ]. }
      apply filter_In in Hd'. destruct Hd' as [Hin Hm].
      split; [exact Hin | apply matches_listed; exact Hm]. }
    split; [reflexivity|]. split; reflexivity.
Qed.

Lemma list_handler_validates_query_witness :
  WorkflowController.listWorkflows (Some "invalid") (Some 1) (Some 10) twoWorkflows
  = (Returned
       (WorkflowController.mkAnswer 400 false None
          (Some ("Invalid status filter. Must be one of: "
                 ++ "transcription, review, approval, completed, rejected")) None),
     twoWorkflows)
  /\ exists listing,
       fst (WorkflowController.listWorkflows (Some "review") (Some 1) (Some 10)
              twoWorkflows)
       = Returned (WorkflowController.mkAnswer 200 true (Some listing) None None)
       /\ (List.length (workflows listing) <= 10)%nat
       /\ forall d, In d (workflows listing) -> workflowStatus d = Some "review".
Proof.
  split.
  - pose proof (list_handler_validates_query twoWorkflows (Some "invalid")
                  (Some 1) (Some 10)) as H.
    cbv zeta in H. destruct H as [_ [_ [H _]]].
    apply (H 1 10 "invalid"); try reflexivity; try lia; try discriminate.
    intros Hin. repeat (destruct Hin as [Hin | Hin]; [discriminate Hin|]).
    exact Hin.
  - assert (Hr : responsive 2 twoWorkflows) by (intros j _; reflexivity).
    pose proof (list_handler_validates_query twoWorkflows (Some "review")
                  (Some 1) (Some 10)) as H.
    cbv zeta in H. destruct H as [_ [_ [_ H]]].
    destruct (H 1 10 eq_refl ltac:(lia) eq_refl ltac:(lia)) as
      [listing [Hrun [Hlen [_ [Hall _]]]]].
    + intros s Hs. injection Hs as <-. right. simpl. auto.
    + exact Hr.
    + exists listing. split; [exact Hrun|]. split; [exact Hlen|].
      intros d Hd. destruct (Hall d Hd) as [_ Hl]. exact Hl.
Defined.

(** ** No handler of the workflow routes throws *)

Lemma answers_refusal {A} (codes : list Z) (code : Z) (text : string)
    (detail : option string) :
  In code codes -> 400 <= code ->
  answers (A := A) codes
    (Returned (WorkflowController.mkAnswer code false None (Some text) detail)).
Proof.
  intros Hin Hcode. eexists. split; [reflexivity|]. cbn.
  split; [exact Hin|]. split; [split; [discriminate | lia]|].
  split; split; try discriminate; try reflexivity; congruence.
Qed.

Lemma answers_success {A} (codes : list Z) (code : Z) (result : A)
    (note : option string) :
  In code codes -> 200 <= code < 300 ->
  answers codes
    (Returned (WorkflowController.mkAnswer code true (Some result) None note)).
Proof.
  intros Hin Hcode. eexists. split; [reflexivity|]. cbn.
  split; [exact Hin|]. split; [split; [intros _; exact Hcode | reflexivity]|].
  split; split; try discriminate; try reflexivity; congruence.
Qed.

(** X14. Whatever the world, the store's faults included, the handlers of
    [POST /workflow], [GET /workflow/:id], [GET /workflows] and
    [GET /workflow/stats] never throw: each returns an answer, with a status
    code from its own short list, [success: true] exactly with a code in the
    200s, [data] present exactly with it and [error] exactly without it.
    The handler of [PUT /workflow/:id/transition] returns as well, with 200,
    400, 404 or 500, and [success: true] exactly with 200. *)
Theorem workflow_handlers_always_answer (w : World) :
  (forall body,
     answers [201; 400; 500] (fst (WorkflowController.createWorkflow body w)))
  /\ (forall i,
        answers [200; 404; 500] (fst (WorkflowController.getWorkflowStatus i w)))
  /\ (forall status pageNum limitNum,
        answers [200; 400; 500]
          (fst (WorkflowController.listWorkflows status pageNum limitNum w)))
  /\ answers [200; 500] (fst (WorkflowController.getWorkflowStats w))
  /\ (forall i body,
        exists r,
          fst (WorkflowController.transitionWorkflow i body w) = Returned r
          /\ In (statusCode r) [200; 400; 404; 500]
          /\ (success r = true <-> statusCode r = 200)
          /\ (data r <> None <-> success r = true)
          /\ (error r <> None <-> success r = false)).
Proof.
  split; [|split; [|split; [|split]]].
  - intros body. unfold WorkflowController.createWorkflow, tryCatch.
    destruct (JS.truthy (postedAudioUrl body)); cbn [negb];
      [|apply answers_refusal; [simpl; auto | lia]].
    destruct (WorkflowController.urlRegex _); cbn [negb];
      [|apply answers_refusal; [simpl; auto | lia]].
    destruct (JS.truthy (postedLanguage body)
              && negb (WorkflowController.langRegex _));
      [apply answers_refusal; [simpl; auto | lia]|].
    unfold bind.
    destruct (WorkflowService.createWorkflow _ w) as [[view|e] w1]; cbn.
    + apply answers_success; [simpl; auto | lia].
    + apply answers_refusal; [simpl; auto | lia].
  - intros i. unfold WorkflowController.getWorkflowStatus, tryCatch, bind.
    destruct (WorkflowService.getWorkflowStatus i w) as [[view|e] w1]; cbn.
    + apply answers_success; [simpl; auto | lia].
    + destruct (JS.contains e "not found");
        apply answers_refusal; first [simpl; auto; fail | lia].
  - intros status pageNum limitNum.
    unfold WorkflowController.listWorkflows, tryCatch.
    destruct pageNum as [page|]; [|apply answers_refusal; [simpl; auto | lia]].
    destruct (page <? 1); [apply answers_refusal; [simpl; auto | lia]|].
    destruct limitNum as [limit|]; [|apply answers_refusal; [simpl; auto | lia]].
    destruct ((limit <? 1) || (100 <? limit));
      [apply answers_refusal; [simpl; auto | lia]|].
    destruct (JS.truthy status && negb (JS.includes _ _));
      [apply answers_refusal; [simpl; auto | lia]|].
    unfold bind.
    destruct (WorkflowService.listWorkflows status page limit w) as [[r|e] w1]; cbn.
    + apply answers_success; [simpl; auto | lia].
    + apply answers_refusal; [simpl; auto | lia].
  - unfold WorkflowController.getWorkflowStats, tryCatch, bind.
    destruct (WorkflowService.getWorkflowStats w) as [[r|e] w1]; cbn.
    + apply answers_success; [simpl; auto | lia].
    + apply answers_refusal; [simpl; auto | lia].
  - intros i body. unfold WorkflowController.transitionWorkflow.
    assert (Hno : forall code text detail,
              In code [400; 404; 500] ->
              exists r,
                Returned (mkResponse code false None (Some text) detail) = Returned r
                /\ In (statusCode r) [200; 400; 404; 500]
                /\ (success r = true <-> statusCode r = 200)
                /\ (data r <> None <-> success r = true)
                /\ (error r <> None <-> success r = false)).
    { intros code text detail Hin. eexists. split; [reflexivity|]. cbn.
      split; [simpl in Hin; intuition|].
      split; [split; [discriminate | simpl in Hin; intuition lia]|].
      split; split; try discriminate; try reflexivity; congruence. }
    destruct (JS.truthy (bodyNewStatus body)); cbn [negb];
      [|apply Hno; simpl; auto].
    destruct (JS.includes _ _); cbn [negb]; [|apply Hno; simpl; auto].
    unfold tryCatch, bind.
    destruct (WorkflowService.transitionWorkflow _ w) as [[view|e] w1]; cbn.
    + eexists. split; [reflexivity|]. cbn. split; [auto|].
      split; [split; reflexivity|].
      split; split; try discriminate; try reflexivity; congruence.
    + destruct (JS.contains e "not found"); [apply Hno; simpl; auto|].
      destruct (JS.contains e "Invalid transition"); apply Hno; simpl; auto.
Qed.

(** ** Plain transcriptions as workflow records *)

Lemma skipn_In {A} (m : nat) (l : list A) (x : A) :
  In x (skipn m l) -> In x l.
Proof.
  revert l. induction m as [|m IH]; intros l Hx; [exact Hx|].
  destruct l as [|y l]; [exact Hx|]. right. apply IH. exact Hx.
Qed.

Lemma listWorkflows_members (w : World) (filter : option string) (page limit : Z)
    (listing : WorkflowListResponse) :
  fst (WorkflowService.listWorkflows filter page limit w) = Returned listing ->
  forall x, In x (workflows listing) -> In x (collection w) /\ listed filter x.
Proof.
  unfold WorkflowService.listWorkflows, WorkflowService.findSorted,
    WorkflowService.countDocuments, WorkflowService.window.
  fold (queryFor filter).
  async_unfold. world_simpl.
  assert (Hsub : forall x,
            In x (WorkflowService.sortDocs
                    (List.filter (WorkflowService.matches (queryFor filter))
                       (collection w))) ->
            In x (collection w) /\ listed filter x).
  { intros x Hx.
    assert (Hx' : In x (List.filter (WorkflowService.matches (queryFor filter))
                          (collection w))).
    { first [ apply (Permutation_in _ (Permutation_sym (sortDocs_perm _))); exact Hx
            | apply (Permutation_in _ (sortDocs_perm _)); exact Hx ]. }
    apply filter_In in Hx'. destruct Hx' as [Hin Hm].
    split; [exact Hin | apply matches_listed; exact Hm]. }
  repeat (break_match; world_simpl); intros H; try discriminate H;
    injection H as <-; cbn [workflows fst]; intros x Hx; apply Hsub.
  - apply skipn_In in Hx. exact Hx.
  - apply window_In in Hx. exact Hx.
Qed.

Lemma filter_snoc_length (f : ITranscription -> bool) (c : list ITranscription)
    (d : ITranscription) :
  f d = true ->
  List.length (List.filter f (c ++ [d])%list) = S (List.length (List.filter f c)).
Proof.
  intros Hd. rewrite filter_app, length_app. cbn [List.filter]. rewrite Hd.
  cbn [List.length]. lia.
Qed.

(** X16. The record of a plain transcription is a workflow record.  When
    [createTranscription] returns, the record it stored is at transcription
    with an empty history, and no timer was set for it; it counts among the
    records with a workflow status, and among those at transcription, which
    are the records the listing and the statistics are made of; and with a
    store that answers, a transition of it to review succeeds and leaves it
    at review with that single history entry. *)
Theorem plain_transcriptions_enter_the_workflow (w : World)
    (request : TranscriptionRequest) (answer : TranscriptionResponse) :
  let created := TranscriptionService.createTranscription request w in
  fst created = Returned answer ->
  timers (snd created) = timers w
  /\ (exists d,
        find (hasId (savedId answer)) (collection (snd created)) = Some d
        /\ workflowStatus d = Some "transcription"
        /\ workflowHistory d = Some [])
  /\ withWorkflow (collection (snd created)) = S (withWorkflow (collection w))
  /\ withStatus "transcription" (collection (snd created))
     = S (withStatus "transcription" (collection w))
  /\ (responsive 2 (snd created) ->
      forall note reviewer,
        let moved :=
          WorkflowService.transitionWorkflow
            (mkTransition (savedId answer) "review" note reviewer) (snd created) in
        exists view d',
          fst moved = Returned view
          /\ currentStatus view = "review"
          /\ find (hasId (savedId answer)) (collection (snd moved)) = Some d'
          /\ workflowStatus d' = Some "review"
          /\ workflowHistory d'
             = Some [mkEntry "review" (clock (snd created)) note reviewer]).
Proof.
  intros created Hret.
  destruct (createTranscription_returned request w answer Hret)
    as [d [Hc [Hfresh [Hid [Hsaved [Hs [Hh [_ [_ Ht]]]]]]]]].
  fold created in Hc, Ht.
  assert (Hfind : find (hasId (savedId answer)) (collection (snd created)) = Some d).
  { rewrite Hc, Hsaved. apply find_snoc_fresh; assumption. }
  split; [exact Ht|]. split; [exists d; auto|].
  split; [|split].
  - unfold withWorkflow. rewrite Hc. apply filter_snoc_length.
    unfold WorkflowService.matches. rewrite Hs. reflexivity.
  - unfold withStatus. rewrite Hc. apply filter_snoc_length.
    unfold WorkflowService.matches. rewrite Hs. reflexivity.
  - intros Hr note reviewer moved. subst moved.
    set (request' := mkTransition (savedId answer) "review" note reviewer).
    assert (Henum : In "transcription" workflowStatusEnum) by (simpl; auto).
    assert (Hin : In (newStatus request') (allowedNext "transcription"))
      by (simpl; auto).
    pose proof (transitionWorkflow_applied request' (snd created) d "transcription"
                  Hr Hfind (hydrate_status _ _ Hs) Henum Hin) as H.
    cbv zeta in H. rewrite H. cbn [fst snd].
    set (d' := WorkflowService.recordTransition request'
                 (clock (snd created)) (clock (snd created)) d).
    exists (WorkflowService.formatWorkflowResponse d'), d'.
    split; [reflexivity|]. split; [reflexivity|].
    destruct (followUp_frame request'
                (withCollection (replaceDoc d' (collection (snd created)))
                   (withStoreOps (S (S (storeOps (snd created)))) (snd created))))
      as [Hc' _].
    rewrite Hc'. world_simpl. split; [|split].
    + destruct (find_hasId _ _ _ Hfind) as [Hd _]. rewrite <- Hd.
      change (_id d) with (_id d'). apply find_replaceDoc_same.
      change (_id d') with (_id d). rewrite Hd, Hfind. discriminate.
    + reflexivity.
    + unfold d', WorkflowService.recordTransition. cbn [workflowHistory].
      rewrite Hh. reflexivity.
Qed.

Lemma plain_transcriptions_enter_the_workflow_witness :
  withWorkflow (collection (snd (TranscriptionService.createTranscription
                                   plainRequest calm))) = 1%nat
  /\ exists view,
       fst (WorkflowService.transitionWorkflow
              (mkTransition 0%nat "review" None (Some "ana"))
              (snd (TranscriptionService.createTranscription plainRequest calm)))
       = Returned view
       /\ currentStatus view = "review".
Proof.
  assert (Hret : fst (TranscriptionService.createTranscription plainRequest calm) =
                 Returned (mkSaved 0%nat "Transcription saved"))
    by (vm_compute; reflexivity).
  destruct (plain_transcriptions_enter_the_workflow calm plainRequest
              (mkSaved 0%nat "Transcription saved") Hret)
    as [_ [_ [Hcount [_ Hmove]]]].
  split; [exact Hcount|].
  assert (Hr : responsive 2 (snd (TranscriptionService.createTranscription
                                    plainRequest calm)))
    by (intros j _; reflexivity).
  destruct (Hmove Hr None (Some "ana")) as [view [d' [H1 [H2 _]]]].
  exists view. split; [exact H1 | exact H2].
Defined.

(** ** The plain transcription service *)

Lemma randomIndex_bound (bits : nat -> N) (k n : nat) :
  (0 < n)%nat ->
  (Z.to_nat (Qfloor (randomAt bits k * inject_Z (Z.of_nat n))) < n)%nat.
Proof.
  intros Hn. unfold randomAt, Qfloor, Qmult, inject_Z. cbn [Qnum Qden].
  rewrite Pos.mul_1_r.
  assert (Hm : 0 <= Z.of_N (bits k mod 2 ^ 53) < Z.pos (2 ^ 53)).
  { split; [apply N2Z.is_nonneg|].
    change (Z.pos (2 ^ 53)) with (Z.of_N (2 ^ 53)).
    apply N2Z.inj_lt. apply N.mod_lt. discriminate. }
  set (m := Z.of_N (bits k mod 2 ^ 53)) in *.
  set (p := Z.pos (2 ^ 53)) in *.
  assert (Hq : 0 <= m * Z.of_nat n / p < Z.of_nat n).
  { split.
    - apply Z.div_pos; nia.
    - apply Z.div_lt_upper_bound; nia. }
  lia.
Qed.

Lemma cannedTexts_length (lang : string) : List.length (cannedTexts lang) = 5%nat.
Proof.
  unfold cannedTexts, TranscriptionService.mockTranscriptions, JS.prop.
  repeat match goal with
         | |- context [String.eqb ?a lang] => destruct (String.eqb a lang)
         end; reflexivity.
Qed.

Lemma generateMockTranscription_canned (lang : string) (w : World) :
  exists text,
    TranscriptionService.generateMockTranscription lang w
    = (Returned text, withDraws (S (draws w)) w)
    /\ In text (cannedTexts lang).
Proof.
  unfold TranscriptionService.generateMockTranscription.
  change (match JS.prop TranscriptionService.mockTranscriptions lang with
          | Some l => l
          | None =>
              match JS.prop TranscriptionService.mockTranscriptions "en-US" with
              | Some l => l
              | None => []
              end
          end) with (cannedTexts lang).
  cbv zeta. async_unfold. eexists. split; [reflexivity|].
  apply nth_In. apply randomIndex_bound. rewrite cannedTexts_length. lia.
Qed.

Lemma cannedTexts_trimmed (lang text : string) :
  In text (cannedTexts lang) -> Schema.trim text = text.
Proof.
  unfold cannedTexts, TranscriptionService.mockTranscriptions, JS.prop.
  repeat match goal with
         | |- context [String.eqb ?a lang] => destruct (String.eqb a lang)
         end;
    cbn [In]; intros H;
    repeat (destruct H as [<-|H]; [vm_compute; reflexivity|]);
    destruct H.
Qed.

(** X17. [createTranscription] of the plain transcription service stores
    one record or none.  When it throws, the collection is as it was.  When
    it returns, exactly one record was added; the returned id is its id and
    finds it again, through [getTranscriptionById] when the store answers;
    its source is mock, its language the requested one, or en-US when none
    was given, and its text is one of the five texts kept for that language,
    or of the five English ones when the language has none. *)
Theorem transcription_is_stored_with_a_canned_text (w : World)
    (request : TranscriptionRequest) :
  let result := TranscriptionService.createTranscription request w in
  (forall e, fst result = Thrown e -> collection (snd result) = collection w)
  /\ (forall answer,
        fst result = Returned answer ->
        exists d,
          collection (snd result) = (collection w ++ [d])%list
          /\ savedId answer = _id d
          /\ find (hasId (savedId answer)) (collection (snd result)) = Some d
          /\ (storeFault (snd result) (storeOps (snd result)) = None ->
              fst (TranscriptionService.getTranscriptionById (savedId answer) (snd result))
              = Returned (Some d))
          /\ source d = "mock"
          /\ language d = JS.orElse (bodyLanguage request) "en-US"
          /\ In (transcription d) (cannedTexts (language d))).
Proof.
  cbv zeta.
  unfold TranscriptionService.createTranscription,
    TranscriptionService.mockAudioDownload.
  async_unfold. world_simpl.
  destruct (lessThan (randomAt (entropy w) (draws w)) (5 # 100)); world_simpl.
  { split; [reflexivity | discriminate]. }
  match goal with
  | |- context [TranscriptionService.generateMockTranscription ?l ?w0] =>
      destruct (generateMockTranscription_canned l w0) as [text [Hgen Hin]];
      rewrite Hgen
  end.
  world_simpl.
  match goal with
  | |- context [Schema.pathErrors ?x] => set (d := x)
  end.
  destruct (Schema.pathErrors d) eqn:Hvalid; world_simpl.
  2:{ split; [reflexivity | discriminate]. }
  destruct (storeFault w (storeOps w)) eqn:Hf; world_simpl.
  { split; [reflexivity | discriminate]. }
  change (_id d) with (nextObjectId w).
  destruct (find (hasId (nextObjectId w)) (collection w)) eqn:Hfresh; world_simpl.
  { split; [reflexivity | discriminate]. }
  split; [discriminate|].
  intros answer Hanswer. injection Hanswer as <-.
  exists d. split; [reflexivity|]. cbn [savedId].
  split; [reflexivity|].
  assert (Hfound : find (hasId (nextObjectId w)) (collection w ++ [d])%list = Some d).
  { apply find_snoc_fresh; [exact Hfresh | reflexivity]. }
  split; [exact Hfound|].
  split.
  { intros Hstore. unfold TranscriptionService.getTranscriptionById.
    rewrite tryCatch_rethrow.
    rewrite findById_found with (t := d);
      [reflexivity | exact Hstore | exact Hfound]. }
  split; [reflexivity|]. split; [reflexivity|].
  change (transcription d) with (Schema.trim text).
  rewrite (cannedTexts_trimmed _ _ Hin). exact Hin.
Qed.

Lemma transcription_is_stored_with_a_canned_text_witness :
  exists d,
    find (hasId 0%nat)
      (collection (snd (TranscriptionService.createTranscription plainRequest calm)))
    = Some d
    /\ language d = "en-US"
    /\ In (transcription d) (cannedTexts "en-US").
Proof.
  pose proof (transcription_is_stored_with_a_canned_text calm plainRequest) as H.
  cbv zeta in H. destruct H as [_ H].
  destruct (fst (TranscriptionService.createTranscription plainRequest calm))
    as [answer|e] eqn:Hret; [|vm_compute in Hret; discriminate].
  assert (Hid : savedId answer = 0%nat)
    by (vm_compute in Hret; injection Hret as <-; reflexivity).
  destruct (H answer eq_refl) as [d [_ [_ [Hfound [_ [_ [Hlang Htext]]]]]]].
  exists d. rewrite Hid in Hfound. split; [exact Hfound|].
  split; [exact Hlang|]. rewrite Hlang in Htext. exact Htext.
Defined.

(** ** The recent transcriptions *)

Lemma insertByCreated_perm (d : ITranscription) (l : list ITranscription) :
  Permutation (TranscriptionService.insertByCreated d l) (d :: l).
Proof.
  induction l as [|x l IH]; simpl.
  - apply Permutation_refl.
  - destruct (createdAt x <=? createdAt d).
    + apply Permutation_refl.
    + apply perm_trans with (x :: d :: l);
        [apply perm_skip; exact IH | apply perm_swap].
Qed.

Lemma sortByCreated_perm (l : list ITranscription) :
  Permutation (TranscriptionService.sortByCreated l) l.
Proof.
  induction l as [|x l IH]; simpl.
  - apply perm_nil.
  - apply perm_trans with (x :: TranscriptionService.sortByCreated l);
      [apply insertByCreated_perm | apply perm_skip; exact IH].
Qed.

Lemma insertByCreated_sorted (d : ITranscription) (l : list ITranscription) :
  Sorted createdLater l -> Sorted createdLater (TranscriptionService.insertByCreated d l).
Proof.
  induction l as [|x l IH]; simpl; intros Hs.
  - repeat constructor.
  - destruct (Z.leb_spec (createdAt x) (createdAt d)) as [Hle | Hgt].
    + constructor; [exact Hs|]. constructor. exact Hle.
    + inversion Hs as [|? ? Hl Hhd]; subst.
      constructor; [apply IH; exact Hl|].
      destruct l as [|y l]; simpl.
      * constructor. unfold createdLater. lia.
      * destruct (createdAt y <=? createdAt d).
        -- constructor. unfold createdLater. lia.
        -- inversion Hhd; subst. constructor. assumption.
Qed.

Lemma sortByCreated_sorted (l : list ITranscription) :
  StronglySorted createdLater (TranscriptionService.sortByCreated l).
Proof.
  apply Sorted_StronglySorted.
  - intros a b c. unfold createdLater. lia.
  - induction l as [|x l IH]; simpl; [constructor|].
    apply insertByCreated_sorted. exact IH.
Qed.

(** X18. With a store that answers, [getRecentTranscriptions] ranks the
    records created in the thirty days up to now, workflows or not, the
    more recently created first, and returns the window of [limit] records
    of page [page] of that ranking, with the number of all ranked records as
    total.  A record created more than thirty days ago is in no page.  The
    collection is not changed. *)
Theorem recent_transcriptions_ranked_and_counted (w : World) :
  responsive 2 w ->
  exists ranked,
    (forall d, In d ranked <->
               In d (collection w) /\ clock w - thirtyDays <= createdAt d)
    /\ Permutation ranked
         (List.filter
            (TranscriptionService.createdSince (clock w - thirtyDays)) (collection w))
    /\ StronglySorted createdLater ranked
    /\ forall page limit, 1 <= page -> 1 <= limit ->
         let result := TranscriptionService.getRecentTranscriptions page limit w in
         fst result =
           Returned
             (mkRecent
                (firstn (Z.to_nat limit)
                   (skipn (Z.to_nat ((page - 1) * limit)) ranked))
                (List.length ranked) page limit)
         /\ collection (snd result) = collection w.
Proof.
  intros Hr.
  pose proof (responsive_at 2 0 w Hr ltac:(lia)) as Hf0.
  pose proof (responsive_at 2 1 w Hr ltac:(lia)) as Hf1.
  rewrite Nat.add_0_r in Hf0.
  replace (storeOps w + 1)%nat with (S (storeOps w)) in Hf1 by lia.
  set (chosen := List.filter
                   (TranscriptionService.createdSince (clock w - thirtyDays))
                   (collection w)).
  exists (TranscriptionService.sortByCreated chosen).
  split.
  { intros d. split.
    - intros Hin. apply (Permutation_in d (sortByCreated_perm chosen)) in Hin.
      unfold chosen in Hin. apply filter_In in Hin.
      destruct Hin as [Hin Hm]. split; [exact Hin|].
      unfold TranscriptionService.createdSince in Hm. apply Z.leb_le. exact Hm.
    - intros [Hin Hl].
      apply (Permutation_in d (Permutation_sym (sortByCreated_perm chosen))).
      unfold chosen. apply filter_In. split; [exact Hin|].
      unfold TranscriptionService.createdSince. apply Z.leb_le. exact Hl. }
  split; [apply sortByCreated_perm|].
  split; [apply sortByCreated_sorted|].
  intros page limit Hp Hl result. subst result.
  unfold TranscriptionService.getRecentTranscriptions,
    TranscriptionService.findRecent, TranscriptionService.countRecent,
    WorkflowService.window.
  async_unfold. world_simpl. rewrite Hf0. cbv beta iota zeta. world_simpl.
  change (30 * 24 * 60 * 60 * 1000) with thirtyDays.
  fold chosen.
  assert (Hskip : ((page - 1) * limit <? 0) = false) by (apply Z.ltb_ge; nia).
  assert (Hlim : (limit =? 0) = false) by (apply Z.eqb_neq; lia).
  rewrite Hskip, Hlim. cbv beta iota zeta. world_simpl. rewrite Hf1.
  cbv beta iota zeta. world_simpl. fold chosen.
  rewrite Z.abs_eq by lia.
  split; [|reflexivity].
  rewrite (Permutation_length (sortByCreated_perm chosen)). reflexivity.
Qed.

Lemma recent_transcriptions_ranked_and_counted_witness :
  exists ranked,
    fst (TranscriptionService.getRecentTranscriptions 1 10 aMonthOn)
    = Returned (mkRecent (firstn 10 (skipn 0 ranked)) (List.length ranked) 1 10)
    /\ forall d, In d ranked -> clock aMonthOn - thirtyDays <= createdAt d.
Proof.
  assert (Hr : responsive 2 aMonthOn) by (intros j _; reflexivity).
  destruct (recent_transcriptions_ranked_and_counted aMonthOn Hr)
    as [ranked [Hin [_ [_ Hpage]]]].
  exists ranked. split.
  - exact (proj1 (Hpage 1 10 ltac:(lia) ltac:(lia))).
  - intros d Hd. apply Hin in Hd. exact (proj2 Hd).
Defined.

(** ** The global error middleware *)

(** X19. What the error middleware lets out.  In production an answer with
    status 500 carries the fixed message "Internal Server Error", never the
    error's own text.  Whatever the environment, the status sent is never 0,
    the label sent with it is never empty, and an error known by name
    (ValidationError, CastError, JsonWebTokenError, TokenExpiredError) is
    answered 400 or 401 whatever status the error itself carries; so in
    production too the text of a ValidationError goes out. *)
Theorem error_middleware_hides_internal_messages (nodeEnv : option string)
    (error : ApiError) (url : string) (today : Z) :
  let body := ErrorHandler.handle nodeEnv error url today in
  (nodeEnv = Some "production" -> sentStatus body = 500 ->
   sentMessage body = "Internal Server Error")
  /\ sentStatus body <> 0
  /\ sentError body <> ""
  /\ (In (errorName error) namedKinds ->
      sentStatus body = 400 \/ sentStatus body = 401)
  /\ (errorName error = "ValidationError" ->
      sentStatus body = 400
      /\ sentError body = "Bad Request"
      /\ sentMessage body = "Validation Error: " ++ errorMessage error).
Proof.
  cbv zeta. unfold ErrorHandler.handle.
  set (status0 := match errorStatus error with
                  | Some s => if s =? 0 then 500 else s
                  | None => 500
                  end).
  assert (H0 : status0 <> 0).
  { unfold status0. destruct (errorStatus error) as [s|]; [|discriminate].
    destruct (Z.eqb_spec s 0); [discriminate | assumption]. }
  split; [|split; [|split; [|split]]].
  - intros -> Hs. cbn [sentStatus sentMessage] in *.
    rewrite String.eqb_refl. cbn [andb].
    apply Z.eqb_eq in Hs. rewrite Hs. reflexivity.
  - cbn [sentStatus].
    repeat match goal with
           | |- context [if ?c then _ else _] => destruct c
           end; cbn [fst]; first [discriminate | exact H0].
  - cbn [sentError]. unfold ErrorHandler.getErrorName, JS.orElse.
    set (status := fst _).
    destruct (ErrorHandler.lookup ErrorHandler.errorNames status) as [label|];
      [|discriminate].
    destruct (String.eqb_spec label ""); [discriminate | assumption].
  - intros Hkind. cbn [sentStatus].
    simpl in Hkind.
    destruct Hkind as [<- | [<- | [<- | [<- | []]]]]; cbn; auto.
  - intros Hname. rewrite Hname. cbn.
    rewrite Bool.andb_false_r. split; [reflexivity|]. split; reflexivity.
Qed.

Lemma error_middleware_hides_internal_messages_witness :
  sentMessage
    (ErrorHandler.handle (Some "production")
       (mkError "MongoNetworkError" "connect ECONNREFUSED 127.0.0.1:27017" None None)
       "/workflows" 0)
  = "Internal Server Error".
Proof.
  apply (proj1 (error_middleware_hides_internal_messages (Some "production")
                  (mkError "MongoNetworkError" "connect ECONNREFUSED 127.0.0.1:27017"
                     None None)
                  "/workflows" 0)); reflexivity.
Defined.

(** ** The Azure transcription service *)

Lemma azureTexts_nonempty (lang : string) :
  (0 < List.length (AzureService.getLanguageSpecificTranscriptions lang))%nat.
Proof.
  unfold AzureService.getLanguageSpecificTranscriptions, AzureService.transcriptions,
    JS.prop.
  repeat match goal with
         | |- context [String.eqb ?a lang] => destruct (String.eqb a lang)
         end; apply Nat.lt_0_succ.
Qed.

Lemma azureText_canned (lang : string) (bits : nat -> N) (k : nat) :
  In (nth (Z.to_nat
             (Qfloor (randomAt bits k
                      * inject_Z (Z.of_nat
                                    (List.length
                                       (AzureService.getLanguageSpecificTranscriptions
                                          lang))))))
        (AzureService.getLanguageSpecificTranscriptions lang) "")
     (AzureService.getLanguageSpecificTranscriptions lang).
Proof. apply nth_In. apply randomIndex_bound. apply azureTexts_nonempty. Qed.

Lemma azureTexts_trimmed (lang text : string) :
  In text (AzureService.getLanguageSpecificTranscriptions lang) ->
  Schema.trim text = text.
Proof.
  unfold AzureService.getLanguageSpecificTranscriptions, AzureService.transcriptions,
    JS.prop.
  repeat match goal with
         | |- context [String.eqb ?a lang] => destruct (String.eqb a lang)
         end;
    cbn [In]; intros H;
    repeat (destruct H as [<-|H]; [vm_compute; reflexivity|]);
    destruct H.
Qed.

(** X20. The answer of [createAzureTranscription] tells which path wrote
    the record.  When the operation returns, exactly one record was added,
    under the returned id, with the requested language, or en-US when none
    was given.  With the message "Transcription saved" its source is azure
    and its text one of the texts the speech service keeps for the language
    (the English ones when it keeps none); with the message "Transcription
    saved (fallback mode)" its source is mock and its text the fallback
    sentence.  There is no third message. *)
Theorem azure_answer_tells_the_source (w : World) (request : TranscriptionRequest)
    (answer : TranscriptionResponse) :
  let result := AzureService.createAzureTranscription request w in
  fst result = Returned answer ->
  exists d,
    collection (snd result) = (collection w ++ [d])%list
    /\ savedId answer = _id d
    /\ language d = JS.orElse (bodyLanguage request) "en-US"
    /\ ((savedMessage answer = "Transcription saved"
         /\ source d = "azure"
         /\ In (transcription d)
              (AzureService.getLanguageSpecificTranscriptions (language d)))
        \/ (savedMessage answer = "Transcription saved (fallback mode)"
            /\ source d = "mock"
            /\ transcription d
               = "This is a fallback transcription generated when Azure Speech Service is unavailable.")).
Proof.
  cbv zeta.
  unfold AzureService.createAzureTranscription,
    AzureService.fallbackToMockTranscription,
    AzureService.validateAzureConfig, AzureService.downloadAudioForAzure.
  rewrite withRetry_unfold. unfold AzureService.callAzureSpeechService.
  async_unfold. world_simpl.
  repeat (break_match; world_simpl); intros H;
    first
      [ discriminate H
      | injection H as <-; eexists;
        split; [reflexivity|]; split; [reflexivity|];
        split; [reflexivity|];
        first
          [ right; split; [reflexivity|]; split; reflexivity
          | left; split; [reflexivity|]; split; [reflexivity|];
            world_simpl;
            rewrite (azureTexts_trimmed _ _ (azureText_canned _ _ _));
            apply azureText_canned ] ].
Qed.

Lemma azure_answer_tells_the_source_witness :
  exists d,
    collection (snd (AzureService.createAzureTranscription plainRequest calm)) = [d]
    /\ source d = "azure"
    /\ In (transcription d) (AzureService.getLanguageSpecificTranscriptions "en-US").
Proof.
  destruct (fst (AzureService.createAzureTranscription plainRequest calm))
    as [answer|e] eqn:Hret; [|vm_compute in Hret; discriminate].
  assert (Hmsg : savedMessage answer = "Transcription saved")
    by (vm_compute in Hret; injection Hret as <-; reflexivity).
  destruct (azure_answer_tells_the_source calm plainRequest answer Hret)
    as [d [Hc [_ [Hl [[_ [Hs Ht]] | [Hm _]]]]]].
  - exists d. split; [exact Hc|]. split; [exact Hs|].
    rewrite Hl in Ht. exact Ht.
  - rewrite Hmsg in Hm. discriminate Hm.
Defined.
